(** * AutomationService: analysis, synthesis and code generation

    A shallow embedding of
    [src/vs/workbench/contrib/cypressAssistant/browser/automationService.ts]
    and the properties of its analysis-synthesis-generation pipeline.

    Conventions of the embedding.
    - A JavaScript string is a Rocq [string]: the sequence of the bytes of
      its UTF-8 encoding; a character is one to four bytes.  White space
      ([\s], [trim]) is the white space of ECMAScript, inside and outside
      ASCII.  The literals and keywords of the service are ASCII: under the
      [i] flag, without the [u] flag, an ASCII character matches ASCII
      characters only, so a literal is compared byte by byte up to the case
      of the ASCII letters.  A character outside the Basic Multilingual
      Plane is two code units for the matcher of the host, one character
      here: the classes that accept one accept both units and stand at the
      end of their pattern, so the matches are the same.
    - [undefined] is [None]; a template placeholder prints it as the text
      [undefined].
    - Regular expressions are kept as syntax trees, transcribed from the
      literals of the source, and run by a backtracking matcher. *)

From Stdlib Require Import String Ascii List Bool Arith NArith Lia DecimalString.
Import ListNotations.
Open Scope list_scope.
Open Scope string_scope.
Open Scope nat_scope.

(** ** String primitives of the host language *)

Module Js.

Definition code (c : ascii) : nat := nat_of_ascii c.

Definition is_upper (c : ascii) : bool :=
  let n := code c in (65 <=? n) && (n <=? 90).

Definition is_lower (c : ascii) : bool :=
  let n := code c in (97 <=? n) && (n <=? 122).

Definition is_digit (c : ascii) : bool :=
  let n := code c in (48 <=? n) && (n <=? 57).

(** The class [\w]: without the [u] flag it holds ASCII characters only. *)
Definition is_word (c : ascii) : bool :=
  is_upper c || is_lower c || is_digit c || (code c =? 95).

Definition lower_char (c : ascii) : ascii :=
  if is_upper c then ascii_of_nat (code c + 32) else c.

Definition upper_char (c : ascii) : ascii :=
  if is_lower c then ascii_of_nat (code c - 32) else c.

(** *** Characters
    A character below U+0080 is one byte.  Any other character is a lead
    byte (192 and above) and one to three continuation bytes (128 to
    191). *)

Definition is_cont (c : ascii) : bool :=
  let n := code c in (128 <=? n) && (n <=? 191).

(** The continuation bytes a lead byte asks for. *)
Definition expected_cont (c : ascii) : nat :=
  let n := code c in
  if n <? 192 then 0 else if n <? 224 then 1 else if n <? 240 then 2 else 3.

(** The continuation bytes at the head of [s], at most [k] of them. *)
Fixpoint cont_run (k : nat) (s : string) : nat :=
  match k, s with
  | S k', String c s' => if is_cont c then S (cont_run k' s') else 0
  | _, _ => 0
  end.

(** The number of bytes of the character a text starts with; 0 for the
    empty text. *)
Definition char_len (s : string) : nat :=
  match s with
  | EmptyString => 0
  | String c s' => S (cont_run (expected_cont c) s')
  end.

(** [s] without its first [n] bytes. *)
Fixpoint drop (n : nat) (s : string) : string :=
  match n, s with
  | S n', String _ s' => drop n' s'
  | _, _ => s
  end.

(** The UTF-8 encoding of a code point. *)
Definition byte (n : N) : ascii := ascii_of_N n.

Definition utf8 (p : N) : string :=
  if (p <? 128)%N then String (byte p) EmptyString
  else if (p <? 2048)%N then
    String (byte (192 + p / 64)) (String (byte (128 + p mod 64)) EmptyString)
  else if (p <? 65536)%N then
    String (byte (224 + p / 4096))
      (String (byte (128 + (p / 64) mod 64))
         (String (byte (128 + p mod 64)) EmptyString))
  else
    String (byte (240 + p / 262144))
      (String (byte (128 + (p / 4096) mod 64))
         (String (byte (128 + (p / 64) mod 64))
            (String (byte (128 + p mod 64)) EmptyString))).

(** *** White space
    The code points of WhiteSpace and LineTerminator: what the class [\s]
    holds and what [trim] strips.  TAB, LF, VT, FF, CR, SP, U+00A0, U+1680,
    U+2000 to U+200A, U+2028, U+2029, U+202F, U+205F, U+3000, U+FEFF. *)
Definition whiteSpacePoints : list N :=
  [ 9; 10; 11; 12; 13; 32; 160; 5760;
    8192; 8193; 8194; 8195; 8196; 8197; 8198; 8199; 8200; 8201; 8202;
    8232; 8233; 8239; 8287; 12288; 65279 ]%N.

Definition space1 (x : nat) : bool :=
  ((9 <=? x) && (x <=? 13)) || (x =? 32).

Definition space2 (x y : nat) : bool :=
  (x =? 194) && (y =? 160).                                   (* U+00A0 *)

Definition space3 (x y z : nat) : bool :=
  ((x =? 225) && (y =? 154) && (z =? 128))                    (* U+1680 *)
  || ((x =? 226) && (y =? 128)
      && (((128 <=? z) && (z <=? 138))                        (* U+2000 to U+200A *)
          || (z =? 168) || (z =? 169) || (z =? 175)))         (* U+2028, U+2029, U+202F *)
  || ((x =? 226) && (y =? 129) && (z =? 159))                 (* U+205F *)
  || ((x =? 227) && (y =? 128) && (z =? 128))                 (* U+3000 *)
  || ((x =? 239) && (y =? 187) && (z =? 191)).                (* U+FEFF *)

(** The number of bytes of the white space character a text starts with;
    0 when it starts with none. *)
Definition space_len (s : string) : nat :=
  match s with
  | String a s1 =>
      if space1 (code a) then 1
      else
        match s1 with
        | String b s2 =>
            if space2 (code a) (code b) then 2
            else
              match s2 with
              | String c _ => if space3 (code a) (code b) (code c) then 3 else 0
              | EmptyString => 0
              end
        | EmptyString => 0
        end
  | EmptyString => 0
  end.

(** A text made of white space only; [skip] counts the bytes still to
    pass of the character at hand. *)
Fixpoint white_from (skip : nat) (s : string) : bool :=
  match s with
  | EmptyString => true
  | String _ s' =>
      match skip with
      | S n => white_from n s'
      | 0 =>
          match space_len s with
          | S n => white_from n s'
          | 0 => false
          end
      end
  end.

Definition white (s : string) : bool := white_from 0 s.

(** [s.toLowerCase()], for a text that is searched for ASCII keywords, as
    every text the service folds is.  The ASCII capitals are folded, and so
    are the two characters outside ASCII whose lower case holds an ASCII
    letter: U+212A KELVIN SIGN gives [k], and U+0130 gives [i] followed by
    U+0307.  The lower case of any other character outside ASCII lies
    outside ASCII; such a character is kept as it is. *)
Definition kelvin_sign : string := utf8 8490.
Definition capital_i_with_dot : string := utf8 304.
Definition combining_dot_above : string := utf8 775.

Fixpoint starts (p s : string) : bool :=
  match p with
  | EmptyString => true
  | String a p' =>
      match s with
      | String b s' => Ascii.eqb a b && starts p' s'
      | EmptyString => false
      end
  end.

Fixpoint lower_from (skip : nat) (s : string) : string :=
  match s with
  | EmptyString => EmptyString
  | String c s' =>
      match skip with
      | S n => lower_from n s'
      | 0 =>
          if starts kelvin_sign s then String "k" (lower_from 2 s')
          else if starts capital_i_with_dot s
               then String "i" (combining_dot_above ++ lower_from 1 s')
               else String (lower_char c) (lower_from 0 s')
      end
  end.

Definition toLowerCase (s : string) : string := lower_from 0 s.

(** [s.includes(sub)] *)
Fixpoint includes (sub s : string) : bool :=
  String.prefix sub s ||
  match s with
  | EmptyString => false
  | String _ s' => includes sub s'
  end.

(** [s.trimStart()] *)
Fixpoint trimStart_from (skip : nat) (s : string) : string :=
  match s with
  | EmptyString => EmptyString
  | String _ s' =>
      match skip with
      | S n => trimStart_from n s'
      | 0 =>
          match space_len s with
          | S n => trimStart_from n s'
          | 0 => s
          end
      end
  end.

Definition trimStart (s : string) : string := trimStart_from 0 s.

(** [s.trimEnd()]: the text up to its last character that is not white
    space. *)
Fixpoint trimEnd (s : string) : string :=
  match s with
  | EmptyString => EmptyString
  | String c s' => if white s then EmptyString else String c (trimEnd s')
  end.

(** [s.trim()] *)
Definition trim (s : string) : string := trimEnd (trimStart s).

(** [s.split(sep)] for a separator of one character: the pieces between
    the separators, at least one piece. *)
Fixpoint split_char (sep : ascii) (s : string) : list string :=
  match s with
  | EmptyString => [EmptyString]
  | String c s' =>
      if Ascii.eqb c sep then EmptyString :: split_char sep s'
      else match split_char sep s' with
           | [] => [String c EmptyString]
           | p :: ps => String c p :: ps
           end
  end.

(** [arr.join(sep)] *)
Definition join (sep : string) (l : list string) : string := String.concat sep l.

(** [arr.pop()] on a fresh array: its last element, [undefined] if none. *)
Definition pop (l : list string) : option string :=
  match rev l with
  | [] => None
  | x :: _ => Some x
  end.

(** What a template placeholder [${v}] prints for a possibly undefined
    string. *)
Definition show (v : option string) : string :=
  match v with
  | Some s => s
  | None => "undefined"
  end.

(** Truthiness of a possibly undefined string. *)
Definition truthy (v : option string) : bool :=
  match v with
  | Some s => negb (String.eqb s "")
  | None => false
  end.

Definition nl : string := String (ascii_of_nat 10) EmptyString.
Definition tab : string := String (ascii_of_nat 9) EmptyString.
Definition dq : string := String (ascii_of_nat 34) EmptyString.

Fixpoint tabs (n : nat) : string :=
  match n with
  | 0 => EmptyString
  | S k => tab ++ tabs k
  end.

End Js.

(** ** Regular expressions

    The fragment of ECMAScript patterns the service uses: literal
    characters, character classes, sequence, alternation, capturing
    groups, the greedy optional [r?], and the greedy [*] and [+] over a
    character class (every starred atom of the source is a class).  There
    are no anchors, word boundaries or look-around, so whether a pattern
    matches at a position depends only on the text from that position on. *)

Module RegExp.

Inductive citem : Type :=
| CChar (c : ascii)      (* one character *)
| CSpace                 (* \s *)
| CWord.                 (* \w *)

Record cclass : Type := mkClass { negated : bool; items : list citem }.

Inductive regex : Type :=
| REps
| RChar (c : ascii)
| RClass (cl : cclass)
| RSeq (r1 r2 : regex)
| RAlt (r1 r2 : regex)
| ROpt (r : regex)
| RStar (cl : cclass)
| RPlus (cl : cclass)
| RGroup (n : nat) (r : regex).

(** Captures: group number and captured text, most recent first. *)
Definition captures : Type := list (nat * string).

Definition capture (n : nat) (caps : captures) : option string :=
  match find (fun p => Nat.eqb (fst p) n) caps with
  | Some p => Some (snd p)
  | None => None
  end.

(** Canonicalize of the specification: under the [i] flag characters are
    compared by their upper case. *)
Definition canon (icase : bool) (c : ascii) : ascii :=
  if icase then Js.upper_char c else c.

(** Whether an item of a class accepts the character at the head of the
    text [s]. *)
Definition item_mem (icase : bool) (it : citem) (s : string) : bool :=
  match it with
  | CChar c =>
      match s with
      | String x _ => Ascii.eqb (canon icase c) (canon icase x)
      | EmptyString => false
      end
  | CSpace => 0 <? Js.space_len s
  | CWord =>
      match s with
      | String x _ => Js.is_word x
      | EmptyString => false
      end
  end.

Definition class_mem (icase : bool) (cl : cclass) (s : string) : bool :=
  xorb (negated cl) (existsb (fun it => item_mem icase it s) (items cl)).

(** The number of bytes of the character at the head of [s] when the
    class accepts it; 0 when it does not, or when [s] is empty. *)
Definition class_len (icase : bool) (cl : cclass) (s : string) : nat :=
  match s with
  | EmptyString => 0
  | String _ _ => if class_mem icase cl s then Js.char_len s else 0
  end.

(** The first [length s - length rest] characters of [s]: the text
    consumed between [s] and its suffix [rest]. *)
Definition consumed (s rest : string) : string :=
  substring 0 (String.length s - String.length rest) s.

Section Matcher.

Variable icase : bool.

(** Greedy star over a class, with backtracking: take the character
    and go on; if the rest of the pattern then fails, stop here.  [skip]
    counts the bytes still to pass of the character just taken. *)
Fixpoint star_from (cl : cclass) (skip : nat) (s : string)
         (k : string -> option (string * captures))
  : option (string * captures) :=
  match s with
  | String _ s' =>
      match skip with
      | S n => star_from cl n s' k
      | 0 =>
          match class_len icase cl s with
          | S n =>
              match star_from cl n s' k with
              | Some res => Some res
              | None => k s
              end
          | 0 => k s
          end
      end
  | EmptyString => k s
  end.

Definition star (cl : cclass) (s : string) (k : string -> option (string * captures))
  : option (string * captures) :=
  star_from cl 0 s k.

(** [rmatch r s caps k]: match [r] at the start of [s], then hand the
    rest of the text and the captures to the continuation [k]; the
    first success, in the priority order of the pattern, wins. *)
Fixpoint rmatch (r : regex) (s : string) (caps : captures)
         (k : string -> captures -> option (string * captures))
  : option (string * captures) :=
  match r with
  | REps => k s caps
  | RChar c =>
      match s with
      | String x s' => if Ascii.eqb (canon icase c) (canon icase x) then k s' caps else None
      | EmptyString => None
      end
  | RClass cl =>
      match class_len icase cl s with
      | S n => k (Js.drop (S n) s) caps
      | 0 => None
      end
  | RSeq r1 r2 => rmatch r1 s caps (fun s1 c1 => rmatch r2 s1 c1 k)
  | RAlt r1 r2 =>
      match rmatch r1 s caps k with
      | Some res => Some res
      | None => rmatch r2 s caps k
      end
  | ROpt r1 =>
      match rmatch r1 s caps k with
      | Some res => Some res
      | None => k s caps
      end
  | RStar cl => star cl s (fun s' => k s' caps)
  | RPlus cl =>
      match class_len icase cl s with
      | S n => star_from cl (S n) s (fun s'' => k s'' caps)
      | 0 => None
      end
  | RGroup n r1 => rmatch r1 s caps (fun s' c' => k s' ((n, consumed s s') :: c'))
  end.

(** A match anchored at the start of [s]: the rest of the text after
    the match, and the captures. *)
Definition match_here (r : regex) (s : string) : option (string * captures) :=
  rmatch r s [] (fun s' c' => Some (s', c')).

(** [s.match(r)] for a pattern without the [g] flag: the leftmost
    match, as the matched text (index 0 of the result array) and the
    captures; [None] is [null]. *)
Fixpoint exec (r : regex) (s : string) : option (string * captures) :=
  match match_here r s with
  | Some (rest, caps) => Some (consumed s rest, caps)
  | None =>
      match s with
      | EmptyString => None
      | String _ s' => exec r s'
      end
  end.

(** [s.matchAll(r)] for a pattern with the [g] flag: the successive
    matches from left to right.  [skip] counts the characters of the
    current match still to pass; after an empty match the search
    moves on by one character. *)
Fixpoint matchAll_from (r : regex) (skip : nat) (s : string)
  : list (string * captures) :=
  match s with
  | EmptyString =>
      match match_here r s with
      | Some (rest, caps) => [(consumed s rest, caps)]
      | None => []
      end
  | String _ s' =>
      match skip with
      | S n => matchAll_from r n s'
      | 0 =>
          match match_here r s with
          | Some (rest, caps) =>
              (consumed s rest, caps)
                :: matchAll_from r (String.length s - String.length rest - 1) s'
          | None => matchAll_from r 0 s'
          end
      end
  end.

Definition matchAll (r : regex) (s : string) : list (string * captures) :=
  matchAll_from r 0 s.

(** [s.replace(r, '')] for a pattern with the [g] flag: every match is
    removed; the characters outside the matches are kept. *)
Fixpoint remove_from (r : regex) (skip : nat) (s : string) : string :=
  match s with
  | EmptyString => EmptyString
  | String c s' =>
      match skip with
      | S n => remove_from r n s'
      | 0 =>
          match match_here r s with
          | Some (rest, _) =>
              match String.length s - String.length rest with
              | S n => remove_from r n s'
              | 0 => String c (remove_from r 0 s')
              end
          | None => String c (remove_from r 0 s')
          end
      end
  end.

Definition removeAll (r : regex) (s : string) : string := remove_from r 0 s.

End Matcher.

(** The least number of characters a match of the pattern consumes. *)
Fixpoint minlen (r : regex) : nat :=
  match r with
  | REps => 0
  | RChar _ => 1
  | RClass _ => 1
  | RSeq r1 r2 => minlen r1 + minlen r2
  | RAlt r1 r2 => Nat.min (minlen r1) (minlen r2)
  | ROpt _ => 0
  | RStar _ => 0
  | RPlus _ => 1
  | RGroup _ r1 => minlen r1
  end.

(** Pattern syntax. *)
Fixpoint lit (s : string) : regex :=
  match s with
  | EmptyString => REps
  | String c EmptyString => RChar c
  | String c s' => RSeq (RChar c) (lit s')
  end.

Definition chars (s : string) : list citem := map CChar (list_ascii_of_string s).

Definition space : cclass := mkClass false [CSpace].          (* \s *)
Definition not_space : cclass := mkClass true [CSpace].       (* [^\s] *)
Definition word : cclass := mkClass false [CWord].            (* \w *)
Definition one_of (s : string) : cclass := mkClass false (chars s).
Definition none_of (s : string) : cclass := mkClass true (chars s).

End RegExp.

Import RegExp.

Declare Scope regex_scope.
Delimit Scope regex_scope with re.
Bind Scope regex_scope with regex.
Infix ";;" := RSeq (at level 61, right associativity) : regex_scope.

(** ** Data model *)

(** The object built by [parseTestDataFromPRD]: each field is set only
    when its line is found. *)
Record TestData : Type := mkTestData {
  url : option string;
  username : option string;
  password : option string
}.

Inductive Status : Type := pending | generated | running | passed | failed.

(** [ITestCase].  The field [testData] has type [any] in the source; its
    values are the objects built by [parseTestDataFromPRD].  A record has
    every field the interface declares, as the test cases the service
    makes itself have.  The test cases of a remote answer are not checked
    against the interface: they stay [Json] values. *)
Record ITestCase : Type := mkTestCase {
  id : string;
  name : string;
  description : string;
  steps : list string;
  expectedResult : string;
  cypressCode : option string;
  playwrightCode : option string;
  status : option Status;
  testData : option TestData
}.

Record IPRDAnalysis : Type := mkAnalysis {
  features : list string;
  userStories : list string;
  acceptanceCriteria : list string;
  testCases : list ITestCase
}.

(** ** RequirementParser: [parseTestDataFromPRD] *)

(** [/URL:\s*(https?:\/\/[^\s]+)/i] *)
Definition urlPattern : regex :=
  (lit "URL:" ;; RStar space ;;
   RGroup 1 (lit "http" ;; ROpt (RChar "s") ;; lit "://" ;; RPlus not_space))%re.

(** [/Username:\s*([^\s]+)/i] *)
Definition usernamePattern : regex :=
  (lit "Username:" ;; RStar space ;; RGroup 1 (RPlus not_space))%re.

(** [/Password:\s*([^\s]+)/i] *)
Definition passwordPattern : regex :=
  (lit "Password:" ;; RStar space ;; RGroup 1 (RPlus not_space))%re.

(** [line.match(pattern)] followed by the read of index 1 when the match
    is not null. *)
Definition match1 (pattern : regex) (line : string) : option string :=
  match exec true pattern line with
  | Some (_, caps) => capture 1 caps
  | None => None
  end.

Definition emptyTestData : TestData := mkTestData None None None.

(** The body of the loop over the lines. *)
Definition parseLine (td : TestData) (line : string) : TestData :=
  let urlMatch := match1 urlPattern line in
  let usernameMatch := match1 usernamePattern line in
  let passwordMatch := match1 passwordPattern line in
  let td1 := match urlMatch with
             | Some u => mkTestData (Some u) (username td) (password td)
             | None => td
             end in
  let td2 := match usernameMatch with
             | Some u => mkTestData (url td1) (Some u) (password td1)
             | None => td1
             end in
  match passwordMatch with
  | Some p => mkTestData (url td2) (username td2) (Some p)
  | None => td2
  end.

(** [prd.split('\n')] *)
Definition linesOf (prd : string) : list string :=
  Js.split_char (ascii_of_nat 10) prd.

Definition parseTestDataFromPRD (prd : string) : option TestData :=
  let lines := linesOf prd in
  let testData := fold_left parseLine lines emptyTestData in
  if Js.truthy (url testData) then Some testData else None.

(** ** DeterministicCaseSynthesizer *)

(** URL mode: [generateLoginTestCasesForURL]. *)
Definition generateLoginTestCasesForURL (testData : TestData) : list ITestCase :=
  let url := Js.show (url testData) in
  let username := Js.show (username testData) in
  let password := Js.show (password testData) in
  [ mkTestCase "login-001"
      "Successful Login with Valid Credentials"
      ("Verify user can login to " ++ url ++ " with valid credentials")
      [ "Navigate to " ++ url;
        "Enter username: " ++ username;
        "Enter password: " ++ password;
        "Click login/submit button";
        "Verify successful login" ]
      "User is successfully logged in and redirected to dashboard/home page"
      None None (Some pending) (Some testData);
    mkTestCase "login-002"
      "Invalid Username Test"
      "Verify system shows error for invalid username"
      [ "Navigate to " ++ url;
        "Enter invalid username";
        "Enter password: " ++ password;
        "Click login button" ]
      "Error message is displayed indicating invalid username"
      None None (Some pending) (Some testData);
    mkTestCase "login-003"
      "Invalid Password Test"
      "Verify system shows error for invalid password"
      [ "Navigate to " ++ url;
        "Enter username: " ++ username;
        "Enter invalid password";
        "Click login button" ]
      "Error message is displayed indicating invalid password"
      None None (Some pending) (Some testData);
    mkTestCase "login-004"
      "Empty Fields Validation"
      "Verify validation for empty username and password fields"
      [ "Navigate to " ++ url;
        "Leave username and password fields empty";
        "Click login button" ]
      "Validation messages appear for required fields"
      None None (Some pending) (Some testData) ].

(** Keyword mode: the canned cases. *)
Definition generateLoginTestCases : list ITestCase :=
  [ mkTestCase "login-001" "Successful Login"
      "User can login with valid credentials"
      [ "Navigate to login page";
        "Enter valid email address";
        "Enter valid password";
        "Click login button" ]
      "User is redirected to dashboard"
      None None (Some pending) None;
    mkTestCase "login-002" "Invalid Credentials"
      "System shows error for invalid login"
      [ "Navigate to login page";
        "Enter invalid email or password";
        "Click login button" ]
      "Error message is displayed"
      None None (Some pending) None ].

Definition generateCartTestCases : list ITestCase :=
  [ mkTestCase "cart-001" "Add to Cart"
      "User can add products to cart"
      [ "Navigate to product page";
        "Click add to cart button";
        "Verify cart notification" ]
      "Product is added to cart"
      None None (Some pending) None;
    mkTestCase "cart-002" "Remove from Cart"
      "User can remove items from cart"
      [ "Navigate to cart page";
        "Click remove button on item";
        "Confirm removal" ]
      "Item is removed from cart"
      None None (Some pending) None ].

Definition generateSearchTestCases : list ITestCase :=
  [ mkTestCase "search-001" "Search Functionality"
      "User can search for items"
      [ "Navigate to homepage";
        "Enter search term";
        "Click search button" ]
      "Search results are displayed"
      None None (Some pending) None ].

Definition generateGenericTestCase : ITestCase :=
  mkTestCase "generic-001" "Basic Functionality Test"
    "Verify basic system functionality"
    [ "Navigate to application";
      "Perform primary action";
      "Verify expected behavior" ]
    "System works as expected"
    None None (Some pending) None.

(** [generateTestCasesFallback]: the array [testCases] grows by one
    [push(...)] per matching domain. *)
Definition generateTestCasesFallback (prd : string) : list ITestCase :=
  let prdLower := Js.toLowerCase prd in
  let testCases0 : list ITestCase := [] in
  let testCases1 :=
    if Js.includes "login" prdLower
    then (testCases0 ++ generateLoginTestCases)%list else testCases0 in
  let testCases2 :=
    if Js.includes "cart" prdLower || Js.includes "shopping" prdLower
    then (testCases1 ++ generateCartTestCases)%list else testCases1 in
  let testCases3 :=
    if Js.includes "search" prdLower
    then (testCases2 ++ generateSearchTestCases)%list else testCases2 in
  if length testCases3 =? 0
  then (testCases3 ++ [generateGenericTestCase])%list else testCases3.

(** ** HeuristicAnalyzer *)

Definition rest_of_line : regex := RGroup 1 (RPlus (none_of Js.nl)).   (* ([^\n]+) *)

(** [/feature[s]?:\s*([^\n]+)/gi], [/functionality[ies]?:\s*([^\n]+)/gi],
    [/requirement[s]?:\s*([^\n]+)/gi] *)
Definition featurePatterns : list regex :=
  [ (lit "feature" ;; ROpt (RClass (one_of "s")) ;; RChar ":" ;; RStar space ;; rest_of_line)%re;
    (lit "functionality" ;; ROpt (RClass (one_of "ies")) ;; RChar ":" ;; RStar space ;; rest_of_line)%re;
    (lit "requirement" ;; ROpt (RClass (one_of "s")) ;; RChar ":" ;; RStar space ;; rest_of_line)%re ].

(** [/as a[n]?\s+(\w+)[,\s]+i (want|need|would like)[^.]+/gi] *)
Definition storyPattern : regex :=
  (lit "as a" ;; ROpt (RClass (one_of "n")) ;; RPlus space ;; RGroup 1 (RPlus word) ;;
   RPlus (mkClass false [CChar ","; CSpace]) ;; lit "i " ;;
   RGroup 2 (RAlt (lit "want") (RAlt (lit "need") (lit "would like"))) ;;
   RPlus (none_of "."))%re.

(** [/acceptance criteri[a|on]:\s*([^\n]+)/gi], [/must\s+([^\n]+)/gi],
    [/should\s+([^\n]+)/gi] *)
Definition criteriaPatterns : list regex :=
  [ (lit "acceptance criteri" ;; RClass (one_of "a|on") ;; RChar ":" ;; RStar space ;; rest_of_line)%re;
    (lit "must" ;; RPlus space ;; rest_of_line)%re;
    (lit "should" ;; RPlus space ;; rest_of_line)%re ].

(** The loop [for (const match of prd.matchAll(pattern)) out.push(match[1].trim())]:
    the pushed values, in order.  Group 1 takes part in every match of the
    patterns above. *)
Definition captured_trimmed (pattern : regex) (prd : string) : list string :=
  map (fun m => Js.trim (Js.show (capture 1 (snd m)))) (matchAll true pattern prd).

(** [new Set(l)]: an element is added, at the end, unless it is already in
    the set; [[...set]] lists the elements in insertion order. *)
Definition set_add (acc : list string) (x : string) : list string :=
  if existsb (String.eqb x) acc then acc else (acc ++ [x])%list.

Definition set_of (l : list string) : list string := fold_left set_add l [].

(** The array [features] of [extractFeatures] before the final [Set]. *)
Definition pushedFeatures (prd : string) : list string :=
  let lower := Js.toLowerCase prd in
  (flat_map (fun pattern => captured_trimmed pattern prd) featurePatterns
   ++ (if Js.includes "login" lower then ["User Authentication"] else [])
   ++ (if Js.includes "cart" lower then ["Shopping Cart"] else [])
   ++ (if Js.includes "checkout" lower then ["Checkout Process"] else [])
   ++ (if Js.includes "search" lower then ["Search Functionality"] else []))%list.

Definition extractFeatures (prd : string) : list string :=
  set_of (pushedFeatures prd).

Definition extractUserStories (prd : string) : list string :=
  let stories := map fst (matchAll true storyPattern prd) in
  if length stories =? 0
  then (stories ++ ["As a user, I want to use the system effectively"])%list
  else stories.

Definition extractAcceptanceCriteria (prd : string) : list string :=
  flat_map (fun pattern => captured_trimmed pattern prd) criteriaPatterns.

(** ** CodeGenerator: the deterministic translator *)

Definition extractElement (step : string) : string :=
  let lower := Js.toLowerCase step in
  if Js.includes "button" lower then "[data-test=" ++ Js.dq ++ "button" ++ Js.dq ++ "]"
  else if Js.includes "input" lower then "[data-test=" ++ Js.dq ++ "input" ++ Js.dq ++ "]"
  else if Js.includes "email" lower then "[data-test=" ++ Js.dq ++ "email" ++ Js.dq ++ "]"
  else if Js.includes "password" lower then "[data-test=" ++ Js.dq ++ "password" ++ Js.dq ++ "]"
  else if Js.includes "search" lower then "[data-test=" ++ Js.dq ++ "search" ++ Js.dq ++ "]"
  else "[data-test=" ++ Js.dq ++ "element" ++ Js.dq ++ "]".

Definition stepToCypressCommand (step : string) : string :=
  let stepLower := Js.toLowerCase step in
  if Js.includes "navigate" stepLower || Js.includes "go to" stepLower then
    "cy.visit('/');"
  else if Js.includes "click" stepLower then
    "cy.get('" ++ extractElement step ++ "').click();"
  else if Js.includes "enter" stepLower || Js.includes "type" stepLower then
    "cy.get('" ++ extractElement step ++ "').type('test data');"
  else if Js.includes "select" stepLower then
    "cy.get('" ++ extractElement step ++ "').select('option');"
  else if Js.includes "verify" stepLower || Js.includes "check" stepLower then
    "cy.get('[data-test]').should('exist');"
  else
    "// " ++ step.

Definition stepToPlaywrightCommand (step : string) : string :=
  let stepLower := Js.toLowerCase step in
  if Js.includes "navigate" stepLower || Js.includes "go to" stepLower then
    "await page.goto('/');"
  else if Js.includes "click" stepLower then
    "await page.click('" ++ extractElement step ++ "');"
  else if Js.includes "enter" stepLower || Js.includes "type" stepLower then
    "await page.fill('" ++ extractElement step ++ "', 'test data');"
  else if Js.includes "verify" stepLower || Js.includes "check" stepLower then
    "await expect(page.locator('[data-test]')).toBeVisible();"
  else
    "// " ++ step.

Definition expectedResultToAssertion (result : string) : string :=
  let resultLower := Js.toLowerCase result in
  if Js.includes "redirect" resultLower then
    "cy.url().should('include', '/dashboard');"
  else if Js.includes "display" resultLower || Js.includes "show" resultLower then
    "cy.get('[data-test=" ++ Js.dq ++ "result" ++ Js.dq ++ "]').should('be.visible');"
  else if Js.includes "error" resultLower then
    "cy.get('[data-test=" ++ Js.dq ++ "error" ++ Js.dq ++ "]').should('contain', 'Error');"
  else
    "cy.get('[data-test=" ++ Js.dq ++ "success" ++ Js.dq ++ "]').should('exist');".

Definition expectedResultToPlaywrightAssertion (result : string) : string :=
  let resultLower := Js.toLowerCase result in
  if Js.includes "redirect" resultLower then
    "await expect(page).toHaveURL(/.*dashboard/);"
  else if Js.includes "display" resultLower || Js.includes "show" resultLower then
    "await expect(page.locator('[data-test=" ++ Js.dq ++ "result" ++ Js.dq ++ "]')).toBeVisible();"
  else if Js.includes "error" resultLower then
    "await expect(page.locator('[data-test=" ++ Js.dq ++ "error" ++ Js.dq ++ "]')).toContainText('Error');"
  else
    "await expect(page.locator('[data-test=" ++ Js.dq ++ "success" ++ Js.dq ++ "]')).toBeVisible();".

(** ** CodeGenerator: markdown fences *)

Definition fence_chars : string := "```".

(** A fence pattern: three backticks, then optional parts. *)
Definition fenceOf (tail : regex) : regex := RSeq (lit fence_chars) tail.

(** [/```(?:javascript|typescript|js|ts)?\n?/g] *)
Definition fenceWithLanguage : regex :=
  fenceOf
    (ROpt (RAlt (lit "javascript") (RAlt (lit "typescript") (RAlt (lit "js") (lit "ts")))) ;;
     ROpt (RChar (ascii_of_nat 10)))%re.

(** [/```\n?/g] *)
Definition fencePlain : regex :=
  fenceOf (ROpt (RChar (ascii_of_nat 10))).

Definition cleanGeneratedCode (code : string) : string :=
  let code1 := removeAll false fenceWithLanguage code in
  let code2 := removeAll false fencePlain code1 in
  Js.trim code2.

(** ** The deterministic code templates *)

(** [generateCypressCodeForURL] *)
Definition generateCypressCodeForURL (testCase : ITestCase) (testData : TestData) : string :=
  Js.join Js.nl
    [ "describe('" ++ name testCase ++ "', () => {";
      Js.tabs 1 ++ "it('" ++ description testCase ++ "', () => {";
      Js.tabs 2 ++ "// 设置慢速执行，便于观察";
      Js.tabs 2 ++ "cy.viewport(1280, 720);";
      Js.tabs 2;
      Js.tabs 2 ++ "// Navigate to the login page";
      Js.tabs 2 ++ "cy.visit('" ++ Js.show (url testData) ++ "');";
      Js.tabs 2 ++ "cy.wait(2000); // 等待页面加载";
      Js.tabs 2;
      Js.tabs 2 ++ "// 高亮显示用户名输入框";
      Js.tabs 2 ++ "cy.get('#username').should('be.visible').focus();";
      Js.tabs 2 ++ "cy.wait(1000); // 暂停1秒";
      Js.tabs 2;
      Js.tabs 2 ++ "// 慢速输入用户名";
      Js.tabs 2 ++ "cy.get('#username').clear().type('" ++ Js.show (username testData) ++ "', { delay: 100 });";
      Js.tabs 2 ++ "cy.wait(1000);";
      Js.tabs 2;
      Js.tabs 2 ++ "// 高亮显示密码输入框";
      Js.tabs 2 ++ "cy.get('#password').focus();";
      Js.tabs 2 ++ "cy.wait(1000);";
      Js.tabs 2;
      Js.tabs 2 ++ "// 慢速输入密码";
      Js.tabs 2 ++ "cy.get('#password').clear().type('" ++ Js.show (password testData) ++ "', { delay: 100 });";
      Js.tabs 2 ++ "cy.wait(1000);";
      Js.tabs 2;
      Js.tabs 2 ++ "// 点击登录按钮前暂停";
      Js.tabs 2 ++ "cy.get('button[type=" ++ Js.dq ++ "submit" ++ Js.dq ++ "]').should('be.visible');";
      Js.tabs 2 ++ "cy.wait(1500);";
      Js.tabs 2;
      Js.tabs 2 ++ "// 点击登录";
      Js.tabs 2 ++ "cy.get('button[type=" ++ Js.dq ++ "submit" ++ Js.dq ++ "]').click();";
      Js.tabs 2 ++ "cy.wait(2000);";
      Js.tabs 2;
      Js.tabs 2 ++ "// 验证结果";
      Js.tabs 2 ++ "cy.url().should('include', '/secure');";
      Js.tabs 1 ++ "});";
      Js.tabs 1 ++ "});" ].

(** [generatePlaywrightCodeForURL]: the head of the test, the login steps
    when the name of the case contains [successful] or [valid], and the
    closing line. *)
Definition generatePlaywrightCodeForURL (testCase : ITestCase) (testData : TestData) : string :=
  let code0 :=
    Js.join Js.nl
    [ "import { test, expect } from '@playwright/test';";
      Js.tabs 1;
      Js.tabs 1 ++ "// 配置慢速执行";
      Js.tabs 1 ++ "test.use({";
      Js.tabs 1 ++ "  // 每个操作延迟500ms";
      Js.tabs 1 ++ "  launchOptions: {";
      Js.tabs 2 ++ "slowMo: 500,";
      Js.tabs 1 ++ "  },";
      Js.tabs 1 ++ "  // 视口大小";
      Js.tabs 1 ++ "  viewport: { width: 1280, height: 720 },";
      Js.tabs 1 ++ "  // 录制视频";
      Js.tabs 1 ++ "  video: 'on',";
      Js.tabs 1 ++ "  // 截图";
      Js.tabs 1 ++ "  screenshot: 'on',";
      Js.tabs 1 ++ "});";
      Js.tabs 1;
      Js.tabs 1 ++ "test('" ++ name testCase ++ "', async ({ page }) => {";
      Js.tabs 1 ++ "  // 设置默认超时";
      Js.tabs 1 ++ "  test.setTimeout(60000);";
      Js.tabs 1 ++ "  ";
      Js.tabs 1 ++ "  // 导航到登录页面";
      Js.tabs 1 ++ "  await page.goto('" ++ Js.show (url testData) ++ "');";
      Js.tabs 1 ++ "  console.log('📍 Navigated to: " ++ Js.show (url testData) ++ "');";
      Js.tabs 1 ++ "  ";
      Js.tabs 1 ++ "  // 等待页面完全加载";
      Js.tabs 1 ++ "  await page.waitForLoadState('networkidle');";
      Js.tabs 1 ++ "  await page.waitForTimeout(2000); // 额外等待2秒";
      Js.tabs 1 ++ "  ";
      Js.tabs 1 ++ "  // 截图 - 初始页面";
      Js.tabs 1 ++ "  await page.screenshot({ path: 'login-page.png' });";
      Js.tabs 1 ] in
  let code1 :=
    if Js.includes "successful" (Js.toLowerCase (name testCase))
       || Js.includes "valid" (Js.toLowerCase (name testCase))
    then code0 ++
    Js.join Js.nl
    [ "";
      Js.tabs 1 ++ "  ";
      Js.tabs 1 ++ "  // 🔍 查找用户名输入框";
      Js.tabs 1 ++ "  console.log('🔍 Finding username input...');";
      Js.tabs 1 ++ "  const usernameInput = page.locator('#username');";
      Js.tabs 1 ++ "  await usernameInput.scrollIntoViewIfNeeded();";
      Js.tabs 1 ++ "  await usernameInput.hover(); // 悬停效果";
      Js.tabs 1 ++ "  await page.waitForTimeout(1000);";
      Js.tabs 1 ++ "  ";
      Js.tabs 1 ++ "  // ✏️ 输入用户名";
      Js.tabs 1 ++ "  console.log('✏️ Typing username: " ++ Js.show (username testData) ++ "');";
      Js.tabs 1 ++ "  await usernameInput.click();";
      Js.tabs 1 ++ "  await usernameInput.fill(''); // 先清空";
      Js.tabs 1 ++ "  ";
      Js.tabs 1 ++ "  // 逐字输入，模拟真人打字";
      Js.tabs 1 ++ "  for (const char of '" ++ Js.show (username testData) ++ "') {";
      Js.tabs 2 ++ "await usernameInput.type(char, { delay: 100 });";
      Js.tabs 1 ++ "  }";
      Js.tabs 1 ++ "  await page.waitForTimeout(1000);";
      Js.tabs 1 ++ "  ";
      Js.tabs 1 ++ "  // 🔍 查找密码输入框";
      Js.tabs 1 ++ "  console.log('🔍 Finding password input...');";
      Js.tabs 1 ++ "  const passwordInput = page.locator('#password');";
      Js.tabs 1 ++ "  await passwordInput.scrollIntoViewIfNeeded();";
      Js.tabs 1 ++ "  await passwordInput.hover();";
      Js.tabs 1 ++ "  await page.waitForTimeout(1000);";
      Js.tabs 1 ++ "  ";
      Js.tabs 1 ++ "  // ✏️ 输入密码";
      Js.tabs 1 ++ "  console.log('✏️ Typing password...');";
      Js.tabs 1 ++ "  await passwordInput.click();";
      Js.tabs 1 ++ "  await passwordInput.fill('');";
      Js.tabs 1 ++ "  ";
      Js.tabs 1 ++ "  // 逐字输入密码";
      Js.tabs 1 ++ "  for (const char of '" ++ Js.show (password testData) ++ "') {";
      Js.tabs 2 ++ "await passwordInput.type(char, { delay: 100 });";
      Js.tabs 1 ++ "  }";
      Js.tabs 1 ++ "  await page.waitForTimeout(1500);";
      Js.tabs 1 ++ "  ";
      Js.tabs 1 ++ "  // 📸 截图 - 填写完成";
      Js.tabs 1 ++ "  await page.screenshot({ path: 'filled-form.png' });";
      Js.tabs 1 ++ "  ";
      Js.tabs 1 ++ "  // 🖱️ 查找并点击登录按钮";
      Js.tabs 1 ++ "  console.log('🖱️ Finding login button...');";
      Js.tabs 1 ++ "  const loginButton = page.locator('button[type=" ++ Js.dq ++ "submit" ++ Js.dq ++ "]');";
      Js.tabs 1 ++ "  await loginButton.scrollIntoViewIfNeeded();";
      Js.tabs 1 ++ "  await loginButton.hover(); // 悬停在按钮上";
      Js.tabs 1 ++ "  await page.waitForTimeout(1000);";
      Js.tabs 1 ++ "  ";
      Js.tabs 1 ++ "  // 高亮显示按钮";
      Js.tabs 1 ++ "  await loginButton.evaluate(el => {";
      Js.tabs 2 ++ "el.style.border = '3px solid red';";
      Js.tabs 2 ++ "el.style.boxShadow = '0 0 10px red';";
      Js.tabs 1 ++ "  });";
      Js.tabs 1 ++ "  await page.waitForTimeout(1000);";
      Js.tabs 1 ++ "  ";
      Js.tabs 1 ++ "  console.log('🚀 Clicking login button...');";
      Js.tabs 1 ++ "  await loginButton.click();";
      Js.tabs 1 ++ "  ";
      Js.tabs 1 ++ "  // 等待导航";
      Js.tabs 1 ++ "  await page.waitForTimeout(2000);";
      Js.tabs 1 ++ "  ";
      Js.tabs 1 ++ "  // 验证登录成功";
      Js.tabs 1 ++ "  console.log('✅ Verifying successful login...');";
      Js.tabs 1 ++ "  await expect(page).toHaveURL(/.*secure/);";
      Js.tabs 1 ++ "  ";
      Js.tabs 1 ++ "  // 📸 最终截图";
      Js.tabs 1 ++ "  await page.screenshot({ path: 'login-success.png' });";
      Js.tabs 1 ++ "  console.log('✅ Test completed successfully!');" ]
    else code0 in
  code1 ++
    Js.join Js.nl
    [ "";
      Js.tabs 1 ++ "});" ].

(** The test [testData?.url]: the test data, when it is there and its
    url is truthy. *)
Definition urlBearing (testData : option TestData) : option TestData :=
  match testData with
  | Some td => if Js.truthy (url td) then Some td else None
  | None => None
  end.

Definition generateCypressCodeFallback (testCase : ITestCase) : string :=
  match urlBearing (testData testCase) with
  | Some td => generateCypressCodeForURL testCase td
  | None =>
      let steps_code := Js.join (Js.nl ++ "    ") (map stepToCypressCommand (steps testCase)) in
      let assertions := expectedResultToAssertion (expectedResult testCase) in
  Js.join Js.nl
    [ "describe('" ++ name testCase ++ "', () => {";
      "  beforeEach(() => {";
      "    cy.visit('/');";
      "  });";
      "";
      "  it('" ++ description testCase ++ "', () => {";
      "    " ++ steps_code;
      "    ";
      "    // Verify: " ++ expectedResult testCase;
      "    " ++ assertions;
      "  });";
      "});" ]
  end.

Definition generatePlaywrightCodeFallback (testCase : ITestCase) : string :=
  match urlBearing (testData testCase) with
  | Some td => generatePlaywrightCodeForURL testCase td
  | None =>
      let steps_code := Js.join (Js.nl ++ "    ") (map stepToPlaywrightCommand (steps testCase)) in
      let assertions := expectedResultToPlaywrightAssertion (expectedResult testCase) in
  Js.join Js.nl
    [ "import { test, expect } from '@playwright/test';";
      "";
      "test.describe('" ++ name testCase ++ "', () => {";
      "  test('" ++ description testCase ++ "', async ({ page }) => {";
      "    await page.goto('/');";
      "    " ++ steps_code;
      "    ";
      "    // Verify: " ++ expectedResult testCase;
      "    " ++ assertions;
      "  });";
      "});" ]
  end.

(** The instructions sent to the remote capability. *)
Definition analysisSystemPrompt : string :=
  Js.join Js.nl
    [ "You are an expert QA automation engineer. Analyze the given PRD and generate comprehensive test cases.";
      Js.tabs 2 ++ "Return the response in JSON format with the following structure:";
      Js.tabs 2 ++ "{";
      Js.tabs 3 ++ Js.dq ++ "features" ++ Js.dq ++ ": [" ++ Js.dq ++ "list of features" ++ Js.dq ++ "],";
      Js.tabs 3 ++ Js.dq ++ "userStories" ++ Js.dq ++ ": [" ++ Js.dq ++ "list of user stories" ++ Js.dq ++ "],";
      Js.tabs 3 ++ Js.dq ++ "acceptanceCriteria" ++ Js.dq ++ ": [" ++ Js.dq ++ "list of acceptance criteria" ++ Js.dq ++ "],";
      Js.tabs 3 ++ Js.dq ++ "testCases" ++ Js.dq ++ ": [";
      Js.tabs 4 ++ "{";
      Js.tabs 5 ++ Js.dq ++ "id" ++ Js.dq ++ ": " ++ Js.dq ++ "unique-id" ++ Js.dq ++ ",";
      Js.tabs 5 ++ Js.dq ++ "name" ++ Js.dq ++ ": " ++ Js.dq ++ "test name" ++ Js.dq ++ ",";
      Js.tabs 5 ++ Js.dq ++ "description" ++ Js.dq ++ ": " ++ Js.dq ++ "test description" ++ Js.dq ++ ",";
      Js.tabs 5 ++ Js.dq ++ "steps" ++ Js.dq ++ ": [" ++ Js.dq ++ "step 1" ++ Js.dq ++ ", " ++ Js.dq ++ "step 2" ++ Js.dq ++ "],";
      Js.tabs 5 ++ Js.dq ++ "expectedResult" ++ Js.dq ++ ": " ++ Js.dq ++ "expected outcome" ++ Js.dq;
      Js.tabs 4 ++ "}";
      Js.tabs 3 ++ "]";
      Js.tabs 2 ++ "}" ].

Definition analysisPrompt (prd : string) : string :=
  "Analyze this PRD and generate comprehensive test cases:" ++ Js.nl ++ Js.nl ++ prd.

Definition cypressSystemPrompt : string :=
  Js.join Js.nl
    [ "You are an expert Cypress automation engineer. Generate clean, production-ready Cypress test code.";
      Js.tabs 2 ++ "Use modern Cypress best practices including:";
      Js.tabs 2 ++ "- Proper selectors (data-cy, data-test, id, or class attributes)";
      Js.tabs 2 ++ "- Appropriate assertions";
      Js.tabs 2 ++ "- Clear comments";
      Js.tabs 2 ++ "- Error handling";
      Js.tabs 2 ++ "- Proper waits and timeouts";
      Js.tabs 2 ++ "If the test case includes a URL, use cy.visit() with that exact URL." ].

Definition cypressPrompt (testCase : ITestCase) : string :=
  Js.join Js.nl
    [ "Generate Cypress test code for:";
      Js.tabs 2 ++ "Test Name: " ++ name testCase;
      Js.tabs 2 ++ "Description: " ++ description testCase;
      Js.tabs 2 ++ "Steps: " ++ Js.join ", " (steps testCase);
      Js.tabs 2 ++ "Expected Result: " ++ expectedResult testCase ].

Definition playwrightSystemPrompt : string :=
  Js.join Js.nl
    [ "You are an expert Playwright automation engineer. Generate clean, production-ready Playwright test code.";
      Js.tabs 2 ++ "Use modern Playwright best practices including:";
      Js.tabs 2 ++ "- Proper locators";
      Js.tabs 2 ++ "- Async/await patterns";
      Js.tabs 2 ++ "- Appropriate assertions with expect";
      Js.tabs 2 ++ "- Error handling";
      Js.tabs 2 ++ "- Page object pattern when appropriate" ].

Definition playwrightPrompt (testCase : ITestCase) : string :=
  Js.join Js.nl
    [ "Generate Playwright test code for:";
      Js.tabs 2 ++ "Test Name: " ++ name testCase;
      Js.tabs 2 ++ "Description: " ++ description testCase;
      Js.tabs 2 ++ "Steps: " ++ Js.join ", " (steps testCase);
      Js.tabs 2 ++ "Expected Result: " ++ expectedResult testCase ].

(** ** The host: values, errors, effects *)

(** A value read from JSON text.  A number is kept as the text the host
    prints for it. *)
#[warnings="-register-all"]
Inductive Json : Type :=
| JNull
| JBool (b : bool)
| JNum (repr : string)
| JStr (s : string)
| JArr (elements : list Json)
| JObj (fields : list (string * Json)).

(** What the service can throw. *)
Inductive Error : Type :=
| ApiKeyNotConfigured                              (* new Error('OpenAI API key not configured...') *)
| FetchFailed (reason : string)                    (* fetch rejects *)
| ApiError (statusText : string) (errorData : Json)  (* new Error(`OpenAI API error: ...`) *)
| SyntaxError                                      (* JSON.parse, response.json() *)
| TypeError                                        (* read of a property of undefined or null; call of a non-function *)
| NoWorkspaceFolder.                               (* new Error('No workspace folder found') *)

Inductive Result (A : Type) : Type :=
| Ok (a : A)
| Throw (e : Error).
Arguments Ok {A} a.
Arguments Throw {A} e.

Definition lookup (key : string) (fields : list (string * Json)) : option Json :=
  match find (fun p => String.eqb (fst p) key) fields with
  | Some p => Some (snd p)
  | None => None
  end.

(** [v.key] for one of the names [choices], [message], [content],
    [testCases], none of which is a property of a prototype: an object
    gives its field or [undefined], a number, string, boolean or array
    gives [undefined], and [undefined] and [null] throw a TypeError. *)
Definition getField (v : option Json) (key : string) : Result (option Json) :=
  match v with
  | None | Some JNull => Throw TypeError
  | Some (JObj fields) => Ok (lookup key fields)
  | Some _ => Ok None
  end.

(** [v[0]] *)
Definition getFirst (v : option Json) : Result (option Json) :=
  match v with
  | None | Some JNull => Throw TypeError
  | Some (JArr elements) => Ok (hd_error elements)
  | Some (JStr (String c _)) => Ok (Some (JStr (String c EmptyString)))
  | Some (JObj fields) => Ok (lookup "0" fields)
  | Some _ => Ok None
  end.

(** ToString of a value. *)
Fixpoint toStringJson (j : Json) : string :=
  match j with
  | JNull => "null"
  | JBool true => "true"
  | JBool false => "false"
  | JNum repr => repr
  | JStr s => s
  | JArr elements =>
      Js.join ","
        ((fix each (l : list Json) : list string :=
            match l with
            | [] => []
            | JNull :: xs => EmptyString :: each xs
            | x :: xs => toStringJson x :: each xs
            end) elements)
  | JObj _ => "[object Object]"
  end.

Definition toStringValue (v : option Json) : string :=
  match v with
  | Some j => toStringJson j
  | None => "undefined"
  end.

(** [{...tc, status: 'pending'}]: the own properties of [tc], then
    [status], which keeps its place if [tc] has it. *)
Definition decimal (n : nat) : string := NilEmpty.string_of_uint (Nat.to_uint n).

Fixpoint indexed {A : Type} (n : nat) (l : list A) : list (string * A) :=
  match l with
  | [] => []
  | x :: xs => (decimal n, x) :: indexed (S n) xs
  end.

Definition ownProperties (tc : Json) : list (string * Json) :=
  match tc with
  | JObj fields => fields
  | JArr elements => indexed 0 elements
  | JStr s => indexed 0 (map (fun c => JStr (String c EmptyString)) (list_ascii_of_string s))
  | _ => []
  end.

Fixpoint setField (key : string) (v : Json) (fields : list (string * Json))
  : list (string * Json) :=
  match fields with
  | [] => [(key, v)]
  | (k, x) :: rest =>
      if String.eqb k key then (k, v) :: rest else (k, x) :: setField key v rest
  end.

Definition stampPending (tc : Json) : Json :=
  JObj (setField "status" (JStr "pending") (ownProperties tc)).

(** A request to the remote capability and what comes back. *)
Record Request : Type := mkRequest {
  endpoint : string;
  authorization : string;
  model : string;
  systemMessage : string;
  userMessage : string
}.

Inductive FetchOutcome : Type :=
| FetchRejected (reason : string)
| FetchResponse (ok : bool) (statusText : string) (body : string).

Inductive ConsoleLevel : Type := LogLevel | WarnLevel | ErrorLevel.

Inductive Event : Type :=
| EvFetch (request : Request)
| EvConsole (level : ConsoleLevel) (text : string)
| EvCreateFolder (path : string)
| EvWriteFile (path : string) (content : string).

(** The collaborators of the service.  [openaiApiKey] is the field of the
    service at the time of the call and [openaiModel] the configured
    model; [fetch n request] is the answer to [request] when [n] requests
    were made before, so equal requests may get different answers;
    [JSON_parse] is [JSON.parse], with [None] for a SyntaxError;
    [workspaceFolder] is the URI of the first folder of the workspace.
    Writing a file and creating a folder succeed. *)
Record Host : Type := mkHost {
  openaiApiKey : option string;
  openaiModel : option string;
  fetch : nat -> Request -> FetchOutcome;
  JSON_parse : string -> option Json;
  workspaceFolder : option string
}.

(** Computations: a result or a thrown error, and the events so far. *)
Definition M (A : Type) : Type := list Event -> Result A * list Event.

Definition ret {A : Type} (a : A) : M A := fun t => (Ok a, t).

Definition throw {A : Type} (e : Error) : M A := fun t => (Throw e, t).

Definition bind {A B : Type} (m : M A) (f : A -> M B) : M B :=
  fun t =>
    match m t with
    | (Ok a, t') => f a t'
    | (Throw e, t') => (Throw e, t')
    end.

(** [try { m } catch (error) { handler }] *)
Definition try_catch {A : Type} (m : M A) (handler : Error -> M A) : M A :=
  fun t =>
    match m t with
    | (Ok a, t') => (Ok a, t')
    | (Throw e, t') => handler e t'
    end.

Definition emit (ev : Event) : M unit := fun t => (Ok tt, (t ++ [ev])%list).

Definition lift {A : Type} (r : Result A) : M A := fun t => (r, t).

Definition fetchCount (t : list Event) : nat :=
  length (filter (fun ev => match ev with EvFetch _ => true | _ => false end) t).

Declare Scope monad_scope.
Delimit Scope monad_scope with monad.
Notation "x <- c1 ;; c2" := (bind c1 (fun x => c2))
  (at level 61, c1 at next level, right associativity) : monad_scope.
Notation "c1 ;; c2" := (bind c1 (fun _ => c2))
  (at level 61, right associativity) : monad_scope.

(** Modelled from the spec: [URI.joinPath] and [fsPath] belong to the
    workbench base library, not to the service.  A URI is the text of its
    path, and joining puts a [/] before each part, which is the path
    convention [tests/<framework>/generated/<testCaseId>.<ext>]. *)
Definition joinPath (base : string) (parts : list string) : string :=
  fold_left (fun p part => p ++ "/" ++ part) parts base.

Definition fsPath (uri : string) : string := uri.

(** ** The service *)

Definition openaiEndpoint : string := "https://api.openai.com/v1/chat/completions".
Definition defaultModel : string := "gpt-4".

(** The URL-mode analysis, returned by [analyzePRD] and by
    [analyzePRDFallback]. *)
Definition urlModeAnalysis (testData : TestData) : IPRDAnalysis :=
  mkAnalysis
    ["Login Authentication"]
    ["As a user, I want to login to " ++ Js.show (url testData)]
    ["Valid credentials allow successful login";
     "Invalid credentials show appropriate error messages";
     "Empty fields show validation messages"]
    (generateLoginTestCasesForURL testData).

Definition analyzePRDFallback (prd : string) : IPRDAnalysis :=
  match urlBearing (parseTestDataFromPRD prd) with
  | Some testData => urlModeAnalysis testData
  | None =>
      mkAnalysis (extractFeatures prd) (extractUserStories prd)
        (extractAcceptanceCriteria prd) (generateTestCasesFallback prd)
  end.

(** What [analyzePRD] resolves to: an analysis built by the service, or
    the object parsed from the answer of the remote capability. *)
Inductive AnalysisOutcome : Type :=
| Analysis (a : IPRDAnalysis)
| RemoteAnalysis (j : Json).

Section Service.

Variable h : Host.

Local Open Scope monad_scope.

(** [await fetch(...)]: the request is recorded; a rejection throws. *)
Definition doFetch (request : Request) : M (bool * string * string) :=
  fun t =>
    match fetch h (fetchCount t) request with
    | FetchRejected reason => (Throw (FetchFailed reason), (t ++ [EvFetch request])%list)
    | FetchResponse ok statusText body =>
        (Ok (ok, statusText, body), (t ++ [EvFetch request])%list)
    end.

(** [JSON.parse(text)] and [response.json()] *)
Definition parseJson (text : string) : Result Json :=
  match JSON_parse h text with
  | Some j => Ok j
  | None => Throw SyntaxError
  end.

(** [data.choices[0].message.content] *)
Definition contentOf (data : Json) : Result (option Json) :=
  match getField (Some data) "choices" with
  | Throw e => Throw e
  | Ok choices =>
      match getFirst choices with
      | Throw e => Throw e
      | Ok first =>
          match getField first "message" with
          | Throw e => Throw e
          | Ok message => getField message "content"
          end
      end
  end.

Definition callOpenAIWithModel (prompt systemPrompt model : string) : M (option Json) :=
  if negb (Js.truthy (openaiApiKey h)) then throw ApiKeyNotConfigured
  else
    try_catch
      (response <- doFetch (mkRequest openaiEndpoint
                              ("Bearer " ++ Js.show (openaiApiKey h))
                              model systemPrompt prompt) ;;
       let '(ok, statusText, body) := response in
       if negb ok then
         let errorData := match JSON_parse h body with
                          | Some j => j
                          | None => JObj []
                          end in
         throw (ApiError statusText errorData)
       else
         data <- lift (parseJson body) ;;
         lift (contentOf data))
      (fun error =>
         emit (EvConsole ErrorLevel "OpenAI API call failed:") ;;
         throw error).

(** [getValue('cypressAssistant.openaiModel') || this.defaultModel] *)
Definition configuredModel : string :=
  if Js.truthy (openaiModel h) then Js.show (openaiModel h) else defaultModel.

(** The body of the [try] block of [analyzePRD]: the remote analysis. *)
Definition remoteAnalysis (prd : string) : M AnalysisOutcome :=
  response <- callOpenAIWithModel (analysisPrompt prd) analysisSystemPrompt
                configuredModel ;;
  analysis <- lift (parseJson (toStringValue response)) ;;
  testCases <- lift (getField (Some analysis) "testCases") ;;
  match testCases, analysis with
  | Some (JArr elements), JObj fields =>
      ret (RemoteAnalysis
             (JObj (setField "testCases" (JArr (map stampPending elements)) fields)))
  | _, _ => throw TypeError
  end.

Definition analyzePRD (prd : string) : M AnalysisOutcome :=
  match urlBearing (parseTestDataFromPRD prd) with
  | Some testData =>
      emit (EvConsole LogLevel "Detected URL-based test request:") ;;
      ret (Analysis (urlModeAnalysis testData))
  | None =>
      try_catch (remoteAnalysis prd)
        (fun error =>
           emit (EvConsole WarnLevel "OpenAI analysis failed, using fallback:") ;;
           ret (Analysis (analyzePRDFallback prd)))
  end.

(** [this.cleanGeneratedCode(code)] on the value the remote call
    resolved to: only a string has [replace]. *)
Definition cleanAnswer (code : option Json) : Result string :=
  match code with
  | Some (JStr s) => Ok (cleanGeneratedCode s)
  | _ => Throw TypeError
  end.

Definition generateCypressCode (testCase : ITestCase) : M string :=
  match urlBearing (testData testCase) with
  | Some testData => ret (generateCypressCodeForURL testCase testData)
  | None =>
      try_catch
        (code <- callOpenAIWithModel (cypressPrompt testCase) cypressSystemPrompt
                   configuredModel ;;
         lift (cleanAnswer code))
        (fun error =>
           emit (EvConsole WarnLevel "OpenAI code generation failed, using fallback:") ;;
           match urlBearing (testData testCase) with
           | Some testData => ret (generateCypressCodeForURL testCase testData)
           | None => ret (generateCypressCodeFallback testCase)
           end)
  end.

Definition generatePlaywrightCode (testCase : ITestCase) : M string :=
  match urlBearing (testData testCase) with
  | Some testData => ret (generatePlaywrightCodeForURL testCase testData)
  | None =>
      try_catch
        (code <- callOpenAIWithModel (playwrightPrompt testCase) playwrightSystemPrompt
                   configuredModel ;;
         lift (cleanAnswer code))
        (fun error =>
           emit (EvConsole WarnLevel "OpenAI code generation failed, using fallback:") ;;
           match urlBearing (testData testCase) with
           | Some testData => ret (generatePlaywrightCodeForURL testCase testData)
           | None => ret (generatePlaywrightCodeFallback testCase)
           end)
  end.

(** The [switch] of [saveTestFiles]: stored code when it is truthy,
    generated code otherwise, and the extension of the framework. *)
Definition codeAndExtension (framework : string) (testCase : ITestCase)
  : M (string * string) :=
  if String.eqb framework "cypress" then
    code <- (if Js.truthy (cypressCode testCase)
             then ret (Js.show (cypressCode testCase))
             else generateCypressCode testCase) ;;
    ret (code, ".cy.js")
  else if String.eqb framework "playwright" then
    code <- (if Js.truthy (playwrightCode testCase)
             then ret (Js.show (playwrightCode testCase))
             else generatePlaywrightCode testCase) ;;
    ret (code, ".spec.js")
  else
    code <- (if Js.truthy (cypressCode testCase)
             then ret (Js.show (cypressCode testCase))
             else generateCypressCode testCase) ;;
    ret (code, ".js").

(** The loop of [saveTestFiles] over the test cases; [files] is the
    array of the paths written so far. *)
Fixpoint saveLoop (testDir framework : string) (testCases : list ITestCase)
         (files : list string) : M (list string) :=
  match testCases with
  | [] => ret files
  | testCase :: rest =>
      ce <- codeAndExtension framework testCase ;;
      let filename := id testCase ++ snd ce in
      let fileUri := joinPath testDir [filename] in
      emit (EvWriteFile fileUri (fst ce)) ;;
      saveLoop testDir framework rest (files ++ [fsPath fileUri])%list
  end.

(** [file.split('/').pop()] inside a template. *)
Definition baseName (file : string) : string :=
  Js.show (Js.pop (Js.split_char "/" file)).

Definition suiteContent (framework : string) (testFiles : list string) : string :=
  if String.eqb framework "cypress" then
    Js.join Js.nl
      [ "// Auto-generated test suite";
        "describe('Automated Test Suite', () => {";
        Js.tabs 1 ++ Js.join (Js.nl ++ Js.tab)
                       (map (fun file => "require('./" ++ baseName file ++ "');") testFiles);
        "});" ]
  else if String.eqb framework "playwright" then
    Js.join Js.nl
      [ "// Auto-generated test suite";
        Js.join Js.nl (map (fun file => "import './" ++ baseName file ++ "';") testFiles) ]
  else EmptyString.

Definition suitePath (testDir framework : string) : string :=
  joinPath testDir
    ["test-suite." ++ (if String.eqb framework "cypress" then "cy" else "spec") ++ ".js"].

Definition createTestSuiteFile (testDir : string) (testFiles : list string)
           (framework : string) : M unit :=
  let content := suiteContent framework testFiles in
  if Js.truthy (Some content)
  then emit (EvWriteFile (suitePath testDir framework) content)
  else ret tt.

Definition saveTestFiles (testCases : list ITestCase) (framework : string)
  : M (list string) :=
  match workspaceFolder h with
  | None => throw NoWorkspaceFolder
  | Some root =>
      let testDir := joinPath root ["tests"; framework; "generated"] in
      emit (EvCreateFolder testDir) ;;
      files <- saveLoop testDir framework testCases [] ;;
      createTestSuiteFile testDir files framework ;;
      ret files
  end.

End Service.

(** The files written, in order, with their contents. *)
Definition written (t : list Event) : list (string * string) :=
  flat_map (fun ev => match ev with
                      | EvWriteFile path content => [(path, content)]
                      | _ => []
                      end) t.

(** ** Specification-side definitions and sample inputs *)

(** The scenario text of the specification. *)
Definition quickTestText : string :=
  "Test login for:" ++ Js.nl ++ "URL: https://example.com/login" ++ Js.nl
  ++ "Username: u" ++ Js.nl ++ "Password: p".

(** The test data of the scenario text. *)
Definition quickTestData : TestData :=
  mkTestData (Some "https://example.com/login") (Some "u") (Some "p").

(** A text with two URL lines, two password lines and two username lines. *)
Definition repeatedLinesText : string :=
  "URL: http://a.example" ++ Js.nl ++ "Password: one" ++ Js.nl
  ++ "URL: https://b.example/login" ++ Js.nl ++ "Username: x" ++ Js.nl
  ++ "Password: two" ++ Js.nl ++ "Username: y".

(** Keyword mode as the specification words it: the domains are login,
    cart and search, each found by its own keyword. *)
Definition keywordCasesOfSpec (prd : string) : list ITestCase :=
  let lower := Js.toLowerCase prd in
  let found :=
    ((if Js.includes "login" lower then generateLoginTestCases else [])
     ++ (if Js.includes "cart" lower then generateCartTestCases else [])
     ++ (if Js.includes "search" lower then generateSearchTestCases else []))%list in
  if Js.includes "login" lower || Js.includes "cart" lower || Js.includes "search" lower
  then found else [generateGenericTestCase].

(** The first occurrences of the elements of a list, in order: the head,
    then the first occurrences of the tail that differ from the head. *)
Fixpoint firstOccurrences (l : list string) : list string :=
  match l with
  | [] => []
  | x :: xs => x :: filter (fun y => negb (String.eqb y x)) (firstOccurrences xs)
  end.

(** The request of the remote analysis. *)
Definition analysisRequest (h : Host) (prd : string) : Request :=
  mkRequest openaiEndpoint ("Bearer " ++ Js.show (openaiApiKey h))
    (configuredModel h) analysisSystemPrompt (analysisPrompt prd).

(** The answer as the remote path decodes it: the body is parsed, the
    content of the first choice is read, and the content is parsed. *)
Definition decodedAnswer (h : Host) (body : string) : Result Json :=
  match parseJson h body with
  | Throw e => Throw e
  | Ok data =>
      match contentOf data with
      | Throw e => Throw e
      | Ok content => parseJson h (toStringValue content)
      end
  end.

Definition isArray (v : option Json) : bool :=
  match v with
  | Some (JArr _) => true
  | _ => false
  end.

(** The expected shape of the answer: the object of the system prompt and
    of [IPRDAnalysis], with its four arrays. *)
Definition hasAnalysisShape (j : Json) : bool :=
  match j with
  | JObj fields =>
      isArray (lookup "features" fields) && isArray (lookup "userStories" fields)
      && isArray (lookup "acceptanceCriteria" fields) && isArray (lookup "testCases" fields)
  | _ => false
  end.

(** When the remote path fails, as the specification words it: no
    credential, no successful answer of the transport, or an answer that is
    not JSON of the expected shape.  [n] is the number of requests made
    before. *)
Definition remoteFailsOfSpec (h : Host) (n : nat) (prd : string) : Prop :=
  Js.truthy (openaiApiKey h) = false
  \/ match fetch h n (analysisRequest h prd) with
     | FetchRejected _ => True
     | FetchResponse ok _ body =>
         ok = false
         \/ match decodedAnswer h body with
            | Ok j => hasAnalysisShape j = false
            | Throw _ => True
            end
     end.

(** When the remote path fails, as the code has it: of the shape only
    the array [testCases] is asked for. *)
Definition remoteFails (h : Host) (n : nat) (prd : string) : Prop :=
  Js.truthy (openaiApiKey h) = false
  \/ match fetch h n (analysisRequest h prd) with
     | FetchRejected _ => True
     | FetchResponse ok _ body =>
         ok = false
         \/ match decodedAnswer h body with
            | Ok (JObj fields) => isArray (lookup "testCases" fields) = false
            | Ok _ => True
            | Throw _ => True
            end
     end.

(** A host without credential, and a host whose remote capability answers
    every request with an object that has the array [testCases] and
    nothing else.  [JSON_parse] is given on the two texts that are
    parsed. *)
Definition offlineHost : Host :=
  mkHost None None (fun _ _ => FetchRejected "offline") (fun _ => None) (Some "/ws").

Definition thinContent : string :=
  "{" ++ Js.dq ++ "testCases" ++ Js.dq ++ ":[]}".

Definition thinBody : string :=
  "{" ++ Js.dq ++ "choices" ++ Js.dq ++ ":[{" ++ Js.dq ++ "message" ++ Js.dq ++ ":{"
  ++ Js.dq ++ "content" ++ Js.dq ++ ":" ++ Js.dq
  ++ "{\" ++ Js.dq ++ "testCases\" ++ Js.dq ++ ":[]}" ++ Js.dq ++ "}}]}".

Definition thinHost : Host :=
  mkHost (Some "sk-test") None
    (fun _ _ => FetchResponse true "OK" thinBody)
    (fun text =>
       if String.eqb text thinBody then
         Some (JObj [("choices",
                      JArr [JObj [("message", JObj [("content", JStr thinContent)])]])])
       else if String.eqb text thinContent then
         Some (JObj [("testCases", JArr [])])
       else None)
    (Some "/ws").

(** A host whose remote capability answers with a feature and one test
    case that carries the status passed. *)
Definition quoted (s : string) : string := Js.dq ++ s ++ Js.dq.

Definition quotedInside (s : string) : string := "\" ++ Js.dq ++ s ++ "\" ++ Js.dq.

Definition reportContent : string :=
  "{" ++ quoted "features" ++ ":[" ++ quoted "Export" ++ "],"
  ++ quoted "testCases" ++ ":[{" ++ quoted "id" ++ ":" ++ quoted "r1" ++ ","
  ++ quoted "status" ++ ":" ++ quoted "passed" ++ "}]}".

Definition reportBody : string :=
  "{" ++ quoted "choices" ++ ":[{" ++ quoted "message" ++ ":{" ++ quoted "content" ++ ":"
  ++ Js.dq
  ++ "{" ++ quotedInside "features" ++ ":[" ++ quotedInside "Export" ++ "],"
  ++ quotedInside "testCases" ++ ":[{" ++ quotedInside "id" ++ ":" ++ quotedInside "r1"
  ++ "," ++ quotedInside "status" ++ ":" ++ quotedInside "passed" ++ "}]}"
  ++ Js.dq ++ "}}]}".

Definition reportCase : Json := JObj [("id", JStr "r1"); ("status", JStr "passed")].

Definition reportAnswer : list (string * Json) :=
  [("features", JArr [JStr "Export"]); ("testCases", JArr [reportCase])].

Definition reportHost : Host :=
  mkHost (Some "sk-test") None
    (fun _ _ => FetchResponse true "OK" reportBody)
    (fun text =>
       if String.eqb text reportBody then
         Some (JObj [("choices",
                      JArr [JObj [("message", JObj [("content", JStr reportContent)])]])])
       else if String.eqb text reportContent then Some (JObj reportAnswer)
       else None)
    (Some "/ws").

(** ** The labelled values of a text, said without the patterns *)

(** No white space character starts inside [w], read in the text
    [w ++ r]. *)
Fixpoint no_space_in (w r : string) : bool :=
  match w with
  | EmptyString => true
  | String _ w' => (Js.space_len (w ++ r) =? 0) && no_space_in w' r
  end.

(** No white space in a text. *)
Definition no_space (s : string) : bool := no_space_in s EmptyString.

(** A token: at least one character, none of them white space. *)
Definition token (u : string) : bool := negb (String.eqb u EmptyString) && no_space u.

(** A text that is empty or starts with white space: what may follow a
    token. *)
Definition ends_token (rest : string) : bool :=
  match rest with
  | EmptyString => true
  | String _ _ => 0 <? Js.space_len rest
  end.

(** A text with its ASCII letters in upper case: what the [i] flag
    compares. *)
Fixpoint upperAscii (s : string) : string :=
  match s with
  | EmptyString => EmptyString
  | String c s' => String (Js.upper_char c) (upperAscii s')
  end.

(** Two texts that differ in the case of their ASCII letters only. *)
Definition sameLetters (a b : string) : bool :=
  String.eqb (upperAscii a) (upperAscii b).

(** The text [s] starts with the label, in any case, then white space or
    none, then the token [u], which ends where [rest] begins. *)
Definition TokenAt (label s u rest : string) : Prop :=
  exists l ws,
    s = l ++ ws ++ u ++ rest
    /\ sameLetters l label = true /\ Js.white ws = true
    /\ token u = true /\ ends_token rest = true.

(** A token that is a URL: [http://] or [https://], in any case, and at
    least one more character. *)
Definition isHttpUrl (u : string) : Prop :=
  exists scheme body,
    u = scheme ++ "://" ++ body /\ body <> EmptyString
    /\ sameLetters scheme "http" || sameLetters scheme "https" = true.

Definition UrlAt (s u rest : string) : Prop :=
  TokenAt "URL:" s u rest /\ isHttpUrl u.

Definition UsernameAt : string -> string -> string -> Prop := TokenAt "Username:".

Definition PasswordAt : string -> string -> string -> Prop := TokenAt "Password:".

(** The first place of a line where a labelled value stands, and a line
    without any. *)
Definition FirstAt (At : string -> string -> string -> Prop) (line u : string) : Prop :=
  exists a s rest,
    line = a ++ s /\ At s u rest
    /\ forall a' s' u' rest',
         line = a' ++ s' -> String.length a' < String.length a -> ~ At s' u' rest'.

Definition NoneAt (At : string -> string -> string -> Prop) (line : string) : Prop :=
  forall a s u rest, line = a ++ s -> ~ At s u rest.

(** A line: a text without a line feed. *)
Definition isLine (l : string) : bool := negb (Js.includes Js.nl l).

(** [w], read in the text [w ++ r], is a sequence of characters of the
    class, of which the first [skip] bytes are already accepted. *)
Fixpoint run_from (icase : bool) (cl : cclass) (skip : nat) (w r : string) : bool :=
  match w with
  | EmptyString => skip =? 0
  | String _ w' =>
      match skip with
      | S n => run_from icase cl n w' r
      | 0 =>
          match class_len icase cl (w ++ r) with
          | S n => run_from icase cl n w' r
          | 0 => false
          end
      end
  end.

(** The first [n] bytes of a text are continuation bytes. *)
Fixpoint conts (n : nat) (s : string) : bool :=
  match n with
  | 0 => true
  | S n' =>
      match s with
      | String c s' => Js.is_cont c && conts n' s'
      | EmptyString => false
      end
  end.

(** An ASCII character that is not white space, and a text of such
    characters. *)
Definition plain_char (c : ascii) : bool :=
  (Js.code c <? 128) && negb (Js.space1 (Js.code c)).

Fixpoint plain (s : string) : bool :=
  match s with
  | EmptyString => true
  | String c s' => plain_char c && plain s'
  end.

(** What follows a token does not start with a continuation byte. *)
Definition starts_clean (r : string) : Prop :=
  match r with
  | EmptyString => True
  | String c _ => Js.is_cont c = false
  end.

(** The code point [p] is recognised as white space exactly when it is
    one of the list; [space_scan n] tests the code points below [n]. *)
Definition space_test (p : N) : bool :=
  Bool.eqb (0 <? Js.space_len (Js.utf8 p)) (existsb (N.eqb p) Js.whiteSpacePoints).

Definition space_scan (n : N) : N * bool :=
  N.iter n (fun st => (N.succ (fst st), snd st && space_test (fst st))) (0%N, true).

(** The extension of the files of a framework, and the path of the file
    of a test case under the workspace folder [root]. *)
Definition extensionOf (framework : string) : string :=
  if String.eqb framework "cypress" then ".cy.js"
  else if String.eqb framework "playwright" then ".spec.js"
  else ".js".

Definition testDirOf (root framework : string) : string :=
  joinPath root ["tests"; framework; "generated"].

Definition testFilePath (root framework : string) (testCase : ITestCase) : string :=
  joinPath (testDirOf root framework) [id testCase ++ extensionOf framework].

(** The frameworks for which [createTestSuiteFile] has a suite. *)
Definition hasSuite (framework : string) : bool :=
  String.eqb framework "cypress" || String.eqb framework "playwright".

(** The names handed to [URI.joinPath] under the directory of the
    framework: [`${testCase.id}${extension}`] for the file of a test case,
    [`test-suite.${framework === 'cypress' ? 'cy' : 'spec'}.js`] for the
    suite. *)
Definition fileNameOf (framework : string) (testCase : ITestCase) : string :=
  id testCase ++ extensionOf framework.

Definition suiteFileName (framework : string) : string :=
  "test-suite." ++ (if String.eqb framework "cypress" then "cy" else "spec") ++ ".js".

(** A computation that writes no file. *)
Definition quiet {A : Type} (m : M A) : Prop :=
  forall t, written (snd (m t)) = written t.

(** A computation that does not throw. *)
Definition returns {A : Type} (m : M A) : Prop :=
  forall t, exists a, fst (m t) = Ok a.

(** Two test cases that carry their code. *)
Definition storedCases : list ITestCase :=
  [ mkTestCase "t1" "First" "first case" [] "ok" (Some "cy.visit('/a');") None
      (Some generated) None;
    mkTestCase "t2" "Second" "second case" [] "ok" (Some "cy.visit('/b');") None
      (Some generated) None ].

(** The number of backticks a text starts with. *)
Fixpoint leadingBackticks (s : string) : nat :=
  match s with
  | String c s' => if Ascii.eqb c "`" then S (leadingBackticks s') else 0
  | EmptyString => 0
  end.

(** Texts that repeat a feature line, a user story and a criterion. *)
Definition repeatedFeatureText : string :=
  "Features: checkout in one page" ++ Js.nl ++ "Requirements: checkout in one page".

Definition repeatedStoryText : string :=
  "As a user, I want to pay. As a user, I want to pay.".

Definition repeatedCriterionText : string :=
  "The page must be fast" ++ Js.nl ++ "The cart must be fast".

(** A step is recognised by the translators' keywords. *)
Definition step_keyword (step : string) : bool :=
  let l := Js.toLowerCase step in
  Js.includes "navigate" l || Js.includes "go to" l || Js.includes "click" l
  || Js.includes "enter" l || Js.includes "type" l || Js.includes "select" l
  || Js.includes "verify" l || Js.includes "check" l.

(** ** ExecutionOrchestrator *)

(** [options: { headed?: boolean; browser?: string }]; [headed] is only
    tested for truthiness, so an absent [headed] is [false]. *)
Record ExecutionOptions : Type := mkOptions {
  headed : bool;
  browser : option string
}.

(** The first command of every list: the dependency check. *)
Definition dependencyCheck (framework : string) : string :=
  "npm list " ++ framework ++ " || npm install " ++ framework ++ " --save-dev".

Definition getExecutionCommands (framework : string) (testFiles : list string)
           (options : ExecutionOptions) : list string :=
  let commands := [dependencyCheck framework] in
  if String.eqb framework "cypress" then
    if headed options then
      (commands ++ ["npx cypress open"])%list
    else
      let run := "npx cypress run --spec " ++ Js.dq ++ Js.join "," testFiles ++ Js.dq
                 ++ " --record --video" in
      (commands ++ [run])%list
  else if String.eqb framework "playwright" then
    let commands := (commands ++ ["npx playwright install"])%list in
    let browserArg := if Js.truthy (browser options)
                      then "--browser=" ++ Js.show (browser options)
                      else "--browser=chromium" in
    let headedArg := if headed options then "--headed --slow-mo=100" else EmptyString in
    if headed options then
      let run := "npx playwright test " ++ Js.join " " testFiles ++ " --ui" in
      (commands ++ [run])%list
    else
      let run := "npx playwright test " ++ Js.join " " testFiles ++ " " ++ browserArg
                 ++ " " ++ headedArg ++ " --reporter=html" in
      (commands ++ [run])%list
  else if String.eqb framework "puppeteer" then
    let run := "node " ++ Js.show (hd_error testFiles) in
    (commands ++ ["npm list puppeteer || npm install puppeteer --save-dev"; run])%list
  else commands.

(** The default [cypress.config.js] of [openCypressTestRunner]. *)
Definition defaultConfig : string :=
  Js.join Js.nl
    [ "const { defineConfig } = require('cypress');";
      "";
      "module.exports = defineConfig({";
      "  e2e: {";
      "    baseUrl: 'http://localhost:3000',";
      "    supportFile: false,";
      "    specPattern: 'tests/cypress/**/*.cy.{js,jsx,ts,tsx}',";
      "    videosFolder: 'tests/cypress/videos',";
      "    screenshotsFolder: 'tests/cypress/screenshots',";
      "    viewportWidth: 1280,";
      "    viewportHeight: 720,";
      "    video: true,";
      "    screenshotOnRunFailure: true,";
      "    chromeWebSecurity: false,";
      "    defaultCommandTimeout: 10000,";
      "    pageLoadTimeout: 30000,";
      "    requestTimeout: 10000,";
      "    responseTimeout: 10000,";
      "    experimentalStudio: true,  // Enable Cypress Studio for recording";
      "  },";
      "});" ].

(** What an execution does besides the events of the service: it asks
    whether a file exists and drives a terminal. *)
Inductive ExecEvent : Type :=
| EvService (ev : Event)
| EvExists (path : string)              (* fileService.exists(path) *)
| EvCreateTerminal (cwd : string)       (* terminalService.createTerminal({ cwd }) *)
| EvProcessReady                        (* await terminal.processReady *)
| EvSendText (text : string)            (* terminal.sendText(text, true) *)
| EvDelay (ms : nat)                    (* await this.delay(ms) *)
| EvFocus.                              (* terminal.focus() *)

Definition X (A : Type) : Type := list ExecEvent -> Result A * list ExecEvent.

Definition retX {A : Type} (a : A) : X A := fun t => (Ok a, t).

Definition throwX {A : Type} (e : Error) : X A := fun t => (Throw e, t).

Definition bindX {A B : Type} (m : X A) (f : A -> X B) : X B :=
  fun t =>
    match m t with
    | (Ok a, t') => f a t'
    | (Throw e, t') => (Throw e, t')
    end.

Definition emitX (ev : ExecEvent) : X unit := fun t => (Ok tt, (t ++ [ev])%list).

(** The events of the service among the events of an execution. *)
Definition serviceEvents (t : list ExecEvent) : list Event :=
  flat_map (fun ev => match ev with EvService e => [e] | _ => [] end) t.

(** A computation of the service inside an execution: it runs on the
    events of the service so far, and what it adds is added. *)
Definition service {A : Type} (m : M A) : X A :=
  fun t =>
    let past := serviceEvents t in
    match m past with
    | (r, t') => (r, (t ++ map EvService (skipn (length past) t'))%list)
    end.

Declare Scope exec_scope.
Delimit Scope exec_scope with exec.
Notation "x <- c1 ;; c2" := (bindX c1 (fun x => c2))
  (at level 61, c1 at next level, right associativity) : exec_scope.
Notation "c1 ;; c2" := (bindX c1 (fun _ => c2))
  (at level 61, right associativity) : exec_scope.

Section Execution.

Variable h : Host.

(** [fileService.exists]: the answer of the file system. *)
Variable fileExists : string -> bool.

Local Open Scope exec_scope.

Definition configPathOf (root : string) : string := joinPath root ["cypress.config.js"].

Definition openCypressTestRunner : X unit :=
  match workspaceFolder h with
  | None => retX tt
  | Some root =>
      let configPath := configPathOf root in
      emitX (EvExists configPath) ;;
      if negb (fileExists configPath)
      then emitX (EvService (EvWriteFile configPath defaultConfig))
      else retX tt
  end.

(** The loop that sends the commands, a pause of one second after each. *)
Fixpoint sendCommands (commands : list string) : X unit :=
  match commands with
  | [] => retX tt
  | command :: rest =>
      emitX (EvSendText command) ;;
      emitX (EvDelay 1000) ;;
      sendCommands rest
  end.

Definition executeTests (testCases : list ITestCase) (framework : string)
           (options : ExecutionOptions) : X unit :=
  testFiles <- service (saveTestFiles h testCases framework) ;;
  match workspaceFolder h with
  | None => throwX NoWorkspaceFolder
  | Some root =>
      emitX (EvCreateTerminal root) ;;
      emitX EvProcessReady ;;
      sendCommands (getExecutionCommands framework testFiles options) ;;
      emitX EvFocus ;;
      if String.eqb framework "cypress" && headed options
      then openCypressTestRunner
      else retX tt
  end.

End Execution.

(** The texts sent to the terminal, in order. *)
Definition sent (t : list ExecEvent) : list string :=
  flat_map (fun ev => match ev with EvSendText text => [text] | _ => [] end) t.

(** ** The credential *)

(** [setApiKey]: the field of the service is replaced. *)
Definition setApiKey (apiKey : string) (h : Host) : Host :=
  mkHost (Some apiKey) (openaiModel h) (fetch h) (JSON_parse h) (workspaceFolder h).

(** [getApiKey]: the field when it is truthy, else the value of the
    setting [cypressAssistant.openaiApiKey], given as [configured]
    ([undefined] also when there is no configuration service). *)
Definition getApiKey (h : Host) (configured : option string) : option string :=
  if Js.truthy (openaiApiKey h) then openaiApiKey h else configured.

(** [callOpenAI], the legacy entry: the model is read from the settings. *)
Definition callOpenAI (h : Host) (prompt systemPrompt : string) : M (option Json) :=
  callOpenAIWithModel h prompt systemPrompt (configuredModel h).

(** ** The panel: the callers of the service *)

(** [testCase.cypressCode = code; testCase.status = 'generated'] *)
Definition withGeneratedCode (code : string) (testCase : ITestCase) : ITestCase :=
  mkTestCase (id testCase) (name testCase) (description testCase) (steps testCase)
    (expectedResult testCase) (Some code) (playwrightCode testCase) (Some generated)
    (testData testCase).

(** The loop of the handler of Generate All: a case without code gets
    code and the status generated, one case after the other; a failure of
    the generator ends the loop. *)
Fixpoint generateAll (h : Host) (testCases : list ITestCase) : M (list ITestCase) :=
  match testCases with
  | [] => ret []
  | testCase :: rest =>
      bind (if negb (Js.truthy (cypressCode testCase))
            then bind (generateCypressCode h testCase)
                   (fun code => ret (withGeneratedCode code testCase))
            else ret testCase)
        (fun testCase' =>
           bind (generateAll h rest) (fun rest' => ret (testCase' :: rest')))
  end.

(** The test cases the service makes itself: those of the local analysis
    of a text, as they are or with the code a generator gave them. *)
Definition synthesized (testCase : ITestCase) : Prop :=
  exists prd, In testCase (testCases (analyzePRDFallback prd)).

Definition fromService (testCase : ITestCase) : Prop :=
  synthesized testCase
  \/ exists code testCase0,
       synthesized testCase0 /\ testCase = withGeneratedCode code testCase0.

(** What [runTests] tells the user. *)
Inductive RunNotice : Type :=
| NoTestsToRun             (* warn('No tests to run') *)
| GenerateCodeFirst        (* warn('Please generate test code first') *)
| TestsStarted             (* info('Tests started in terminal') *)
| RunFailed (e : Error).   (* error(`Failed: ${error.message}`) *)

(** [runTests(framework)] of the panel, on the current analysis. *)
Definition runTests (h : Host) (fileExists : string -> bool)
           (currentAnalysis : option IPRDAnalysis) (framework : string) : X RunNotice :=
  match currentAnalysis with
  | None => retX NoTestsToRun
  | Some analysis =>
      if length (testCases analysis) =? 0 then retX NoTestsToRun
      else
        let testsWithCode := filter (fun tc => Js.truthy (cypressCode tc))
                               (testCases analysis) in
        if length testsWithCode =? 0 then retX GenerateCodeFirst
        else
          fun t =>
            match executeTests h fileExists testsWithCode framework
                    (mkOptions false None) t with
            | (Ok _, t') => (Ok TestsStarted, t')
            | (Throw e, t') => (Ok (RunFailed e), t')
            end
  end.

(** The code [saveTestFiles] looks for in a test case: the Playwright
    code for playwright, the Cypress code for every other framework. *)
Definition storedCode (framework : string) (testCase : ITestCase) : option string :=
  if String.eqb framework "playwright" then playwrightCode testCase
  else cypressCode testCase.

(** The events of sending the commands: each text, then the pause. *)
Definition sendEvents (commands : list string) : list ExecEvent :=
  flat_map (fun command => [EvSendText command; EvDelay 1000]) commands.

(** A host with no folder open, no key and no network. *)
Definition noWorkspaceHost : Host :=
  mkHost None None (fun _ _ => FetchRejected "offline") (fun _ => None) None.

(** The URL template of a framework, as [saveTestFiles] chooses it. *)
Definition urlCode (framework : string) (testCase : ITestCase) (testData : TestData)
  : string :=
  if String.eqb framework "playwright"
  then generatePlaywrightCodeForURL testCase testData
  else generateCypressCodeForURL testCase testData.

(** The keywords of the Playwright translator: those of the Cypress
    translator but [select]. *)
Definition playwright_keyword (step : string) : bool :=
  let l := Js.toLowerCase step in
  Js.includes "navigate" l || Js.includes "go to" l || Js.includes "click" l
  || Js.includes "enter" l || Js.includes "type" l
  || Js.includes "verify" l || Js.includes "check" l.

(** The cases the keyword mode draws from. *)
Definition cannedCases : list ITestCase :=
  (generateLoginTestCases ++ generateCartTestCases ++ generateSearchTestCases
   ++ [generateGenericTestCase])%list.

(** * Properties *)

(** ** Texts *)

Lemma append_nil_r (s : string) : s ++ EmptyString = s.
Proof. induction s as [|c s IH]; simpl; [|rewrite IH]; reflexivity. Qed.

Lemma append_assoc (a b c : string) : (a ++ b) ++ c = a ++ b ++ c.
Proof. induction a as [|x a IH]; simpl; [|rewrite IH]; reflexivity. Qed.

Lemma length_append (a b : string) :
  String.length (a ++ b) = String.length a + String.length b.
Proof. induction a as [|c a IH]; simpl; [|rewrite IH]; reflexivity. Qed.


Lemma prefix_empty (s : string) : String.prefix EmptyString s = true.
Proof. destruct s; reflexivity. Qed.

Lemma prefix_cons_eqb (a b : ascii) (p s : string) :
  String.prefix (String a p) (String b s) = Ascii.eqb a b && String.prefix p s.
Proof.
  change (String.prefix (String a p) (String b s))
    with (if ascii_dec a b then String.prefix p s else false).
  destruct (ascii_dec a b), (Ascii.eqb_spec a b); try congruence; reflexivity.
Qed.

Lemma includes_cons (p : string) (c : ascii) (s : string) :
  Js.includes p (String c s) = String.prefix p (String c s) || Js.includes p s.
Proof. reflexivity. Qed.

Lemma drop_length (n : nat) (s : string) :
  String.length (Js.drop n s) = String.length s - n.
Proof.
  revert s. induction n as [|n IH]; intros s; [simpl; lia|].
  destruct s as [|c s]; [reflexivity|]. simpl. apply IH.
Qed.

Lemma drop_split (n : nat) (s : string) :
  n <= String.length s -> exists w, s = w ++ Js.drop n s /\ String.length w = n.
Proof.
  revert s. induction n as [|n IH]; intros s H.
  - exists EmptyString. auto.
  - destruct s as [|c s]; [simpl in H; lia|].
    destruct (IH s) as (w & Hs & Hl); [simpl in H; lia|].
    exists (String c w). simpl. rewrite <- Hs, Hl. auto.
Qed.

Lemma drop_app (w r : string) : Js.drop (String.length w) (w ++ r) = r.
Proof. induction w as [|c w IH]; [destruct r; reflexivity | exact IH]. Qed.

(** ** Characters and white space *)

Ltac boolnat :=
  repeat match goal with
         | H : (_ && _) = true |- _ => apply andb_true_iff in H; destruct H
         | H : (_ || _) = false |- _ => apply orb_false_iff in H; destruct H
         | H : negb _ = true |- _ => apply negb_true_iff in H
         | H : negb _ = false |- _ => apply negb_false_iff in H
         | H : (_ <=? _) = true |- _ => apply Nat.leb_le in H
         | H : (_ <=? _) = false |- _ => apply Nat.leb_gt in H
         | H : (_ <? _) = true |- _ => apply Nat.ltb_lt in H
         | H : (_ <? _) = false |- _ => apply Nat.ltb_ge in H
         | H : (_ =? _) = true |- _ => apply Nat.eqb_eq in H
         | H : (_ =? _) = false |- _ => apply Nat.eqb_neq in H
         end.

Lemma space1_spec (x : nat) : Js.space1 x = true -> x <= 32.
Proof.
  unfold Js.space1. intros H. apply orb_true_iff in H.
  destruct H as [H | H]; boolnat; lia.
Qed.

Lemma space2_spec (x y : nat) : Js.space2 x y = true -> x = 194 /\ y = 160.
Proof. unfold Js.space2. intros H. boolnat. auto. Qed.

Ltac boolcases :=
  repeat (boolnat;
          match goal with
          | H : (_ || _) = true |- _ => apply orb_true_iff in H; destruct H
          end);
  boolnat.

Lemma space3_spec (x y z : nat) :
  Js.space3 x y z = true ->
  224 <= x < 240 /\ 128 <= y <= 191 /\ 128 <= z <= 191.
Proof. unfold Js.space3. intros H. boolcases; lia. Qed.

Lemma is_cont_spec (c : ascii) : Js.is_cont c = true <-> 128 <= Js.code c <= 191.
Proof.
  unfold Js.is_cont. cbv zeta. rewrite andb_true_iff, !Nat.leb_le. tauto.
Qed.

Lemma expected_cont_small (c : ascii) : Js.code c < 192 -> Js.expected_cont c = 0.
Proof.
  intros H. unfold Js.expected_cont. cbv zeta.
  destruct (Js.code c <? 192) eqn:E; [reflexivity | boolnat; lia].
Qed.

Lemma expected_cont_two (c : ascii) :
  192 <= Js.code c < 224 -> Js.expected_cont c = 1.
Proof.
  intros H. unfold Js.expected_cont. cbv zeta.
  destruct (Js.code c <? 192) eqn:E1; [boolnat; lia|].
  destruct (Js.code c <? 224) eqn:E2; [reflexivity | boolnat; lia].
Qed.

Lemma expected_cont_three (c : ascii) :
  224 <= Js.code c < 240 -> Js.expected_cont c = 2.
Proof.
  intros H. unfold Js.expected_cont. cbv zeta.
  destruct (Js.code c <? 192) eqn:E1; [boolnat; lia|].
  destruct (Js.code c <? 224) eqn:E2; [boolnat; lia|].
  destruct (Js.code c <? 240) eqn:E3; [reflexivity | boolnat; lia].
Qed.

Lemma cont_run_le (k : nat) (s : string) : Js.cont_run k s <= String.length s.
Proof.
  revert s. induction k as [|k IH]; intros s; [destruct s; simpl; lia|].
  destruct s as [|c s]; [simpl; lia|]. simpl.
  destruct (Js.is_cont c); [specialize (IH s)|]; lia.
Qed.

Lemma char_len_le (s : string) : Js.char_len s <= String.length s.
Proof.
  destruct s as [|c s]; [apply le_n|]. simpl.
  pose proof (cont_run_le (Js.expected_cont c) s). lia.
Qed.

Lemma cont_run_conts (k : nat) (s : string) : conts (Js.cont_run k s) s = true.
Proof.
  revert s. induction k as [|k IH]; intros s; [destruct s; reflexivity|].
  destruct s as [|c s]; [reflexivity|]. simpl.
  destruct (Js.is_cont c) eqn:E; [|reflexivity]. simpl. rewrite E. apply IH.
Qed.

Lemma char_len_conts (c : ascii) (s : string) (n : nat) :
  Js.char_len (String c s) = S n -> conts n s = true.
Proof. simpl. intros H. inversion H. apply cont_run_conts. Qed.

Lemma conts_cut (n : nat) (w r : string) :
  conts n (w ++ r) = true -> n <= String.length w -> conts n w = true.
Proof.
  revert w. induction n as [|n IH]; intros w H L; [reflexivity|].
  destruct w as [|c w]; [simpl in L; lia|]. simpl in *.
  apply andb_true_iff in H. destruct H as [Hc H]. rewrite Hc. apply IH; [exact H | lia].
Qed.

Lemma cont_run_app (k : nat) (w r : string) :
  starts_clean r -> Js.cont_run k (w ++ r) = Js.cont_run k w.
Proof.
  intros Hr. revert w. induction k as [|k IH]; intros w; [destruct w, r; reflexivity|].
  destruct w as [|c w].
  - destruct r as [|c r]; [reflexivity|]. simpl in *. rewrite Hr. reflexivity.
  - simpl. destruct (Js.is_cont c); [rewrite IH|]; reflexivity.
Qed.

Lemma char_len_app (c : ascii) (w r : string) :
  starts_clean r -> Js.char_len (String c w ++ r) = Js.char_len (String c w).
Proof. intros Hr. simpl. rewrite cont_run_app by exact Hr. reflexivity. Qed.

Ltac space_split :=
  repeat match goal with
         | H : context [if ?b then _ else _] |- _ => destruct b eqn:?
         | |- context [if ?b then _ else _] => destruct b eqn:?
         end.

Lemma space_len_le (s : string) : Js.space_len s <= String.length s.
Proof.
  destruct s as [|a [|b [|c s]]]; unfold Js.space_len; space_split; simpl; lia.
Qed.

(** A text that starts with white space still does when it goes on. *)
Lemma space_len_app (s r : string) (n : nat) :
  Js.space_len s = S n -> Js.space_len (s ++ r) = S n.
Proof.
  destruct s as [|a [|b [|c s]]]; unfold Js.space_len; cbn [append];
    intros H; space_split; try discriminate; try exact H;
    destruct r as [|x [|y r]]; space_split; congruence.
Qed.

(** White space at the head of a text lies in its first bytes. *)
Lemma space_len_cut (a r : string) (n : nat) :
  Js.space_len (a ++ r) = S n -> n < String.length a -> Js.space_len a = S n.
Proof.
  destruct a as [|x [|y [|z a]]]; cbn [append String.length]; intros H L.
  - lia.
  - assert (n = 0) by lia. subst n. unfold Js.space_len in *.
    destruct (Js.space1 (Js.code x)); [reflexivity|].
    destruct r as [|u [|v r]]; space_split; discriminate.
  - unfold Js.space_len in *.
    destruct (Js.space1 (Js.code x)); [exact H|].
    destruct (Js.space2 (Js.code x) (Js.code y)); [exact H|].
    destruct r as [|u r]; space_split; try discriminate. inversion H. lia.
  - exact H.
Qed.

Lemma space_len_cont (c : ascii) (s : string) :
  Js.is_cont c = true -> Js.space_len (String c s) = 0.
Proof.
  intros Hc. apply is_cont_spec in Hc. unfold Js.space_len.
  destruct (Js.space1 (Js.code c)) eqn:E1; [apply space1_spec in E1; lia|].
  destruct s as [|b s]; [reflexivity|].
  destruct (Js.space2 (Js.code c) (Js.code b)) eqn:E2; [apply space2_spec in E2; lia|].
  destruct s as [|d s]; [reflexivity|].
  destruct (Js.space3 (Js.code c) (Js.code b) (Js.code d)) eqn:E3;
    [apply space3_spec in E3; lia | reflexivity].
Qed.

(** A white space character is a whole character. *)
Lemma space_char_len (s : string) (n : nat) :
  Js.space_len s = S n -> Js.char_len s = S n.
Proof.
  destruct s as [|a s]; [discriminate|]. unfold Js.space_len, Js.char_len.
  destruct (Js.space1 (Js.code a)) eqn:E1.
  - intros H. inversion H. apply space1_spec in E1.
    rewrite expected_cont_small by lia. destruct s; reflexivity.
  - destruct s as [|b s]; [discriminate|].
    destruct (Js.space2 (Js.code a) (Js.code b)) eqn:E2.
    + intros H. inversion H. apply space2_spec in E2. destruct E2 as [Ha Hb].
      rewrite expected_cont_two by lia. simpl.
      assert (Hc : Js.is_cont b = true) by (apply is_cont_spec; lia).
      rewrite Hc. destruct s; reflexivity.
    + destruct s as [|c s]; [discriminate|].
      destruct (Js.space3 (Js.code a) (Js.code b) (Js.code c)) eqn:E3; [|discriminate].
      intros H. inversion H. apply space3_spec in E3. destruct E3 as (Ha & Hb & Hc).
      rewrite expected_cont_three by lia. simpl.
      assert (Hb' : Js.is_cont b = true) by (apply is_cont_spec; lia).
      assert (Hc' : Js.is_cont c = true) by (apply is_cont_spec; lia).
      rewrite Hb', Hc'. destruct s; reflexivity.
Qed.

Lemma space_len_starts_clean (r : string) : 0 < Js.space_len r -> starts_clean r.
Proof.
  destruct r as [|c r]; [exact (fun _ => I)|]. cbn [starts_clean]. intros H.
  destruct (Js.is_cont c) eqn:E; [|reflexivity].
  rewrite (space_len_cont c r E) in H. lia.
Qed.

(** A text that does not start with white space does not either when a
    text that starts a character is put after it. *)
Lemma space_len_app_zero (x r : string) :
  Js.space_len x = 0 -> x <> EmptyString -> starts_clean r ->
  Js.space_len (x ++ r) = 0.
Proof.
  intros H Hx Hr.
  destruct x as [|a [|b [|c x]]]; [congruence | | | exact H];
    unfold Js.space_len in *; cbn [append].
  - destruct (Js.space1 (Js.code a)); [discriminate|].
    destruct r as [|u r]; [reflexivity|]. simpl in Hr.
    destruct (Js.space2 (Js.code a) (Js.code u)) eqn:E2.
    + apply space2_spec in E2. destruct E2 as [_ E2].
      assert (Js.is_cont u = true) by (apply is_cont_spec; lia). congruence.
    + destruct r as [|v r]; [reflexivity|].
      destruct (Js.space3 (Js.code a) (Js.code u) (Js.code v)) eqn:E3; [|reflexivity].
      apply space3_spec in E3. destruct E3 as (_ & E3 & _).
      assert (Js.is_cont u = true) by (apply is_cont_spec; lia). congruence.
  - destruct (Js.space1 (Js.code a)); [discriminate|].
    destruct (Js.space2 (Js.code a) (Js.code b)); [discriminate|].
    destruct r as [|u r]; [reflexivity|]. simpl in Hr.
    destruct (Js.space3 (Js.code a) (Js.code b) (Js.code u)) eqn:E3; [|reflexivity].
    apply space3_spec in E3. destruct E3 as (_ & _ & E3).
    assert (Js.is_cont u = true) by (apply is_cont_spec; lia). congruence.
Qed.

Lemma plain_char_space (c : ascii) (s : string) :
  plain_char c = true -> Js.space_len (String c s) = 0.
Proof.
  unfold plain_char. intros H. boolnat. unfold Js.space_len. rewrite H0.
  destruct s as [|b s]; [reflexivity|].
  destruct (Js.space2 (Js.code c) (Js.code b)) eqn:E2; [apply space2_spec in E2; lia|].
  destruct s as [|d s]; [reflexivity|].
  destruct (Js.space3 (Js.code c) (Js.code b) (Js.code d)) eqn:E3;
    [apply space3_spec in E3; lia | reflexivity].
Qed.

Lemma plain_char_clean (c : ascii) : plain_char c = true -> Js.is_cont c = false.
Proof.
  unfold plain_char. intros H. boolnat.
  destruct (Js.is_cont c) eqn:E; [|reflexivity]. apply is_cont_spec in E. lia.
Qed.

(** Every white space character of the list is recognised, with its
    length. *)
Example white_space_points :
  map (fun p => Js.space_len (Js.utf8 p)) Js.whiteSpacePoints
  = map (fun p => String.length (Js.utf8 p)) Js.whiteSpacePoints.
Proof. vm_compute. reflexivity. Qed.

Lemma space_scan_spec (n : N) :
  fst (space_scan n) = n
  /\ (snd (space_scan n) = true -> forall p, (p < n)%N -> space_test p = true).
Proof.
  induction n as [|n [IH1 IH2]] using N.peano_ind.
  - split; [reflexivity|]. intros _ p H. lia.
  - unfold space_scan in *. rewrite N.iter_succ. cbn [fst snd]. rewrite IH1.
    split; [reflexivity|]. intros H p L.
    apply andb_true_iff in H. destruct H as [Hs Ht].
    destruct (N.eq_dec p n) as [->|Hne]; [exact Ht|].
    apply IH2; [exact Hs | lia].
Qed.

(** Over the Basic Multilingual Plane, the white space characters are
    those of the list and no other. *)
Example white_space_scan : space_scan 65536 = (65536%N, true).
Proof. vm_compute. reflexivity. Qed.

(** No character beyond it is white space. *)
Lemma astral_not_space (p : N) :
  (65536 <= p < 1114112)%N -> Js.space_len (Js.utf8 p) = 0.
Proof.
  intros H. unfold Js.utf8.
  destruct (N.ltb_spec p 128); [lia|].
  destruct (N.ltb_spec p 2048); [lia|].
  destruct (N.ltb_spec p 65536); [lia|].
  assert (Hq : (p / 262144 < 5)%N) by (apply N.Div0.div_lt_upper_bound; lia).
  remember (p / 262144)%N as q eqn:Eq. clear Eq.
  assert (Hc : (q = 0 \/ q = 1 \/ q = 2 \/ q = 3 \/ q = 4)%N) by lia.
  destruct Hc as [-> | [-> | [-> | [-> | ->]]]]; reflexivity.
Qed.

(** The characters recognised as white space are those of ECMAScript:
    a code point is white space exactly when it is in the list. *)
Lemma white_space_characters (p : N) :
  (p < 1114112)%N ->
  (0 < Js.space_len (Js.utf8 p) <-> In p Js.whiteSpacePoints).
Proof.
  intros H. destruct (N.lt_ge_cases p 65536) as [L | L].
  - pose proof (proj2 (space_scan_spec 65536)) as Hs.
    rewrite white_space_scan in Hs. specialize (Hs eq_refl p L).
    unfold space_test in Hs. apply Bool.eqb_prop in Hs.
    rewrite <- Nat.ltb_lt, Hs, existsb_exists. split.
    + intros (x & Hin & Hx). apply N.eqb_eq in Hx. subst x. exact Hin.
    + intros Hin. exists p. split; [exact Hin | apply N.eqb_refl].
  - rewrite (astral_not_space p (conj L H)). split; [lia|].
    intros Hin. exfalso. cbn [In Js.whiteSpacePoints] in Hin.
    repeat (destruct Hin as [Hin | Hin]; [lia|]). exact Hin.
Qed.

Lemma white_from_drop (n : nat) (s : string) :
  Js.white_from n s = Js.white (Js.drop n s).
Proof.
  revert s. induction n as [|n IH]; intros s; [reflexivity|].
  destruct s as [|c s]; [reflexivity|]. simpl. apply IH.
Qed.

Lemma white_app (a b : string) :
  forall skip, skip <= String.length a ->
    Js.white_from skip a = true -> Js.white b = true ->
    Js.white_from skip (a ++ b) = true.
Proof.
  induction a as [|c a IH]; intros skip L Ha Hb.
  - simpl in L. assert (skip = 0) by lia. subst. exact Hb.
  - destruct skip as [|n].
    + cbn [append Js.white_from] in *.
      destruct (Js.space_len (String c a)) as [|n] eqn:E; [discriminate|].
      change (String c (a ++ b)) with (String c a ++ b).
      rewrite (space_len_app _ b n E).
      pose proof (space_len_le (String c a)) as L'. rewrite E in L'. simpl in L'.
      apply IH; [lia | exact Ha | exact Hb].
    + cbn [append Js.white_from] in *. apply IH; [simpl in L; lia | exact Ha | exact Hb].
Qed.

Lemma no_space_in_weaken (w r : string) : no_space_in w r = true -> no_space w = true.
Proof.
  unfold no_space. induction w as [|c w IH]; [reflexivity|].
  cbn [no_space_in]. intros H. apply andb_true_iff in H. destruct H as [H1 H2].
  rewrite IH by exact H2. rewrite andb_true_r.
  apply Nat.eqb_eq in H1. apply Nat.eqb_eq.
  destruct (Js.space_len (String c w ++ EmptyString)) as [|n] eqn:E; [reflexivity|].
  rewrite append_nil_r in E. rewrite (space_len_app _ r n E) in H1. discriminate.
Qed.

Lemma no_space_in_app (w1 w2 r : string) :
  no_space_in w1 (w2 ++ r) = true -> no_space_in w2 r = true ->
  no_space_in (w1 ++ w2) r = true.
Proof.
  intros H1 H2. induction w1 as [|c w1 IH]; [exact H2|].
  cbn [append no_space_in] in *. apply andb_true_iff in H1. destruct H1 as [Ha Hb].
  rewrite IH by exact Hb. rewrite andb_true_r.
  change (String c (w1 ++ w2)) with (String c w1 ++ w2). rewrite append_assoc. exact Ha.
Qed.

Lemma no_space_in_plain (w r : string) : plain w = true -> no_space_in w r = true.
Proof.
  induction w as [|c w IH]; [reflexivity|]. cbn [plain no_space_in append].
  intros H. apply andb_true_iff in H. destruct H as [Hc Hw].
  rewrite (plain_char_space c _ Hc), IH by exact Hw. reflexivity.
Qed.

Lemma no_space_app_r (a b : string) : no_space (a ++ b) = true -> no_space b = true.
Proof.
  unfold no_space. induction a as [|c a IH]; [exact (fun H => H)|].
  cbn [append no_space_in]. intros H. apply andb_true_iff in H. apply IH, H.
Qed.

Lemma no_space_in_context (w r : string) :
  no_space w = true -> starts_clean r -> no_space_in w r = true.
Proof.
  unfold no_space. intros H Hr. induction w as [|c w IH]; [reflexivity|].
  cbn [no_space_in] in *. apply andb_true_iff in H. destruct H as [H1 H2].
  rewrite IH by exact H2. rewrite andb_true_r. apply Nat.eqb_eq.
  apply Nat.eqb_eq in H1. rewrite append_nil_r in H1.
  apply space_len_app_zero; [exact H1 | discriminate | exact Hr].
Qed.

(** ** The matcher *)

Lemma class_len_le (icase : bool) (cl : cclass) (s : string) :
  class_len icase cl s <= String.length s.
Proof.
  unfold class_len. destruct s as [|c s]; [apply le_n|].
  destruct (class_mem icase cl (String c s)); [apply char_len_le | apply le_0_n].
Qed.

Lemma class_len_char (icase : bool) (cl : cclass) (s : string) (n : nat) :
  class_len icase cl s = S n ->
  class_mem icase cl s = true /\ Js.char_len s = S n.
Proof.
  unfold class_len. destruct s as [|c s]; [discriminate|].
  destruct (class_mem icase cl (String c s)); [auto | discriminate].
Qed.

Lemma class_mem_space (icase : bool) (s : string) :
  class_mem icase space s = (0 <? Js.space_len s).
Proof. unfold class_mem. simpl. apply orb_false_r. Qed.

Lemma class_mem_not_space (icase : bool) (s : string) :
  class_mem icase not_space s = negb (0 <? Js.space_len s).
Proof. unfold class_mem. simpl. rewrite orb_false_r. reflexivity. Qed.

(** A token ends where the class of the characters that are not white
    space accepts nothing. *)
Lemma class_len_ends_token (icase : bool) (rest : string) :
  class_len icase not_space rest = 0 <-> ends_token rest = true.
Proof.
  unfold class_len, ends_token. destruct rest as [|c r]; [tauto|].
  rewrite class_mem_not_space.
  destruct (0 <? Js.space_len (String c r)); simpl; split; try tauto; discriminate.
Qed.

Section MatcherFacts.

Variable icase : bool.

Lemma star_inv (cl : cclass) (s : string) :
  forall skip k res,
    star_from icase cl skip s k = Some res ->
    exists s', k s' = Some res /\ String.length s' <= String.length s.
Proof.
  induction s as [|x s IH]; intros skip k res H.
  - exists EmptyString. auto.
  - cbn [star_from] in H. destruct skip as [|n].
    + destruct (class_len icase cl (String x s)) as [|n].
      * exists (String x s). auto.
      * destruct (star_from icase cl n s k) eqn:E.
        -- inversion H; subst. destruct (IH _ _ _ E) as (s' & Hk & L).
           exists s'. split; [exact Hk | simpl; lia].
        -- exists (String x s). auto.
    + destruct (IH _ _ _ H) as (s' & Hk & L). exists s'. split; [exact Hk | simpl; lia].
Qed.

(** A successful match hands its continuation a suffix that is shorter
    by at least [minlen r]. *)
Lemma rmatch_inv (r : regex) :
  forall s caps k res,
    rmatch icase r s caps k = Some res ->
    exists s' c', k s' c' = Some res /\ String.length s' + minlen r <= String.length s.
Proof.
  induction r as [ | c | cl | r1 IH1 r2 IH2 | r1 IH1 r2 IH2 | r1 IH1 | cl | cl | n r1 IH1 ];
    cbn [rmatch minlen]; intros s caps k res H.
  - exists s, caps. split; [assumption | lia].
  - destruct s as [|x s']; [discriminate|].
    destruct (Ascii.eqb _ _); [|discriminate].
    exists s', caps. simpl. split; [assumption | lia].
  - destruct (class_len icase cl s) as [|n] eqn:E; [discriminate|].
    exists (Js.drop (S n) s), caps. split; [assumption|].
    rewrite drop_length. pose proof (class_len_le icase cl s). lia.
  - apply IH1 in H. destruct H as (s1 & c1 & H & L1).
    apply IH2 in H. destruct H as (s2 & c2 & H & L2).
    exists s2, c2. split; [assumption | lia].
  - destruct (rmatch icase r1 s caps k) eqn:E.
    + inversion H; subst. apply IH1 in E. destruct E as (s1 & c1 & E & L).
      exists s1, c1. split; [assumption | lia].
    + apply IH2 in H. destruct H as (s2 & c2 & H & L).
      exists s2, c2. split; [assumption | lia].
  - destruct (rmatch icase r1 s caps k) eqn:E.
    + inversion H; subst. apply IH1 in E. destruct E as (s1 & c1 & E & L).
      exists s1, c1. split; [assumption | lia].
    + exists s, caps. split; [assumption | lia].
  - apply star_inv in H. destruct H as (s' & H & L).
    exists s', caps. split; [assumption | lia].
  - destruct (class_len icase cl s) as [|n] eqn:E; [discriminate|].
    destruct s as [|x s0]; [discriminate|].
    cbn [star_from] in H. apply star_inv in H. destruct H as (s'' & H & L).
    exists s'', caps. simpl. split; [assumption | lia].
  - apply IH1 in H. destruct H as (s' & c' & H & L).
    exists s', ((n, consumed s s') :: c'). split; [assumption | lia].
Qed.

(** A match found by [exec] is a match anchored at some position. *)
Lemma exec_inv (r : regex) (s : string) m caps :
  exec icase r s = Some (m, caps) ->
  exists s0 rest, match_here icase r s0 = Some (rest, caps).
Proof.
  induction s as [|x s IH]; simpl; intros H.
  - destruct (match_here icase r EmptyString) as [[rest c]|] eqn:E; [|discriminate].
    inversion H; subst. eauto.
  - destruct (match_here icase r (String x s)) as [[rest c]|] eqn:E.
    + inversion H; subst. eauto.
    + auto.
Qed.

(** [exec] returns the first anchored match, from left to right. *)
Lemma exec_first (r : regex) (a s rest : string) caps :
  match_here icase r s = Some (rest, caps) ->
  (forall a' s', a ++ s = a' ++ s' -> String.length a' < String.length a ->
                 match_here icase r s' = None) ->
  exec icase r (a ++ s) = Some (consumed s rest, caps).
Proof.
  intros Hs. induction a as [|c a IH]; intros Hn.
  - cbn [append]. destruct s as [|x s]; cbn [exec]; rewrite Hs; reflexivity.
  - cbn [append exec].
    rewrite (Hn EmptyString (String c (a ++ s)) eq_refl) by (simpl; lia).
    apply IH. intros a' s' E L.
    apply (Hn (String c a') s'); [simpl; rewrite E; reflexivity | simpl; lia].
Qed.

Lemma exec_split (r : regex) (line : string) m caps :
  exec icase r line = Some (m, caps) ->
  exists a s rest,
    line = a ++ s /\ match_here icase r s = Some (rest, caps)
    /\ forall a' s', line = a' ++ s' -> String.length a' < String.length a ->
                     match_here icase r s' = None.
Proof.
  induction line as [|x line IH]; cbn [exec]; intros H.
  - destruct (match_here icase r EmptyString) as [[rest c]|] eqn:E; [|discriminate].
    inversion H; subst. exists EmptyString, EmptyString, rest.
    repeat split; auto. intros a' s' _ L. simpl in L. lia.
  - destruct (match_here icase r (String x line)) as [[rest c]|] eqn:E.
    + inversion H; subst. exists EmptyString, (String x line), rest.
      repeat split; auto. intros a' s' _ L. simpl in L. lia.
    + destruct (IH H) as (a & s & rest & -> & Hm & Hn).
      exists (String x a), s, rest. repeat split; auto.
      intros a' s' E' L. destruct a' as [|y a'].
      * cbn [append] in E'. subst s'. exact E.
      * cbn [append] in E'. inversion E'; subst y.
        apply (Hn a' s'); [assumption | simpl in L; lia].
Qed.

Lemma exec_none (r : regex) (line : string) :
  exec icase r line = None <->
  forall a s, line = a ++ s -> match_here icase r s = None.
Proof.
  split.
  - induction line as [|x line IH]; cbn [exec]; intros H a s E.
    + destruct a, s; try discriminate.
      destruct (match_here icase r EmptyString) as [[rest c]|]; [discriminate|reflexivity].
    + destruct (match_here icase r (String x line)) as [[rest c]|] eqn:Em; [discriminate|].
      destruct a as [|y a]; cbn [append] in E.
      * subst s. exact Em.
      * inversion E; subst. apply (IH H a s eq_refl).
  - induction line as [|x line IH]; cbn [exec]; intros H.
    + rewrite (H EmptyString EmptyString eq_refl). reflexivity.
    + rewrite (H EmptyString (String x line) eq_refl).
      apply IH. intros a s E. apply (H (String x a) s). simpl. rewrite E. reflexivity.
Qed.

Lemma star_total (cl : cclass) (s : string) :
  forall skip k, (forall x, k x <> None) -> star_from icase cl skip s k <> None.
Proof.
  induction s as [|x s IH]; intros skip k Hk; [apply Hk|].
  cbn [star_from]. destruct skip as [|n]; [|apply IH, Hk].
  destruct (class_len icase cl (String x s)); [apply Hk|].
  destruct (star_from icase cl n s k) eqn:E; [discriminate|].
  exfalso. exact (IH n k Hk E).
Qed.

Lemma run_from_skip_le (cl : cclass) (w r : string) :
  forall skip, run_from icase cl skip w r = true -> skip <= String.length w.
Proof.
  induction w as [|c w IH]; intros skip H.
  - simpl in H. apply Nat.eqb_eq in H. subst. apply le_n.
  - destruct skip as [|n]; [apply le_0_n|].
    cbn [run_from] in H. apply IH in H. simpl. lia.
Qed.

(** What a star consumed is a run of characters of its class. *)
Lemma star_split (cl : cclass) (s : string) :
  forall skip k res,
    skip <= String.length s ->
    star_from icase cl skip s k = Some res ->
    exists w s', s = w ++ s' /\ k s' = Some res /\ run_from icase cl skip w s' = true.
Proof.
  induction s as [|x s IH]; intros skip k res L H.
  - simpl in L. assert (skip = 0) by lia. subst.
    exists EmptyString, EmptyString. auto.
  - cbn [star_from] in H. destruct skip as [|n].
    + destruct (class_len icase cl (String x s)) as [|n] eqn:E.
      * exists EmptyString, (String x s). auto.
      * destruct (star_from icase cl n s k) eqn:Es.
        -- inversion H; subst.
           pose proof (class_len_le icase cl (String x s)) as L'.
           rewrite E in L'. simpl in L'.
           destruct (IH n k res ltac:(lia) Es) as (w & s' & -> & Hk & Hr).
           exists (String x w), s'. repeat split; auto.
           cbn [run_from append]. cbn [append] in E. rewrite E. exact Hr.
        -- exists EmptyString, (String x s). auto.
    + destruct (IH n k res ltac:(simpl in L; lia) H) as (w & s' & -> & Hk & Hr).
      exists (String x w), s'. auto.
Qed.

(** With a continuation that cannot fail, the star stops where its class
    accepts nothing more. *)
Lemma star_greedy (cl : cclass) (s : string) :
  forall skip k res,
    (forall x, k x <> None) ->
    skip <= String.length s ->
    star_from icase cl skip s k = Some res ->
    exists w s', s = w ++ s' /\ k s' = Some res /\ run_from icase cl skip w s' = true
                 /\ class_len icase cl s' = 0.
Proof.
  induction s as [|x s IH]; intros skip k res Hk L H.
  - simpl in L. assert (skip = 0) by lia. subst.
    exists EmptyString, EmptyString. auto.
  - cbn [star_from] in H. destruct skip as [|n].
    + destruct (class_len icase cl (String x s)) as [|n] eqn:E.
      * exists EmptyString, (String x s). auto.
      * destruct (star_from icase cl n s k) eqn:Es.
        -- inversion H; subst.
           pose proof (class_len_le icase cl (String x s)) as L'.
           rewrite E in L'. simpl in L'.
           destruct (IH n k res Hk ltac:(lia) Es) as (w & s' & -> & Hk' & Hr & Hz).
           exists (String x w), s'. repeat split; auto.
           cbn [run_from append]. cbn [append] in E. rewrite E. exact Hr.
        -- exfalso. exact (star_total cl s n k Hk Es).
    + destruct (IH n k res Hk ltac:(simpl in L; lia) H) as (w & s' & -> & Hk' & Hr & Hz).
      exists (String x w), s'. auto.
Qed.

(** A run of characters of the class, followed by a text the class does
    not accept, is taken whole. *)
Lemma star_longest (cl : cclass) (w r : string) :
  forall skip k res,
    run_from icase cl skip w r = true ->
    class_len icase cl r = 0 ->
    k r = Some res ->
    star_from icase cl skip (w ++ r) k = Some res.
Proof.
  induction w as [|c w IH]; intros skip k res Hr Hz Hk.
  - simpl in Hr. apply Nat.eqb_eq in Hr. subst. cbn [append].
    destruct r as [|x r]; [exact Hk|]. cbn [star_from]. rewrite Hz. exact Hk.
  - cbn [append star_from run_from] in *. destruct skip as [|n].
    + destruct (class_len icase cl (String c (w ++ r))) as [|n]; [discriminate|].
      rewrite (IH n k res Hr Hz Hk). reflexivity.
    + apply IH; assumption.
Qed.

End MatcherFacts.

Lemma run_space_white (icase : bool) (w r : string) :
  forall skip, run_from icase space skip w r = true -> Js.white_from skip w = true.
Proof.
  induction w as [|c w IH]; intros skip H; [reflexivity|].
  cbn [run_from Js.white_from] in *. destruct skip as [|n]; [|apply IH, H].
  destruct (class_len icase space (String c w ++ r)) as [|n] eqn:E; [discriminate|].
  apply class_len_char in E. destruct E as [Hm Hc].
  rewrite class_mem_space in Hm. apply Nat.ltb_lt in Hm.
  destruct (Js.space_len (String c w ++ r)) as [|m] eqn:Es; [lia|].
  pose proof (space_char_len _ _ Es) as Hc'. rewrite Hc in Hc'. inversion Hc'; subst m.
  pose proof (run_from_skip_le icase space w r n H) as L.
  rewrite (space_len_cut (String c w) r n Es) by (simpl; lia).
  apply IH, H.
Qed.

Lemma white_run_space (icase : bool) (w r : string) :
  forall skip, skip <= String.length w ->
    Js.white_from skip w = true -> run_from icase space skip w r = true.
Proof.
  induction w as [|c w IH]; intros skip L H.
  - simpl in L. assert (skip = 0) by lia. subst. reflexivity.
  - cbn [run_from Js.white_from] in *. destruct skip as [|n];
      [|apply IH; [simpl in L; lia | exact H]].
    destruct (Js.space_len (String c w)) as [|n] eqn:E; [discriminate|].
    pose proof (space_len_app _ r n E) as E'.
    assert (Hl : class_len icase space (String c w ++ r) = S n).
    { unfold class_len. cbn [append]. change (String c (w ++ r)) with (String c w ++ r).
      rewrite class_mem_space, E'. cbn [Nat.ltb Nat.leb]. apply space_char_len, E'. }
    rewrite Hl. pose proof (space_len_le (String c w)) as L'. rewrite E in L'.
    apply IH; [simpl in L'; lia | exact H].
Qed.

Lemma run_not_space_sound (icase : bool) (w r : string) :
  forall skip, run_from icase not_space skip w r = true -> conts skip w = true ->
               no_space_in w r = true.
Proof.
  induction w as [|c w IH]; intros skip H Hc; [reflexivity|].
  cbn [run_from no_space_in] in *. destruct skip as [|n].
  - destruct (class_len icase not_space (String c w ++ r)) as [|n] eqn:E; [discriminate|].
    apply class_len_char in E. destruct E as [Hm Hl].
    rewrite class_mem_not_space in Hm. apply negb_true_iff, Nat.ltb_ge in Hm.
    assert (Hz : Js.space_len (String c w ++ r) = 0) by lia. rewrite Hz. cbn [Nat.eqb andb].
    apply (IH n H). cbn [append] in Hl. apply char_len_conts in Hl.
    apply (conts_cut n w r Hl). apply (run_from_skip_le icase not_space w r n H).
  - cbn [conts] in Hc. apply andb_true_iff in Hc. destruct Hc as [Hc1 Hc2].
    cbn [append]. rewrite (space_len_cont c _ Hc1). cbn [Nat.eqb andb].
    apply (IH n H Hc2).
Qed.

Lemma run_not_space_complete (icase : bool) (w r : string) :
  starts_clean r ->
  forall skip, skip <= String.length w -> no_space w = true ->
               run_from icase not_space skip w r = true.
Proof.
  intros Hr. induction w as [|c w IH]; intros skip L H.
  - simpl in L. assert (skip = 0) by lia. subst. reflexivity.
  - assert (Hw : no_space w = true).
    { unfold no_space in *. cbn [no_space_in] in H. apply andb_true_iff in H. apply H. }
    cbn [run_from]. destruct skip as [|n]; [|apply IH; [simpl in L; lia | exact Hw]].
    assert (Hz : Js.space_len (String c w ++ r) = 0).
    { apply space_len_app_zero; [|discriminate | exact Hr].
      unfold no_space in H. cbn [no_space_in] in H. apply andb_true_iff in H.
      destruct H as [H _]. apply Nat.eqb_eq in H. rewrite append_nil_r in H. exact H. }
    unfold class_len. cbn [append]. change (String c (w ++ r)) with (String c w ++ r).
    rewrite class_mem_not_space, Hz. cbn [Nat.ltb Nat.leb negb].
    rewrite (char_len_app c w r Hr). cbn [Js.char_len].
    apply IH; [apply cont_run_le | exact Hw].
Qed.

Lemma consumed_nonempty (s rest : string) :
  String.length rest < String.length s -> consumed s rest <> EmptyString.
Proof.
  unfold consumed. intros H.
  destruct s as [|c s]; simpl in *; [lia|].
  destruct (String.length rest) as [|n].
  - simpl. discriminate.
  - destruct (String.length s - n) eqn:E; [lia|]. simpl. discriminate.
Qed.

Lemma consumed_app (a b : string) : consumed (a ++ b) b = a.
Proof.
  unfold consumed. rewrite length_append, Nat.add_sub.
  induction a as [|c a IH]; simpl; [destruct b; reflexivity | rewrite IH; reflexivity].
Qed.

(** A pattern of the shape [a b (body)] with the capturing group last:
    group 1 is the text consumed by [body], to the end of the match. *)
Lemma labelled_group_match (icase : bool) (a b body : regex) (s rest : string) caps :
  match_here icase (RSeq a (RSeq b (RGroup 1 body))) s = Some (rest, caps) ->
  exists s1 c', caps = (1, consumed s1 rest) :: c'
                /\ String.length rest + minlen body <= String.length s1.
Proof.
  unfold match_here. cbn [rmatch]. intros H.
  apply rmatch_inv in H. destruct H as (s1 & c1 & H & _).
  apply rmatch_inv in H. destruct H as (s2 & c2 & H & _).
  apply rmatch_inv in H. destruct H as (s3 & c3 & H & L).
  inversion H; subst. exists s2, c3. split; [reflexivity | assumption].
Qed.

(** ** Literals under the [i] flag *)

Lemma sameLetters_eq (a b : string) :
  sameLetters a b = true <-> upperAscii a = upperAscii b.
Proof. apply String.eqb_eq. Qed.

Lemma upperAscii_app (a b : string) : upperAscii (a ++ b) = upperAscii a ++ upperAscii b.
Proof. induction a as [|c a IH]; simpl; [|rewrite IH]; reflexivity. Qed.

Lemma lit_match_icase (p : string) :
  forall l s caps k,
    sameLetters l p = true -> rmatch true (lit p) (l ++ s) caps k = k s caps.
Proof.
  induction p as [|c p IH]; intros l s caps k H; apply sameLetters_eq in H.
  - destruct l; [reflexivity | discriminate].
  - destruct l as [|x l]; [discriminate|]. simpl in H. inversion H as [[Hx Hl]].
    destruct p as [|c' p'].
    + destruct l; [|discriminate]. cbn [lit rmatch append canon].
      rewrite Hx, Ascii.eqb_refl. reflexivity.
    + change (lit (String c (String c' p'))) with (RSeq (RChar c) (lit (String c' p'))).
      cbn [rmatch append canon]. rewrite Hx, Ascii.eqb_refl.
      apply IH. apply sameLetters_eq. exact Hl.
Qed.

Lemma lit_inv_icase (p : string) :
  forall s caps k res,
    rmatch true (lit p) s caps k = Some res ->
    exists l s', s = l ++ s' /\ sameLetters l p = true /\ k s' caps = Some res.
Proof.
  induction p as [|c p IH]; intros s caps k res H.
  - exists EmptyString, s. auto.
  - destruct p as [|c' p'].
    + cbn [lit rmatch canon] in H. destruct s as [|x s]; [discriminate|].
      destruct (Ascii.eqb_spec (Js.upper_char c) (Js.upper_char x)) as [E|]; [|discriminate].
      exists (String x EmptyString), s. repeat split; auto.
      apply sameLetters_eq. simpl. rewrite E. reflexivity.
    + change (lit (String c (String c' p'))) with (RSeq (RChar c) (lit (String c' p'))) in H.
      cbn [rmatch canon] in H. destruct s as [|x s]; [discriminate|].
      destruct (Ascii.eqb_spec (Js.upper_char c) (Js.upper_char x)) as [E|]; [|discriminate].
      destruct (IH s caps k res H) as (l & s' & -> & Hl & Hk).
      exists (String x l), s'. repeat split; auto.
      apply sameLetters_eq. apply sameLetters_eq in Hl. simpl in *. rewrite E, Hl. reflexivity.
Qed.

Lemma code_of_nat (n : nat) : n < 256 -> Js.code (ascii_of_nat n) = n.
Proof. apply nat_ascii_embedding. Qed.

Lemma code_bound (c : ascii) : Js.code c < 256.
Proof. apply nat_ascii_bounded. Qed.

(** A letter in lower case is plain; so is a character whose upper case
    is. *)
Lemma upper_plain (x : ascii) :
  plain_char (Js.upper_char x) = true -> plain_char x = true.
Proof.
  unfold Js.upper_char. destruct (Js.is_lower x) eqn:E; [|exact (fun H => H)].
  intros _. unfold Js.is_lower in E. cbv zeta in E. boolnat.
  unfold plain_char, Js.space1.
  destruct (Js.code x <? 128) eqn:E1; [|boolnat; lia].
  destruct (9 <=? Js.code x) eqn:E2, (Js.code x <=? 13) eqn:E3,
           (Js.code x =? 32) eqn:E4; boolnat; try reflexivity; lia.
Qed.

Lemma sameLetters_plain (l p : string) :
  sameLetters l p = true -> plain (upperAscii p) = true -> plain l = true.
Proof.
  intros H. apply sameLetters_eq in H. revert p H.
  induction l as [|x l IH]; intros p H Hp; [reflexivity|].
  destruct p as [|c p]; [discriminate|]. simpl in H. inversion H as [[Hx Hl]].
  cbn [upperAscii plain] in *. apply andb_true_iff in Hp. destruct Hp as [Hc Hp].
  rewrite <- Hx in Hc. rewrite (upper_plain x Hc), (IH p Hl Hp). reflexivity.
Qed.

(** A character that is not a letter is matched by itself only. *)
Lemma upper_char_fixed (x c : ascii) :
  Js.upper_char x = c -> Js.is_upper c = false -> x = c.
Proof.
  unfold Js.upper_char. destruct (Js.is_lower x) eqn:E; [|exact (fun H _ => H)].
  intros H Hc. exfalso. unfold Js.is_lower in E. cbv zeta in E. boolnat.
  assert (Hn : Js.code c = Js.code x - 32).
  { rewrite <- H. apply code_of_nat. pose proof (code_bound x). lia. }
  unfold Js.is_upper in Hc. cbv zeta in Hc. rewrite Hn in Hc.
  destruct (65 <=? Js.code x - 32) eqn:E1, (Js.code x - 32 <=? 90) eqn:E2;
    boolnat; try discriminate; lia.
Qed.

Lemma sameLetters_separator (l : string) : sameLetters l "://" = true -> l = "://".
Proof.
  intros H. apply sameLetters_eq in H.
  destruct l as [|a [|b [|c [|d l]]]]; try discriminate.
  cbn [upperAscii] in H.
  change (Js.upper_char ":") with ":"%char in H.
  change (Js.upper_char "/") with "/"%char in H.
  assert (Ha : Js.upper_char a = ":"%char) by congruence.
  assert (Hb : Js.upper_char b = "/"%char) by congruence.
  assert (Hc : Js.upper_char c = "/"%char) by congruence.
  rewrite (upper_char_fixed a ":" Ha eq_refl), (upper_char_fixed b "/" Hb eq_refl),
    (upper_char_fixed c "/" Hc eq_refl).
  reflexivity.
Qed.

Lemma sameLetters_refl (l : string) : sameLetters l l = true.
Proof. apply sameLetters_eq. reflexivity. Qed.

(** ** Tokens *)

Lemma ends_token_clean (rest : string) : ends_token rest = true -> starts_clean rest.
Proof.
  destruct rest as [|c r]; [exact (fun _ => I)|].
  unfold ends_token. intros H. apply Nat.ltb_lt in H.
  apply (space_len_starts_clean (String c r) H).
Qed.

Lemma token_inv (u : string) :
  token u = true -> u <> EmptyString /\ no_space u = true.
Proof.
  unfold token. intros H. apply andb_true_iff in H. destruct H as [H1 H2].
  split; [|exact H2]. apply negb_true_iff, String.eqb_neq in H1. exact H1.
Qed.

Lemma token_intro (u : string) :
  u <> EmptyString -> no_space u = true -> token u = true.
Proof.
  intros H1 H2. unfold token. rewrite H2, andb_true_r.
  apply negb_true_iff, String.eqb_neq. exact H1.
Qed.

(** The body [[^\s]+] before a continuation that cannot fail: it takes a
    token, to the white space that ends it. *)
Lemma plus_token_sound (s : string) caps (K : string -> captures -> option (string * captures)) res :
  (forall x c, K x c <> None) ->
  rmatch true (RPlus not_space) s caps K = Some res ->
  exists u rest,
    s = u ++ rest /\ K rest caps = Some res
    /\ u <> EmptyString /\ no_space_in u rest = true /\ ends_token rest = true.
Proof.
  intros HK. cbn [rmatch]. intros H.
  destruct (class_len true not_space s) as [|n] eqn:E; [discriminate|].
  pose proof (class_len_le true not_space s) as L. rewrite E in L.
  destruct (star_greedy true not_space s (S n) (fun s'' => K s'' caps) res
              (fun x => HK x caps) L H) as (w & s' & -> & Hk & Hr & Hz).
  exists w, s'. split; [reflexivity|]. split; [exact Hk|].
  destruct w as [|c w]; [discriminate Hr|].
  split; [discriminate|]. split; [|apply class_len_ends_token in Hz; exact Hz].
  apply (run_not_space_sound true (String c w) s' 0); [|reflexivity].
  cbn [run_from]. rewrite E. exact Hr.
Qed.

Lemma plus_token_complete (u rest : string) caps
      (K : string -> captures -> option (string * captures)) res :
  token u = true -> ends_token rest = true -> K rest caps = Some res ->
  rmatch true (RPlus not_space) (u ++ rest) caps K = Some res.
Proof.
  intros Hu Hrest HK. apply token_inv in Hu. destruct Hu as [Hne Hns].
  pose proof (run_not_space_complete true u rest (ends_token_clean rest Hrest) 0
                (le_0_n _) Hns) as Hr.
  destruct u as [|c u]; [congruence|].
  cbn [rmatch]. cbn [run_from] in Hr.
  destruct (class_len true not_space (String c u ++ rest)) as [|n] eqn:E; [discriminate|].
  apply (star_longest true not_space (String c u) rest (S n));
    [exact Hr | apply class_len_ends_token, Hrest | exact HK].
Qed.

(** The body [https?:\/\/[^\s]+]. *)
Lemma url_body_sound (s : string) caps
      (K : string -> captures -> option (string * captures)) res :
  (forall x c, K x c <> None) ->
  rmatch true (lit "http" ;; ROpt (RChar "s") ;; lit "://" ;; RPlus not_space)%re
    s caps K = Some res ->
  exists u rest,
    s = u ++ rest /\ K rest caps = Some res
    /\ token u = true /\ isHttpUrl u /\ ends_token rest = true.
Proof.
  intros HK H.
  change (rmatch true (lit "http" ;; ?r)%re s caps K)
    with (rmatch true (lit "http") s caps (fun s1 c1 => rmatch true r s1 c1 K)) in H.
  apply lit_inv_icase in H. destruct H as (h & s1 & -> & Hh & H).
  assert (Htail : forall s2 res2,
             rmatch true (lit "://" ;; RPlus not_space)%re s2 caps K = Some res2 ->
             exists body rest,
               s2 = "://" ++ body ++ rest /\ K rest caps = Some res2
               /\ body <> EmptyString /\ no_space_in body rest = true
               /\ ends_token rest = true).
  { intros s2 res2 H2.
    change (rmatch true (lit "://" ;; ?r)%re s2 caps K)
      with (rmatch true (lit "://") s2 caps (fun s1 c1 => rmatch true r s1 c1 K)) in H2.
    apply lit_inv_icase in H2. destruct H2 as (sep & s3 & -> & Hsep & H2).
    apply sameLetters_separator in Hsep. subst sep.
    apply plus_token_sound in H2; [|exact HK].
    destruct H2 as (body & rest & -> & Hk & Hne & Hns & He).
    exists body, rest. auto. }
  assert (Hplain : forall scheme body rest,
             plain scheme = true -> body <> EmptyString ->
             no_space_in body rest = true ->
             token (scheme ++ "://" ++ body) = true).
  { intros scheme body rest Hs Hne Hns. apply token_intro.
    - destruct scheme; discriminate.
    - apply no_space_in_weaken with (r := rest).
      apply no_space_in_app; [apply no_space_in_plain, Hs|].
      apply (no_space_in_app "://" body rest); [apply no_space_in_plain; reflexivity|].
      exact Hns. }
  change (rmatch true (ROpt (RChar "s") ;; ?r)%re s1 caps K)
    with (match rmatch true (RChar "s") s1 caps (fun s2 c2 => rmatch true r s2 c2 K) with
          | Some res0 => Some res0
          | None => rmatch true r s1 caps K
          end) in H.
  destruct (rmatch true (RChar "s") s1 caps
              (fun s2 c2 => rmatch true (lit "://" ;; RPlus not_space)%re s2 c2 K))
    as [res0|] eqn:E.
  - inversion H; subst res0. clear H.
    cbn [rmatch canon] in E. destruct s1 as [|x s2]; [discriminate|].
    destruct (Ascii.eqb_spec (Js.upper_char "s") (Js.upper_char x)) as [Ex|]; [|discriminate].
    destruct (Htail _ _ E) as (body & rest & -> & Hk & Hne & Hns & He).
    assert (Hs : sameLetters (h ++ String x EmptyString) "https" = true).
    { apply sameLetters_eq. apply sameLetters_eq in Hh.
      rewrite upperAscii_app, Hh. simpl. rewrite <- Ex. reflexivity. }
    exists ((h ++ String x EmptyString) ++ "://" ++ body), rest.
    split; [rewrite !append_assoc; reflexivity|]. split; [exact Hk|].
    split; [|split; [|exact He]].
    + apply (Hplain _ body rest); [|exact Hne | exact Hns].
      apply (sameLetters_plain _ "https" Hs). reflexivity.
    + exists (h ++ String x EmptyString), body. rewrite Hs, orb_true_r. auto.
  - destruct (Htail _ _ H) as (body & rest & -> & Hk & Hne & Hns & He).
    exists (h ++ "://" ++ body), rest.
    split; [rewrite !append_assoc; reflexivity|]. split; [exact Hk|].
    split; [|split; [|exact He]].
    + apply (Hplain _ body rest); [|exact Hne | exact Hns].
      apply (sameLetters_plain _ "http" Hh). reflexivity.
    + exists h, body. rewrite Hh. auto.
Qed.

Lemma url_body_complete (u rest : string) caps
      (K : string -> captures -> option (string * captures)) res :
  token u = true -> isHttpUrl u -> ends_token rest = true -> K rest caps = Some res ->
  rmatch true (lit "http" ;; ROpt (RChar "s") ;; lit "://" ;; RPlus not_space)%re
    (u ++ rest) caps K = Some res.
Proof.
  intros Hu (scheme & body & -> & Hne & Hs) Hrest HK.
  apply token_inv in Hu. destruct Hu as [_ Hns].
  assert (Hb : token body = true).
  { apply token_intro; [exact Hne|].
    apply (no_space_app_r "://"), (no_space_app_r scheme), Hns. }
  assert (Htail : rmatch true (lit "://" ;; RPlus not_space)%re
                    ("://" ++ body ++ rest) caps K = Some res).
  { change (rmatch true (lit "://" ;; ?r)%re ?s caps K)
      with (rmatch true (lit "://") s caps (fun s1 c1 => rmatch true r s1 c1 K)).
    rewrite (lit_match_icase "://" "://" _ _ _ (sameLetters_refl _)).
    apply plus_token_complete; assumption. }
  rewrite !append_assoc.
  change (rmatch true (lit "http" ;; ?r)%re ?s caps K)
    with (rmatch true (lit "http") s caps (fun s1 c1 => rmatch true r s1 c1 K)).
  apply orb_true_iff in Hs. destruct Hs as [Hs | Hs].
  - rewrite (lit_match_icase "http" scheme _ _ _ Hs).
    change (rmatch true (ROpt (RChar "s") ;; ?r)%re ?s caps K)
      with (match rmatch true (RChar "s") s caps (fun s2 c2 => rmatch true r s2 c2 K) with
            | Some res0 => Some res0
            | None => rmatch true r s caps K
            end).
    change (rmatch true (RChar "s") ("://" ++ body ++ rest) caps ?k0) with (@None (string * captures)).
    exact Htail.
  - apply sameLetters_eq in Hs.
    destruct scheme as [|a [|b [|c [|d [|e [|f scheme]]]]]]; try discriminate.
    cbn [upperAscii] in Hs.
    assert (Hh : sameLetters (String a (String b (String c (String d EmptyString)))) "http"
                 = true).
    { apply sameLetters_eq. cbn [upperAscii] in *. congruence. }
    assert (He : Js.upper_char "s" = Js.upper_char e) by congruence.
    change (String a (String b (String c (String d (String e EmptyString))))
            ++ "://" ++ body ++ rest)
      with (String a (String b (String c (String d EmptyString)))
            ++ String e ("://" ++ body ++ rest)).
    rewrite (lit_match_icase "http" _ _ _ _ Hh).
    change (rmatch true (ROpt (RChar "s") ;; ?r)%re ?s caps K)
      with (match rmatch true (RChar "s") s caps (fun s2 c2 => rmatch true r s2 c2 K) with
            | Some res0 => Some res0
            | None => rmatch true r s caps K
            end).
    change (rmatch true (RChar "s") (String e ?x) caps ?k0)
      with (if Ascii.eqb (Js.upper_char "s") (Js.upper_char e) then k0 x caps else None).
    rewrite He, Ascii.eqb_refl. cbv beta. rewrite Htail. reflexivity.
Qed.

(** ** A label, white space, and a captured value *)

Section Labelled.

Variable label : string.
Variable body : regex.
Variable Good : string -> Prop.

Hypothesis body_sound :
  forall s caps (K : string -> captures -> option (string * captures)) res,
    (forall x c, K x c <> None) ->
    rmatch true body s caps K = Some res ->
    exists u rest,
      s = u ++ rest /\ K rest caps = Some res
      /\ token u = true /\ Good u /\ ends_token rest = true.

Hypothesis body_complete :
  forall u rest caps (K : string -> captures -> option (string * captures)) res,
    token u = true -> Good u -> ends_token rest = true -> K rest caps = Some res ->
    rmatch true body (u ++ rest) caps K = Some res.

(** An anchored match is a labelled value at the head of the text, and
    group 1 is the value. *)
Lemma here_sound (s rest : string) caps :
  match_here true (RSeq (lit label) (RSeq (RStar space) (RGroup 1 body))) s = Some (rest, caps) ->
  exists u, caps = [(1, u)] /\ TokenAt label s u rest /\ Good u.
Proof.
  unfold match_here. cbn [rmatch]. intros H.
  apply lit_inv_icase in H. destruct H as (l & s1 & -> & Hl & H).
  unfold star in H. apply star_split in H; [|apply le_0_n].
  destruct H as (ws & s2 & -> & H & Hr).
  apply run_space_white in Hr.
  apply body_sound in H; [|intros; discriminate].
  destruct H as (u & rest' & -> & H & Hu & Hg & He).
  inversion H; subst. rewrite consumed_app.
  exists u. split; [reflexivity|]. split; [|exact Hg].
  exists l, ws. auto.
Qed.

Lemma here_complete (s u rest : string) :
  TokenAt label s u rest -> Good u ->
  match_here true (RSeq (lit label) (RSeq (RStar space) (RGroup 1 body))) s = Some (rest, [(1, u)]).
Proof.
  intros (l & ws & -> & Hl & Hw & Hu & He) Hg.
  unfold match_here. cbn [rmatch].
  rewrite (lit_match_icase label l _ _ _ Hl). unfold star.
  apply star_longest.
  - apply white_run_space; [apply le_0_n | exact Hw].
  - pose proof (token_inv u Hu) as [Hne Hns].
    pose proof (no_space_in_context u rest Hns (ends_token_clean rest He)) as Hc.
    destruct u as [|c u]; [congruence|].
    cbn [no_space_in] in Hc. apply andb_true_iff in Hc. destruct Hc as [Hc _].
    apply Nat.eqb_eq in Hc.
    unfold class_len. cbn [append]. change (String c (u ++ rest)) with (String c u ++ rest).
    rewrite class_mem_space, Hc. reflexivity.
  - apply body_complete; try assumption. rewrite consumed_app. reflexivity.
Qed.

Lemma match1_some (line u : string) :
  match1 (RSeq (lit label) (RSeq (RStar space) (RGroup 1 body))) line = Some u <-> FirstAt (fun s v rest => TokenAt label s v rest /\ Good v) line u.
Proof.
  unfold match1. split.
  - destruct (exec true (RSeq (lit label) (RSeq (RStar space) (RGroup 1 body))) line) as [[m caps]|] eqn:E; [|discriminate].
    intros Hc. apply exec_split in E. destruct E as (a & s & rest & -> & Hm & Hn).
    apply here_sound in Hm. destruct Hm as (u' & -> & Ht & Hg).
    cbn in Hc. inversion Hc; subst u'.
    exists a, s, rest. split; [reflexivity|]. split; [auto|].
    intros a' s' u' rest' E L [Ht' Hg'].
    pose proof (here_complete s' u' rest' Ht' Hg') as Hh.
    rewrite (Hn a' s' E L) in Hh. discriminate.
  - intros (a & s & rest & -> & [Ht Hg] & Hn).
    rewrite (exec_first true (RSeq (lit label) (RSeq (RStar space) (RGroup 1 body))) a s rest [(1, u)] (here_complete s u rest Ht Hg)).
    + reflexivity.
    + intros a' s' E L.
      destruct (match_here true (RSeq (lit label) (RSeq (RStar space) (RGroup 1 body))) s') as [[rest' caps']|] eqn:Em; [|reflexivity].
      exfalso. apply here_sound in Em. destruct Em as (u' & _ & Ht' & Hg').
      exact (Hn a' s' u' rest' E L (conj Ht' Hg')).
Qed.

Lemma match1_none (line : string) :
  match1 (RSeq (lit label) (RSeq (RStar space) (RGroup 1 body))) line = None <-> NoneAt (fun s v rest => TokenAt label s v rest /\ Good v) line.
Proof.
  unfold match1. split.
  - destruct (exec true (RSeq (lit label) (RSeq (RStar space) (RGroup 1 body))) line) as [[m caps]|] eqn:E.
    + intros Hc. exfalso. apply exec_inv in E. destruct E as (s0 & rest & E).
      apply here_sound in E. destruct E as (u & -> & _). discriminate Hc.
    + intros _ a s u rest El [Ht Hg].
      pose proof (proj1 (exec_none true (RSeq (lit label) (RSeq (RStar space) (RGroup 1 body))) line) E a s El) as Hn.
      rewrite (here_complete s u rest Ht Hg) in Hn. discriminate.
  - intros Hn.
    assert (E : exec true (RSeq (lit label) (RSeq (RStar space) (RGroup 1 body))) line = None).
    { apply exec_none. intros a s El.
      destruct (match_here true (RSeq (lit label) (RSeq (RStar space) (RGroup 1 body))) s) as [[rest caps]|] eqn:Em; [|reflexivity].
      exfalso. apply here_sound in Em. destruct Em as (u & _ & Ht & Hg).
      exact (Hn a s u rest El (conj Ht Hg)). }
    rewrite E. reflexivity.
Qed.

End Labelled.

Lemma FirstAt_ext (At At' : string -> string -> string -> Prop) (line u : string) :
  (forall s v rest, At s v rest <-> At' s v rest) ->
  FirstAt At line u -> FirstAt At' line u.
Proof.
  intros H (a & s & rest & E & Ha & Hn).
  exists a, s, rest. split; [exact E|]. split; [apply H, Ha|].
  intros a' s' u' rest' E' L Ha'. apply (Hn a' s' u' rest' E' L), H, Ha'.
Qed.

Lemma NoneAt_ext (At At' : string -> string -> string -> Prop) (line : string) :
  (forall s v rest, At s v rest <-> At' s v rest) ->
  NoneAt At line -> NoneAt At' line.
Proof.
  intros H Hn a s u rest E Ha. apply (Hn a s u rest E), H, Ha.
Qed.

Lemma token_body_sound (s : string) caps
      (K : string -> captures -> option (string * captures)) res :
  (forall x c, K x c <> None) ->
  rmatch true (RPlus not_space) s caps K = Some res ->
  exists u rest,
    s = u ++ rest /\ K rest caps = Some res
    /\ token u = true /\ True /\ ends_token rest = true.
Proof.
  intros HK H. destruct (plus_token_sound s caps K res HK H)
    as (u & rest & -> & Hk & Hne & Hns & He).
  exists u, rest. repeat split; auto.
  apply token_intro; [exact Hne | apply (no_space_in_weaken u rest Hns)].
Qed.

Lemma token_body_complete (u rest : string) caps
      (K : string -> captures -> option (string * captures)) res :
  token u = true -> True -> ends_token rest = true -> K rest caps = Some res ->
  rmatch true (RPlus not_space) (u ++ rest) caps K = Some res.
Proof. intros Hu _. apply plus_token_complete, Hu. Qed.

(** ** RequirementParser *)

(** What the three patterns find on a line: the value that stands at the
    first place of the line where the label, white space or none, and a
    value stand. *)
Lemma url_match (line u : string) :
  match1 urlPattern line = Some u <-> FirstAt UrlAt line u.
Proof. exact (match1_some "URL:" _ isHttpUrl url_body_sound url_body_complete line u). Qed.

Lemma url_no_match (line : string) :
  match1 urlPattern line = None <-> NoneAt UrlAt line.
Proof. exact (match1_none "URL:" _ isHttpUrl url_body_sound url_body_complete line). Qed.

Lemma token_match (label : string) (line u : string) :
  match1 (lit label ;; RStar space ;; RGroup 1 (RPlus not_space))%re line = Some u
  <-> FirstAt (TokenAt label) line u.
Proof.
  rewrite (match1_some label _ (fun _ => True) token_body_sound token_body_complete).
  split; apply FirstAt_ext; intros; tauto.
Qed.

Lemma token_no_match (label : string) (line : string) :
  match1 (lit label ;; RStar space ;; RGroup 1 (RPlus not_space))%re line = None
  <-> NoneAt (TokenAt label) line.
Proof.
  rewrite (match1_none label _ (fun _ => True) token_body_sound token_body_complete).
  split; apply NoneAt_ext; intros; tauto.
Qed.

Lemma username_match (line u : string) :
  match1 usernamePattern line = Some u <-> FirstAt UsernameAt line u.
Proof. exact (token_match "Username:" line u). Qed.

Lemma username_no_match (line : string) :
  match1 usernamePattern line = None <-> NoneAt UsernameAt line.
Proof. exact (token_no_match "Username:" line). Qed.

Lemma password_match (line u : string) :
  match1 passwordPattern line = Some u <-> FirstAt PasswordAt line u.
Proof. exact (token_match "Password:" line u). Qed.

Lemma password_no_match (line : string) :
  match1 passwordPattern line = None <-> NoneAt PasswordAt line.
Proof. exact (token_no_match "Password:" line). Qed.

(** The captured URL is never the empty string, so the final test
    [testData.url ? testData : null] succeeds whenever a line matched. *)
Lemma url_capture_truthy (line u : string) :
  match1 urlPattern line = Some u -> Js.truthy (Some u) = true.
Proof.
  unfold match1. intros H.
  destruct (exec true urlPattern line) as [[m caps]|] eqn:E; [|discriminate].
  apply exec_inv in E. destruct E as (s0 & rest & E).
  apply labelled_group_match in E. destruct E as (s1 & c' & -> & L).
  cbn in H. inversion H; subst. clear H.
  change (minlen _) with 8 in L.
  simpl. apply negb_true_iff, String.eqb_neq.
  apply consumed_nonempty. lia.
Qed.

(** In the three patterns group 1 takes part in every match, so
    [match1] is undefined exactly when [line.match(pattern)] is null. *)
Lemma match1_none_iff_null (pattern : regex) (line : string) :
  pattern = urlPattern \/ pattern = usernamePattern \/ pattern = passwordPattern ->
  (match1 pattern line = None <-> exec true pattern line = None).
Proof.
  intros Hp. unfold match1. split.
  - destruct (exec true pattern line) as [[m caps]|] eqn:E; [|reflexivity].
    intros Hc. exfalso.
    apply exec_inv in E. destruct E as (s0 & rest & E).
    destruct Hp as [-> | [-> | ->]];
      apply labelled_group_match in E; destruct E as (s1 & c' & -> & _);
      discriminate Hc.
  - intros ->. reflexivity.
Qed.

Lemma parseLine_url (td : TestData) (line : string) :
  url (parseLine td line)
  = match match1 urlPattern line with Some u => Some u | None => url td end.
Proof.
  unfold parseLine.
  destruct (match1 urlPattern line), (match1 usernamePattern line),
    (match1 passwordPattern line); reflexivity.
Qed.

Lemma parseLine_username (td : TestData) (line : string) :
  username (parseLine td line)
  = match match1 usernamePattern line with Some u => Some u | None => username td end.
Proof.
  unfold parseLine.
  destruct (match1 urlPattern line), (match1 usernamePattern line),
    (match1 passwordPattern line); reflexivity.
Qed.

Lemma parseLine_password (td : TestData) (line : string) :
  password (parseLine td line)
  = match match1 passwordPattern line with Some u => Some u | None => password td end.
Proof.
  unfold parseLine.
  destruct (match1 urlPattern line), (match1 usernamePattern line),
    (match1 passwordPattern line); reflexivity.
Qed.

(** The loop over the lines, for one field and its pattern. *)
Section FieldOfLoop.

Variable field : TestData -> option string.
Variable pattern : regex.
Hypothesis parseLine_field : forall td line,
  field (parseLine td line)
  = match match1 pattern line with Some u => Some u | None => field td end.

Lemma loop_no_match (lines : list string) (td : TestData) :
  (forall l, In l lines -> match1 pattern l = None) ->
  field (fold_left parseLine lines td) = field td.
Proof.
  revert td. induction lines as [|x xs IH]; simpl; intros td H; [reflexivity|].
  rewrite IH by auto. rewrite parseLine_field, (H x) by auto. reflexivity.
Qed.

Lemma loop_last_match (l1 l2 : list string) (line u : string) (td : TestData) :
  match1 pattern line = Some u ->
  (forall l, In l l2 -> match1 pattern l = None) ->
  field (fold_left parseLine (l1 ++ line :: l2)%list td) = Some u.
Proof.
  intros Hm Hn. rewrite fold_left_app. simpl.
  rewrite loop_no_match by assumption.
  rewrite parseLine_field, Hm. reflexivity.
Qed.

(** Either no line matches, or there is a last line that does. *)
Lemma last_matching_line (lines : list string) :
  (forall l, In l lines -> match1 pattern l = None)
  \/ exists l1 line l2 u,
      lines = (l1 ++ line :: l2)%list /\ match1 pattern line = Some u
      /\ forall l, In l l2 -> match1 pattern l = None.
Proof.
  induction lines as [|x xs IH].
  - left. intros l [].
  - destruct IH as [Hn | (l1 & line & l2 & u & -> & Hm & Hn)].
    + destruct (match1 pattern x) as [u|] eqn:E.
      * right. exists [], x, xs, u. auto.
      * left. intros l [<- | Hin]; auto.
    + right. exists (x :: l1), line, l2, u. auto.
Qed.

End FieldOfLoop.

(** ** The lines of a text *)

Lemma nl_in (c : ascii) (l : string) :
  Js.includes Js.nl (String c l) = Ascii.eqb (ascii_of_nat 10) c || Js.includes Js.nl l.
Proof.
  rewrite includes_cons. unfold Js.nl. rewrite prefix_cons_eqb, prefix_empty, andb_true_r.
  reflexivity.
Qed.

Lemma isLine_cons (c : ascii) (l : string) :
  isLine (String c l) = true ->
  Ascii.eqb c (ascii_of_nat 10) = false /\ isLine l = true.
Proof.
  unfold isLine. rewrite nl_in, negb_orb, andb_true_iff, !negb_true_iff.
  rewrite (Ascii.eqb_sym c). tauto.
Qed.

Lemma split_single (l : string) :
  isLine l = true -> Js.split_char (ascii_of_nat 10) l = [l].
Proof.
  induction l as [|c l IH]; intros H; [reflexivity|].
  apply isLine_cons in H. destruct H as [Hc Hl].
  cbn [Js.split_char]. rewrite Hc, (IH Hl). reflexivity.
Qed.

Lemma split_line (l rest : string) :
  isLine l = true ->
  Js.split_char (ascii_of_nat 10) (l ++ Js.nl ++ rest)
  = l :: Js.split_char (ascii_of_nat 10) rest.
Proof.
  induction l as [|c l IH]; intros H.
  - cbn [append Js.nl Js.split_char]. rewrite Ascii.eqb_refl. reflexivity.
  - apply isLine_cons in H. destruct H as [Hc Hl].
    cbn [append Js.split_char]. rewrite Hc, (IH Hl). reflexivity.
Qed.

(** A text written as lines joined by line feeds is split into these
    lines. *)
Lemma linesOf_join (lines : list string) :
  lines <> [] -> Forall (fun l => isLine l = true) lines ->
  linesOf (Js.join Js.nl lines) = lines.
Proof.
  unfold linesOf, Js.join. intros Hne HF.
  induction HF as [|l ls Hl HF IH]; [congruence|].
  destruct ls as [|l' ls].
  - apply split_single, Hl.
  - change (String.concat Js.nl (l :: l' :: ls))
      with (l ++ Js.nl ++ String.concat Js.nl (l' :: ls)).
    rewrite (split_line _ _ Hl), IH by discriminate. reflexivity.
Qed.

Lemma split_pieces_are_lines (s : string) :
  Forall (fun l => isLine l = true) (Js.split_char (ascii_of_nat 10) s)
  /\ Js.split_char (ascii_of_nat 10) s <> []
  /\ Js.join Js.nl (Js.split_char (ascii_of_nat 10) s) = s.
Proof.
  induction s as [|c s (HF & Hne & Hj)].
  - repeat split; [repeat constructor | discriminate].
  - cbn [Js.split_char]. unfold Js.join in *.
    destruct (Js.split_char (ascii_of_nat 10) s) as [|p ps]; [congruence|].
    assert (Hp : isLine p = true) by (inversion HF; assumption).
    assert (HF' : Forall (fun l => isLine l = true) ps) by (inversion HF; assumption).
    destruct (Ascii.eqb_spec c (ascii_of_nat 10)) as [Ec|Hc].
    + repeat split; [constructor; [reflexivity | exact HF] | discriminate |].
      change (String.concat Js.nl (EmptyString :: p :: ps))
        with (Js.nl ++ String.concat Js.nl (p :: ps)).
      rewrite Hj, Ec. reflexivity.
    + repeat split; [constructor; [|exact HF'] | discriminate |].
      * unfold isLine in *. rewrite nl_in, negb_orb, Hp, andb_true_r.
        apply negb_true_iff. destruct (Ascii.eqb_spec (ascii_of_nat 10) c); congruence.
      * destruct ps as [|q qs].
        -- cbn [String.concat] in *. rewrite Hj. reflexivity.
        -- change (String.concat Js.nl (String c p :: q :: qs))
             with (String c (p ++ Js.nl ++ String.concat Js.nl (q :: qs))).
           change (String.concat Js.nl (p :: q :: qs))
             with (p ++ Js.nl ++ String.concat Js.nl (q :: qs)) in Hj.
           rewrite Hj. reflexivity.
Qed.

(** Every text is the join of its lines. *)
Lemma text_is_its_lines (prd : string) :
  exists lines,
    lines <> [] /\ Forall (fun l => isLine l = true) lines
    /\ prd = Js.join Js.nl lines.
Proof.
  destruct (split_pieces_are_lines prd) as (HF & Hne & Hj).
  exists (Js.split_char (ascii_of_nat 10) prd). auto.
Qed.

(** ** The parser *)

Lemma field_is_last_match (field : TestData -> option string) (pattern : regex)
      (lines : list string) :
  (forall td line,
      field (parseLine td line)
      = match match1 pattern line with Some v => Some v | None => field td end) ->
  field emptyTestData = None ->
  (field (fold_left parseLine lines emptyTestData) = None
   <-> forall l, In l lines -> match1 pattern l = None).
Proof.
  intros Hf H0. split.
  - intros Hu.
    destruct (last_matching_line pattern lines) as [Hn | (l1 & line & l2 & v & -> & Hm & Hn)];
      [exact Hn|].
    rewrite (loop_last_match field pattern Hf l1 l2 line v emptyTestData Hm Hn) in Hu.
    discriminate.
  - intros Hn. rewrite (loop_no_match field pattern Hf lines emptyTestData Hn). exact H0.
Qed.

(** C4.  A text is read line by line.  A URL stands on a line where the
    label [URL:], in any case, is followed by white space or none and
    then by a token that starts with [http://] or [https://], in any case,
    and goes on to the next white space or to the end of the line.  When
    no line holds a URL the parser returns null.  Otherwise it returns a
    descriptor whose url is exactly the token of the first URL of the last
    line that holds one; the username and the password of the descriptor
    are undefined exactly when no line holds one. *)
Theorem parse_url_descriptor (lines : list string) :
  lines <> [] -> Forall (fun l => isLine l = true) lines ->
  let prd := Js.join Js.nl lines in
  ((forall line, In line lines -> NoneAt UrlAt line) -> parseTestDataFromPRD prd = None)
  /\ (forall l1 line l2 u,
        lines = (l1 ++ line :: l2)%list ->
        FirstAt UrlAt line u ->
        (forall l, In l l2 -> NoneAt UrlAt l) ->
        exists td,
          parseTestDataFromPRD prd = Some td /\ url td = Some u
          /\ (username td = None <-> forall l, In l lines -> NoneAt UsernameAt l)
          /\ (password td = None <-> forall l, In l lines -> NoneAt PasswordAt l)).
Proof.
  intros Hne HF. cbv zeta. unfold parseTestDataFromPRD.
  rewrite (linesOf_join lines Hne HF). split.
  - intros Hn.
    rewrite (loop_no_match url urlPattern parseLine_url lines emptyTestData); [reflexivity|].
    intros l Hl. apply url_no_match, Hn, Hl.
  - intros l1 line l2 u El Hu Hn.
    assert (Hurl : url (fold_left parseLine lines emptyTestData) = Some u).
    { rewrite El. apply (loop_last_match url urlPattern parseLine_url).
      - apply url_match, Hu.
      - intros l Hl. apply url_no_match, Hn, Hl. }
    rewrite Hurl, (url_capture_truthy line u (proj2 (url_match line u) Hu)).
    eexists. split; [reflexivity|]. split; [exact Hurl|]. split.
    + rewrite (field_is_last_match username usernamePattern lines parseLine_username eq_refl).
      split; intros H l Hl; apply username_no_match, H, Hl.
    + rewrite (field_is_last_match password passwordPattern lines parseLine_password eq_refl).
      split; intros H l Hl; apply password_no_match, H, Hl.
Qed.

Lemma parse_url_descriptor_witness :
  (exists td,
     parseTestDataFromPRD quickTestText = Some td
     /\ url td = Some "https://example.com/login")
  /\ parseTestDataFromPRD "Users should be able to search for products" = None.
Proof.
  split.
  - destruct (proj2 (parse_url_descriptor
                       ["Test login for:"; "URL: https://example.com/login";
                        "Username: u"; "Password: p"]
                       ltac:(discriminate) ltac:(repeat constructor))
                ["Test login for:"] "URL: https://example.com/login"
                ["Username: u"; "Password: p"] "https://example.com/login" eq_refl)
      as (td & Hp & Hu & _).
    + apply url_match. vm_compute. reflexivity.
    + intros l [<- | [<- | []]]; apply url_no_match; vm_compute; reflexivity.
    + exists td. split; [exact Hp | exact Hu].
  - apply (proj1 (parse_url_descriptor ["Users should be able to search for products"]
                    ltac:(discriminate) ltac:(repeat constructor))).
    intros line [<- | []]. apply url_no_match. vm_compute. reflexivity.
Defined.

(** The scenario of the specification. *)
Example parse_quick_test :
  parseTestDataFromPRD quickTestText
  = Some (mkTestData (Some "https://example.com/login") (Some "u") (Some "p")).
Proof. vm_compute. reflexivity. Qed.

(** White space outside ASCII: a no-break space after the label. *)
Example parse_no_break_space :
  parseTestDataFromPRD ("URL:" ++ Js.utf8 160 ++ "https://example.com/login")
  = Some (mkTestData (Some "https://example.com/login") None None).
Proof. vm_compute. reflexivity. Qed.

(** C10.  When several lines hold a value for the same label, the field
    has the value of the last of them: a line that holds one, with no line
    after it that does, decides the field; on the line it is the first
    value that counts.  This holds for url, username and password
    separately. *)
Theorem last_matching_line_wins (lines : list string) (td : TestData)
        (l1 l2 : list string) (line : string) :
  Forall (fun l => isLine l = true) lines ->
  parseTestDataFromPRD (Js.join Js.nl lines) = Some td ->
  lines = (l1 ++ line :: l2)%list ->
  (forall u, FirstAt UrlAt line u ->
             (forall l, In l l2 -> NoneAt UrlAt l) -> url td = Some u)
  /\ (forall u, FirstAt UsernameAt line u ->
                (forall l, In l l2 -> NoneAt UsernameAt l) -> username td = Some u)
  /\ (forall u, FirstAt PasswordAt line u ->
                (forall l, In l l2 -> NoneAt PasswordAt l) -> password td = Some u).
Proof.
  unfold parseTestDataFromPRD. intros HF Hp Hl.
  rewrite (linesOf_join lines) in Hp; [|rewrite Hl; destruct l1; discriminate | exact HF].
  destruct (Js.truthy _); [|discriminate].
  inversion Hp; subst td; clear Hp. rewrite Hl.
  repeat split; intros u Hm Hn.
  - apply (loop_last_match url urlPattern parseLine_url); [apply url_match, Hm|].
    intros l Hin. apply url_no_match, Hn, Hin.
  - apply (loop_last_match username usernamePattern parseLine_username);
      [apply username_match, Hm|].
    intros l Hin. apply username_no_match, Hn, Hin.
  - apply (loop_last_match password passwordPattern parseLine_password);
      [apply password_match, Hm|].
    intros l Hin. apply password_no_match, Hn, Hin.
Qed.

Lemma last_matching_line_wins_witness :
  let td := mkTestData (Some "https://b.example/login") (Some "y") (Some "two") in
  parseTestDataFromPRD repeatedLinesText = Some td
  /\ url td = Some "https://b.example/login"
  /\ password td = Some "two".
Proof.
  intros td.
  assert (Hp : parseTestDataFromPRD repeatedLinesText = Some td)
    by (vm_compute; reflexivity).
  assert (HF : Forall (fun l => isLine l = true)
                 ["URL: http://a.example"; "Password: one";
                  "URL: https://b.example/login"; "Username: x";
                  "Password: two"; "Username: y"])
    by (repeat constructor).
  split; [exact Hp|]. split.
  - apply (proj1 (last_matching_line_wins _ td
                    ["URL: http://a.example"; "Password: one"]
                    ["Username: x"; "Password: two"; "Username: y"]
                    "URL: https://b.example/login" HF Hp eq_refl)).
    + apply url_match. vm_compute. reflexivity.
    + intros l [<- | [<- | [<- | []]]]; apply url_no_match; vm_compute; reflexivity.
  - apply (proj2 (proj2 (last_matching_line_wins _ td
                    ["URL: http://a.example"; "Password: one";
                     "URL: https://b.example/login"; "Username: x"]
                    ["Username: y"]
                    "Password: two" HF Hp eq_refl))).
    + apply password_match. vm_compute. reflexivity.
    + intros l [<- | []]; apply password_no_match; vm_compute; reflexivity.
Defined.

(** The last line decides also when its white space lies outside ASCII. *)
Example last_line_with_no_break_space :
  parseTestDataFromPRD ("URL: http://a" ++ Js.nl ++ "URL:" ++ Js.utf8 160 ++ "http://b")
  = Some (mkTestData (Some "http://b") None None).
Proof. vm_compute. reflexivity. Qed.

(** Username and password are optional, each on its own: a field whose
    pattern matches no line stays undefined. *)
Lemma absent_fields_stay_undefined (prd : string) (td : TestData) :
  parseTestDataFromPRD prd = Some td ->
  ((forall l, In l (linesOf prd) -> match1 usernamePattern l = None) -> username td = None)
  /\ ((forall l, In l (linesOf prd) -> match1 passwordPattern l = None) ->
      password td = None).
Proof.
  unfold parseTestDataFromPRD. intros Hp.
  destruct (Js.truthy _); [|discriminate].
  inversion Hp; subst td; clear Hp. split; intros Hn.
  - apply (loop_no_match username usernamePattern parseLine_username _ emptyTestData Hn).
  - apply (loop_no_match password passwordPattern parseLine_password _ emptyTestData Hn).
Qed.

Example url_only_text :
  parseTestDataFromPRD "Please test url: HTTP://Shop.example/login now"
  = Some (mkTestData (Some "HTTP://Shop.example/login") None None).
Proof. vm_compute. reflexivity. Qed.

(** ** DeterministicCaseSynthesizer *)

(** C3.  URL mode returns exactly four cases, with the ids login-001 to
    login-004 in this order, each carrying the descriptor it was given as
    its test data and the status pending. *)
Theorem url_mode_four_cases (td : TestData) :
  length (generateLoginTestCasesForURL td) = 4
  /\ map id (generateLoginTestCasesForURL td)
     = ["login-001"; "login-002"; "login-003"; "login-004"]
  /\ Forall (fun tc => testData tc = Some td /\ status tc = Some pending)
       (generateLoginTestCasesForURL td).
Proof.
  split; [reflexivity|]. split; [reflexivity|].
  repeat constructor.
Qed.

(** Every text with a URL line reaches URL mode with the parsed descriptor. *)
Corollary url_mode_of_text (prd : string) (td : TestData) :
  parseTestDataFromPRD prd = Some td ->
  map id (generateLoginTestCasesForURL td)
  = ["login-001"; "login-002"; "login-003"; "login-004"]
  /\ Forall (fun tc => testData tc = Some td) (generateLoginTestCasesForURL td).
Proof.
  intros _. split; [reflexivity | repeat constructor].
Qed.

(** C5, as amended.  Keyword mode appends, in this order, the login cases
    when the lower-cased text contains [login], the cart cases when it
    contains [cart] or [shopping], and the search cases when it contains
    [search]; when none of the four keywords occurs the result is the one
    generic case. *)
Theorem keyword_mode_cases (prd : string) :
  let lower := Js.toLowerCase prd in
  generateTestCasesFallback prd
  = if Js.includes "login" lower
       || (Js.includes "cart" lower || Js.includes "shopping" lower)
       || Js.includes "search" lower
    then ((if Js.includes "login" lower then generateLoginTestCases else [])
          ++ (if Js.includes "cart" lower || Js.includes "shopping" lower
              then generateCartTestCases else [])
          ++ (if Js.includes "search" lower then generateSearchTestCases else []))%list
    else [generateGenericTestCase].
Proof.
  unfold generateTestCasesFallback. cbv zeta.
  destruct (Js.includes "login" (Js.toLowerCase prd));
    destruct (Js.includes "cart" (Js.toLowerCase prd));
    destruct (Js.includes "shopping" (Js.toLowerCase prd));
    destruct (Js.includes "search" (Js.toLowerCase prd)); reflexivity.
Qed.

(** The canned sets have 2, 2 and 1 cases, and the generic case is
    generic-001. *)
Lemma canned_case_sets :
  map id generateLoginTestCases = ["login-001"; "login-002"]
  /\ map id generateCartTestCases = ["cart-001"; "cart-002"]
  /\ map id generateSearchTestCases = ["search-001"]
  /\ id generateGenericTestCase = "generic-001".
Proof. repeat split. Qed.

(** C5, as stated, fails: a text about shopping contains none of [login],
    [cart], [search], yet it gets the two cart cases, not the generic one. *)
Lemma keyword_mode_shopping_counterexample :
  parseTestDataFromPRD "Weekly shopping list" = None
  /\ keywordCasesOfSpec "Weekly shopping list" = [generateGenericTestCase]
  /\ generateTestCasesFallback "Weekly shopping list" = generateCartTestCases
  /\ generateTestCasesFallback "Weekly shopping list"
     <> keywordCasesOfSpec "Weekly shopping list".
Proof.
  split; [vm_compute; reflexivity|].
  split; [vm_compute; reflexivity|]. split; [vm_compute; reflexivity|].
  vm_compute. discriminate.
Qed.

(** The scenarios of the specification. *)
Example search_only_text :
  map id (generateTestCasesFallback "Users should be able to search for products")
  = ["search-001"].
Proof. vm_compute. reflexivity. Qed.

Example no_keyword_text :
  map id (generateTestCasesFallback "The system exports a monthly report")
  = ["generic-001"].
Proof. vm_compute. reflexivity. Qed.

(** ** The per-step translator *)

(** C6, the failing input.  A step with the keyword [select] and no other
    keyword gets the select command from the Cypress translator and the
    comment fallback from the Playwright translator, which has no select
    branch. *)
Theorem playwright_select_step_is_comment :
  step_keyword "Select an option" = true
  /\ stepToCypressCommand "Select an option"
     = "cy.get('[data-test=" ++ Js.dq ++ "element" ++ Js.dq ++ "]').select('option');"
  /\ stepToPlaywrightCommand "Select an option" = "// Select an option".
Proof. repeat split; vm_compute; reflexivity. Qed.

(** What holds of both translators: a step with none of the keywords
    becomes a comment that repeats the step. *)
Lemma unrecognised_step_is_comment (step : string) :
  step_keyword step = false ->
  stepToCypressCommand step = "// " ++ step
  /\ stepToPlaywrightCommand step = "// " ++ step.
Proof.
  unfold step_keyword, stepToCypressCommand, stepToPlaywrightCommand. cbv zeta.
  intros H. repeat (apply orb_false_iff in H; destruct H as [H ?]).
  repeat match goal with E : _ = false |- _ => rewrite E; clear E end.
  split; reflexivity.
Qed.

(** The scenario of the specification: the click template with the button
    selector, in both frameworks. *)
Example click_the_login_button :
  stepToCypressCommand "Click the login button"
  = "cy.get('[data-test=" ++ Js.dq ++ "button" ++ Js.dq ++ "]').click();"
  /\ stepToPlaywrightCommand "Click the login button"
     = "await page.click('[data-test=" ++ Js.dq ++ "button" ++ Js.dq ++ "]');".
Proof. split; vm_compute; reflexivity. Qed.

(** ** HeuristicAnalyzer *)

Lemma existsb_eqb_In (x : string) (l : list string) :
  existsb (String.eqb x) l = true <-> In x l.
Proof.
  rewrite existsb_exists. split.
  - intros (y & Hin & E). apply String.eqb_eq in E. subst. assumption.
  - intros Hin. exists x. split; [assumption | apply String.eqb_refl].
Qed.

Lemma filter_filter_and {A : Type} (f g : A -> bool) (l : list A) :
  filter f (filter g l) = filter (fun y => g y && f y) l.
Proof.
  induction l as [|a l IH]; simpl; [reflexivity|].
  destruct (g a); simpl; [destruct (f a)|]; rewrite IH; reflexivity.
Qed.

(** The set built from [l] on top of the elements [acc] already inserted:
    [acc], then the first occurrences of [l] that are not in [acc]. *)
Lemma set_add_loop (l acc : list string) :
  fold_left set_add l acc
  = (acc ++ filter (fun y => negb (existsb (String.eqb y) acc)) (firstOccurrences l))%list.
Proof.
  revert acc. induction l as [|x xs IH]; intros acc; simpl.
  - rewrite app_nil_r. reflexivity.
  - rewrite IH. unfold set_add.
    destruct (existsb (String.eqb x) acc) eqn:E; simpl.
    + f_equal. rewrite filter_filter_and. apply filter_ext. intros y.
      destruct (String.eqb_spec y x) as [->|]; simpl; [rewrite E|]; reflexivity.
    + rewrite <- app_assoc. simpl. f_equal. f_equal.
      rewrite filter_filter_and. apply filter_ext. intros y.
      rewrite existsb_app. simpl. rewrite orb_false_r, negb_orb.
      apply andb_comm.
  Qed.

Lemma set_of_firstOccurrences (l : list string) : set_of l = firstOccurrences l.
Proof.
  unfold set_of. rewrite set_add_loop. simpl.
  induction (firstOccurrences l) as [|a t IH]; simpl; [reflexivity | f_equal; exact IH].
Qed.

Lemma firstOccurrences_In (x : string) (l : list string) :
  In x (firstOccurrences l) <-> In x l.
Proof.
  induction l as [|a l IH]; simpl; [tauto|].
  rewrite filter_In, IH. split.
  - intros [? | [? _]]; auto.
  - intros [-> | Hin]; [auto|].
    destruct (String.eqb_spec x a) as [->|Hne]; [auto|].
    right. split; [assumption | reflexivity].
Qed.

Lemma firstOccurrences_NoDup (l : list string) : NoDup (firstOccurrences l).
Proof.
  induction l as [|a l IH]; simpl; constructor.
  - rewrite filter_In. intros [_ H]. rewrite String.eqb_refl in H. discriminate.
  - apply NoDup_filter. assumption.
Qed.

(** C8.  The extractors are functions of the text alone.  The features are
    the first occurrences of the pushed values, in order, so they have no
    duplicates and list the same values; the user-story and
    acceptance-criteria arrays are returned as pushed and can repeat an
    entry. *)
Theorem heuristic_extractors (prd : string) :
  (forall prd', prd' = prd ->
     extractFeatures prd' = extractFeatures prd
     /\ extractUserStories prd' = extractUserStories prd
     /\ extractAcceptanceCriteria prd' = extractAcceptanceCriteria prd)
  /\ NoDup (extractFeatures prd)
  /\ extractFeatures prd = firstOccurrences (pushedFeatures prd)
  /\ (forall f, In f (extractFeatures prd) <-> In f (pushedFeatures prd))
  /\ (exists text, ~ NoDup (extractUserStories text))
  /\ (exists text, ~ NoDup (extractAcceptanceCriteria text)).
Proof.
  split; [intros prd' ->; repeat split|].
  unfold extractFeatures. rewrite set_of_firstOccurrences.
  split; [apply firstOccurrences_NoDup|].
  split; [reflexivity|].
  split; [intros f; apply firstOccurrences_In|].
  split.
  - exists repeatedStoryText. vm_compute. intros H.
    inversion H as [|x l Hnin _]; subst. apply Hnin. left. reflexivity.
  - exists repeatedCriterionText. vm_compute. intros H.
    inversion H as [|x l Hnin _]; subst. apply Hnin. left. reflexivity.
Qed.

Lemma heuristic_extractors_witness :
  (extractFeatures repeatedFeatureText = extractFeatures repeatedFeatureText
   /\ extractUserStories repeatedFeatureText = extractUserStories repeatedFeatureText
   /\ extractAcceptanceCriteria repeatedFeatureText
      = extractAcceptanceCriteria repeatedFeatureText)
  /\ NoDup (extractFeatures repeatedFeatureText).
Proof.
  destruct (heuristic_extractors repeatedFeatureText) as (Hdet & Hnd & _).
  split; [apply (Hdet repeatedFeatureText eq_refl) | exact Hnd].
Defined.

(** The asymmetry on concrete texts: a repeated feature is listed once, a
    repeated story or criterion twice. *)
Example repeated_entries :
  extractFeatures repeatedFeatureText = ["checkout in one page"; "Checkout Process"]
  /\ extractUserStories repeatedStoryText
     = ["As a user, I want to pay"; "As a user, I want to pay"]
  /\ extractAcceptanceCriteria repeatedCriterionText = ["be fast"; "be fast"].
Proof. repeat split; vm_compute; reflexivity. Qed.

(** ** Markdown fences *)

Lemma prefix_app (p s : string) : String.prefix p (p ++ s) = true.
Proof.
  induction p as [|c p IH]; simpl; [apply prefix_empty|].
  destruct (ascii_dec c c); [assumption | congruence].
Qed.

Lemma prefix_inv (p s : string) :
  String.prefix p s = true -> exists s', s = p ++ s'.
Proof.
  revert s. induction p as [|c p IH]; intros s H.
  - exists s. reflexivity.
  - destruct s as [|x s]; simpl in H; [discriminate|].
    destruct (ascii_dec c x) as [->|]; [|discriminate].
    destruct (IH s H) as (s' & ->). exists s'. reflexivity.
Qed.

Lemma prefix_app_l (p a w : string) :
  String.prefix p a = true -> String.prefix p (a ++ w) = true.
Proof.
  revert a. induction p as [|c p IH]; intros a H; [apply prefix_empty|].
  destruct a as [|x a]; simpl in *; [discriminate|].
  destruct (ascii_dec c x); [auto | discriminate].
Qed.

Lemma includes_app_l (p a w : string) :
  Js.includes p a = true -> Js.includes p (a ++ w) = true.
Proof.
  induction a as [|c a IH]; intros H.
  - simpl in H. rewrite orb_false_r in H.
    destruct p; [|discriminate]. destruct w; reflexivity.
  - rewrite includes_cons in H. simpl append. rewrite includes_cons.
    apply orb_true_iff in H. apply orb_true_iff. destruct H as [H|H].
    + left. apply (prefix_app_l p (String c a) w H).
    + right. auto.
Qed.

(** A literal, compared exactly, matches the texts that start with it. *)
Lemma lit_match (p s : string) caps k :
  rmatch false (lit p) (p ++ s) caps k = k s caps.
Proof.
  induction p as [|c p IH]; [reflexivity|].
  destruct p as [|c' p'].
  - simpl. rewrite Ascii.eqb_refl. reflexivity.
  - change (lit (String c (String c' p'))) with (RSeq (RChar c) (lit (String c' p'))).
    cbn [rmatch append canon]. rewrite Ascii.eqb_refl. exact IH.
Qed.

Lemma lit_inv (p s : string) caps k res :
  rmatch false (lit p) s caps k = Some res ->
  exists s', s = p ++ s' /\ k s' caps = Some res.
Proof.
  revert s. induction p as [|c p IH]; intros s H.
  - exists s. auto.
  - destruct p as [|c' p'].
    + simpl in H. destruct s as [|x s]; [discriminate|].
      destruct (Ascii.eqb_spec c x) as [->|]; [|discriminate].
      exists s. auto.
    + change (lit (String c (String c' p'))) with (RSeq (RChar c) (lit (String c' p'))) in H.
      cbn [rmatch canon] in H. destruct s as [|x s]; [discriminate|].
      destruct (Ascii.eqb_spec c x) as [->|]; [|discriminate].
      destruct (IH s H) as (s' & -> & Hk). exists s'. auto.
Qed.

Lemma prefix_fence_leading (s : string) :
  String.prefix fence_chars s = (3 <=? leadingBackticks s).
Proof.
  unfold fence_chars.
  destruct s as [|a s]; [reflexivity|].
  rewrite prefix_cons_eqb. cbn [leadingBackticks]. rewrite (Ascii.eqb_sym "`" a).
  destruct (Ascii.eqb a "`"); [cbn [andb]|reflexivity].
  destruct s as [|b s]; [reflexivity|].
  rewrite prefix_cons_eqb. cbn [leadingBackticks]. rewrite (Ascii.eqb_sym "`" b).
  destruct (Ascii.eqb b "`"); [cbn [andb]|reflexivity].
  destruct s as [|c s]; [reflexivity|].
  rewrite prefix_cons_eqb. cbn [leadingBackticks]. rewrite (Ascii.eqb_sym "`" c).
  destruct (Ascii.eqb c "`"); [cbn [andb]|reflexivity].
  apply prefix_empty.
Qed.

(** Removal of a fence pattern: three backticks, then a tail that cannot
    fail (optional parts only). *)
Section FenceRemoval.

Variable tail : regex.
Hypothesis tail_total : forall s c k,
  (forall s' c', k s' c' <> None) -> rmatch false tail s c k <> None.

Lemma fence_match_iff (s : string) :
  match_here false (fenceOf tail) s <> None <-> 3 <= leadingBackticks s.
Proof.
  rewrite <- Nat.leb_le, <- prefix_fence_leading. split.
  - intros H. destruct (match_here false (fenceOf tail) s) as [[rest caps]|] eqn:E; [|congruence].
    unfold match_here, fenceOf in E. cbn [rmatch] in E.
    apply lit_inv in E. destruct E as (s' & -> & _). apply prefix_app.
  - intros H. apply prefix_inv in H. destruct H as (s' & ->).
    unfold match_here, fenceOf. cbn [rmatch]. rewrite lit_match.
    apply tail_total. intros; discriminate.
Qed.

Lemma fence_no_match (s : string) :
  leadingBackticks s < 3 -> match_here false (fenceOf tail) s = None.
Proof.
  intros H. destruct (match_here false (fenceOf tail) s) eqn:E; [|reflexivity].
  assert (3 <= leadingBackticks s) by (apply fence_match_iff; congruence). lia.
Qed.

Lemma fence_match_consumes (s rest : string) caps :
  match_here false (fenceOf tail) s = Some (rest, caps) ->
  exists n, String.length s - String.length rest = S n.
Proof.
  unfold match_here. intros H. apply rmatch_inv in H.
  destruct H as (s' & c' & H & L). inversion H; subst.
  unfold fenceOf in L. cbn [minlen] in L.
  change (minlen (lit fence_chars)) with 3 in L.
  exists (String.length s - String.length rest - 1). lia.
Qed.

(** Fewer than three leading backticks stay as they are. *)
Lemma remove_leading (s : string) :
  leadingBackticks s < 3 ->
  leadingBackticks (remove_from false (fenceOf tail) 0 s) = leadingBackticks s.
Proof.
  induction s as [|c s IH]; intros H; [reflexivity|].
  cbn [remove_from]. rewrite (fence_no_match _ H).
  simpl in *. destruct (Ascii.eqb c "`"); [|reflexivity].
  rewrite IH by lia. reflexivity.
Qed.

(** What is left after the removal holds no fence. *)
Lemma remove_no_fence (s : string) :
  forall skip, Js.includes fence_chars (remove_from false (fenceOf tail) skip s) = false.
Proof.
  induction s as [|c s IH]; intros skip; [reflexivity|].
  cbn [remove_from]. destruct skip as [|n]; [|apply IH].
  destruct (match_here false (fenceOf tail) (String c s)) as [[rest caps]|] eqn:E.
  - destruct (fence_match_consumes _ _ _ E) as (n & ->). apply IH.
  - rewrite includes_cons, IH, orb_false_r, prefix_fence_leading.
    apply Nat.leb_gt.
    assert (H : leadingBackticks (String c s) < 3).
    { destruct (le_lt_dec 3 (leadingBackticks (String c s))) as [H|H]; [|exact H].
      apply fence_match_iff in H. congruence. }
    simpl in *. destruct (Ascii.eqb c "`"); [|lia].
    rewrite remove_leading by lia. exact H.
Qed.

(** A text without a fence is left as it is. *)
Lemma remove_identity (s : string) :
  Js.includes fence_chars s = false -> remove_from false (fenceOf tail) 0 s = s.
Proof.
  induction s as [|c s IH]; intros H; [reflexivity|].
  rewrite includes_cons in H. apply orb_false_iff in H. destruct H as [Hp Hi].
  rewrite prefix_fence_leading in Hp. apply Nat.leb_gt in Hp.
  cbn [remove_from]. rewrite (fence_no_match _ Hp), IH by assumption. reflexivity.
Qed.

End FenceRemoval.

Lemma optional_total (icase : bool) (r : regex) (s : string) c k :
  (forall s' c', k s' c' <> None) -> rmatch icase (ROpt r) s c k <> None.
Proof.
  intros Hk. cbn [rmatch]. destruct (rmatch icase r s c k); [discriminate | apply Hk].
Qed.

Lemma sequence_total (icase : bool) (r1 r2 : regex) (s : string) c k :
  (forall s0 c0 k0, (forall s' c', k0 s' c' <> None) -> rmatch icase r1 s0 c0 k0 <> None) ->
  (forall s0 c0 k0, (forall s' c', k0 s' c' <> None) -> rmatch icase r2 s0 c0 k0 <> None) ->
  (forall s' c', k s' c' <> None) -> rmatch icase (RSeq r1 r2) s c k <> None.
Proof.
  intros H1 H2 Hk.
  change (rmatch icase (RSeq r1 r2) s c k)
    with (rmatch icase r1 s c (fun s1 c1 => rmatch icase r2 s1 c1 k)).
  apply H1. intros s' c'. apply H2. exact Hk.
Qed.

Lemma fenceWithLanguage_tail_total (s : string) c k :
  (forall s' c', k s' c' <> None) ->
  rmatch false
    (RSeq (ROpt (RAlt (lit "javascript")
                   (RAlt (lit "typescript") (RAlt (lit "js") (lit "ts")))))
          (ROpt (RChar (ascii_of_nat 10)))) s c k <> None.
Proof.
  apply sequence_total; intros s0 c0 k0 Hk; apply optional_total; exact Hk.
Qed.

Lemma removeAll_fenceWithLanguage_no_fence (s : string) :
  Js.includes fence_chars (removeAll false fenceWithLanguage s) = false.
Proof.
  apply remove_no_fence. exact fenceWithLanguage_tail_total.
Qed.

Lemma removeAll_identity (s : string) :
  Js.includes fence_chars s = false ->
  removeAll false fenceWithLanguage s = s /\ removeAll false fencePlain s = s.
Proof.
  intros H. split.
  - apply remove_identity; [exact fenceWithLanguage_tail_total | exact H].
  - apply remove_identity; [|exact H]. intros s0 c k Hk.
    apply optional_total. exact Hk.
Qed.

(** *** Trimming *)

Lemma includes_suffix (p a b : string) :
  Js.includes p (a ++ b) = false -> Js.includes p b = false.
Proof.
  induction a as [|c a IH]; [exact (fun H => H)|].
  cbn [append]. rewrite includes_cons. intros H.
  apply orb_false_iff in H. apply IH, H.
Qed.

Lemma trimStart_from_suffix (s : string) :
  forall skip, exists a, s = a ++ Js.trimStart_from skip s.
Proof.
  induction s as [|c s IH]; intros skip; [exists EmptyString; reflexivity|].
  cbn [Js.trimStart_from]. destruct skip as [|n].
  - destruct (Js.space_len (String c s)) as [|n].
    + exists EmptyString. reflexivity.
    + destruct (IH n) as (a & Ha). exists (String c a). cbn [append]. rewrite <- Ha.
      reflexivity.
  - destruct (IH n) as (a & Ha). exists (String c a). cbn [append]. rewrite <- Ha.
    reflexivity.
Qed.

Lemma trimStart_from_length (s : string) :
  forall skip, String.length (Js.trimStart_from skip s) <= String.length s.
Proof.
  intros skip. destruct (trimStart_from_suffix s skip) as (a & Ha).
  rewrite Ha at 2. rewrite length_append. lia.
Qed.

Lemma trimStart_length (s : string) : String.length (Js.trimStart s) <= String.length s.
Proof. apply trimStart_from_length. Qed.

(** What [trimStart] leaves does not start with white space. *)
Lemma trimStart_from_head (s : string) :
  forall skip, Js.space_len (Js.trimStart_from skip s) = 0.
Proof.
  induction s as [|c s IH]; intros skip; [reflexivity|].
  cbn [Js.trimStart_from]. destruct skip as [|n]; [|apply IH].
  destruct (Js.space_len (String c s)) as [|n] eqn:E; [exact E | apply IH].
Qed.

Lemma trimStart_no_space (s : string) : Js.space_len s = 0 -> Js.trimStart s = s.
Proof.
  destruct s as [|c s]; [reflexivity|]. unfold Js.trimStart. cbn [Js.trimStart_from].
  intros ->. reflexivity.
Qed.

Lemma trimStart_fixed_head (s : string) : Js.trimStart s = s -> Js.space_len s = 0.
Proof. intros H. rewrite <- H. apply trimStart_from_head. Qed.

Lemma includes_trimStart (p s : string) :
  Js.includes p s = false -> Js.includes p (Js.trimStart s) = false.
Proof.
  intros H. destruct (trimStart_from_suffix s 0) as (a & Ha).
  rewrite Ha in H. apply (includes_suffix p a), H.
Qed.

Lemma trimEnd_prefix (s : string) : exists w, s = Js.trimEnd s ++ w.
Proof.
  induction s as [|c s (w & IH)]; [exists EmptyString; reflexivity|].
  cbn [Js.trimEnd]. destruct (Js.white (String c s)).
  - exists (String c s). reflexivity.
  - exists w. cbn [append]. rewrite <- IH. reflexivity.
Qed.

Lemma includes_trimEnd (p s : string) :
  Js.includes p s = false -> Js.includes p (Js.trimEnd s) = false.
Proof.
  intros H. destruct (Js.includes p (Js.trimEnd s)) eqn:E; [|reflexivity].
  destruct (trimEnd_prefix s) as (w & Hw).
  apply (includes_app_l p _ w) in E. rewrite <- Hw in E. congruence.
Qed.

Lemma trimEnd_white (s : string) : Js.white s = true -> Js.trimEnd s = EmptyString.
Proof. destruct s as [|c s]; [reflexivity|]. cbn [Js.trimEnd]. intros ->. reflexivity. Qed.

Lemma white_cont (c : ascii) (s : string) :
  Js.is_cont c = true -> Js.white (String c s) = false.
Proof.
  intros H. unfold Js.white. cbn [Js.white_from]. rewrite (space_len_cont c s H).
  reflexivity.
Qed.

(** The bytes that continue a character are kept. *)
Lemma trimEnd_conts (w b : string) :
  conts (String.length w) (w ++ b) = true -> Js.trimEnd (w ++ b) = w ++ Js.trimEnd b.
Proof.
  induction w as [|c w IH]; [reflexivity|].
  cbn [String.length conts append]. intros H. apply andb_true_iff in H.
  destruct H as [Hc H]. cbn [Js.trimEnd].
  change (String c (w ++ b)) with (String c (w ++ b)).
  rewrite (white_cont c (w ++ b) Hc), (IH H). reflexivity.
Qed.

(** A text that is not white space only keeps a character that is not
    white space. *)
Lemma trimEnd_not_white (s : string) :
  Js.white s = false -> Js.white (Js.trimEnd s) = false.
Proof.
  remember (String.length s) as m eqn:Em.
  assert (L : String.length s <= m) by lia. clear Em.
  revert s L. induction m as [|m IH]; intros s L H.
  - destruct s; [discriminate | simpl in L; lia].
  - destruct s as [|c s]; [discriminate|].
    cbn [Js.trimEnd]. rewrite H.
    unfold Js.white. cbn [Js.white_from].
    destruct (Js.space_len (String c (Js.trimEnd s))) as [|n] eqn:E; [reflexivity|].
    destruct (trimEnd_prefix s) as (w & Hw).
    assert (E' : Js.space_len (String c s) = S n).
    { rewrite Hw. apply (space_len_app (String c (Js.trimEnd s)) w n E). }
    unfold Js.white in H. cbn [Js.white_from] in H. rewrite E' in H.
    pose proof (char_len_conts c s n (space_char_len _ _ E')) as Hc.
    pose proof (space_len_le (String c s)) as Hn. rewrite E' in Hn.
    cbn [String.length] in Hn, L.
    destruct (drop_split n s) as (w1 & Hs & Hl); [lia|].
    assert (Ht : Js.trimEnd s = w1 ++ Js.trimEnd (Js.drop n s)).
    { rewrite Hs at 1. apply trimEnd_conts. rewrite Hl, <- Hs. exact Hc. }
    rewrite white_from_drop in H |- *.
    rewrite Ht.
    replace (Js.drop n (w1 ++ Js.trimEnd (Js.drop n s))) with (Js.trimEnd (Js.drop n s))
      by (symmetry; rewrite <- Hl at 1; apply drop_app).
    apply IH; [rewrite drop_length; lia | exact H].
Qed.

Lemma trimEnd_idempotent (s : string) : Js.trimEnd (Js.trimEnd s) = Js.trimEnd s.
Proof.
  induction s as [|c s IH]; [reflexivity|].
  destruct (Js.white (String c s)) eqn:E.
  - rewrite (trimEnd_white _ E). reflexivity.
  - pose proof (trimEnd_not_white _ E) as H. cbn [Js.trimEnd] in H |- *.
    rewrite E in H |- *. cbn [Js.trimEnd]. rewrite H, IH. reflexivity.
Qed.

Lemma trimStart_fixed (s : string) :
  Js.trimStart (Js.trimEnd (Js.trimStart s)) = Js.trimEnd (Js.trimStart s).
Proof.
  apply trimStart_no_space.
  destruct (Js.space_len (Js.trimEnd (Js.trimStart s))) as [|n] eqn:E; [reflexivity|].
  destruct (trimEnd_prefix (Js.trimStart s)) as (w & Hw).
  pose proof (space_len_app _ w n E) as E'. rewrite <- Hw in E'.
  unfold Js.trimStart in E'. rewrite trimStart_from_head in E'. discriminate.
Qed.

Lemma trim_idempotent (s : string) : Js.trim (Js.trim s) = Js.trim s.
Proof.
  unfold Js.trim. rewrite trimStart_fixed. apply trimEnd_idempotent.
Qed.

(** C9.  Cleaning a cleaned text changes nothing. *)
Theorem cleanGeneratedCode_idempotent (s : string) :
  cleanGeneratedCode (cleanGeneratedCode s) = cleanGeneratedCode s.
Proof.
  assert (Hclean : forall t, Js.includes fence_chars t = false ->
                             cleanGeneratedCode t = Js.trim t).
  { intros t Ht. unfold cleanGeneratedCode.
    destruct (removeAll_identity t Ht) as (-> & ->). reflexivity. }
  assert (H1 : Js.includes fence_chars (removeAll false fenceWithLanguage s) = false)
    by apply removeAll_fenceWithLanguage_no_fence.
  assert (Hs : cleanGeneratedCode s = Js.trim (removeAll false fenceWithLanguage s)).
  { unfold cleanGeneratedCode.
    rewrite (proj2 (removeAll_identity _ H1)). reflexivity. }
  rewrite Hs, Hclean.
  - apply trim_idempotent.
  - unfold Js.trim. apply includes_trimEnd, includes_trimStart, H1.
Qed.

Example clean_fenced_answer :
  cleanGeneratedCode ("```js" ++ Js.nl ++ "cy.visit('/');" ++ Js.nl ++ "```" ++ Js.nl)
  = "cy.visit('/');".
Proof. vm_compute. reflexivity. Qed.

(** ** CodeGenerator: the bypass *)

(** The first test of both generators: test data with a truthy url ends
    the generation at once, before any effect. *)
Lemma generators_on_url_bearing (h : Host) (testCase : ITestCase) (td : TestData)
      (t : list Event) :
  urlBearing (testData testCase) = Some td ->
  generateCypressCode h testCase t = (Ok (generateCypressCodeForURL testCase td), t)
  /\ generatePlaywrightCode h testCase t
     = (Ok (generatePlaywrightCodeForURL testCase td), t).
Proof.
  intros Hb. unfold generateCypressCode, generatePlaywrightCode. rewrite Hb.
  split; reflexivity.
Qed.

(** C1.  For a test case whose test data has a url, both generators
    return the URL template of their framework and leave the record of
    events as it was: no request is made.  The host does not matter, be
    its remote capability available, absent or failing. *)
Theorem url_bearing_case_bypasses_remote
        (h : Host) (testCase : ITestCase) (td : TestData) (u : string) (t : list Event) :
  testData testCase = Some td -> url td = Some u -> u <> EmptyString ->
  generateCypressCode h testCase t = (Ok (generateCypressCodeForURL testCase td), t)
  /\ generatePlaywrightCode h testCase t = (Ok (generatePlaywrightCodeForURL testCase td), t)
  /\ forall h', generateCypressCode h' testCase t = generateCypressCode h testCase t
                /\ generatePlaywrightCode h' testCase t = generatePlaywrightCode h testCase t.
Proof.
  intros Htd Hu Hne.
  assert (Hb : urlBearing (testData testCase) = Some td).
  { rewrite Htd. unfold urlBearing. rewrite Hu. simpl.
    apply String.eqb_neq in Hne. rewrite Hne. reflexivity. }
  destruct (generators_on_url_bearing h testCase td t Hb) as [Hc Hp].
  split; [exact Hc|]. split; [exact Hp|].
  intros h'. destruct (generators_on_url_bearing h' testCase td t Hb) as [Hc' Hp'].
  rewrite Hc, Hp, Hc', Hp'. split; reflexivity.
Qed.

Lemma url_bearing_case_bypasses_remote_witness :
  let td := mkTestData (Some "https://example.com/login") (Some "u") (Some "p") in
  let testCase := hd generateGenericTestCase (generateLoginTestCasesForURL td) in
  generateCypressCode offlineHost testCase []
  = (Ok (generateCypressCodeForURL testCase td), [])
  /\ generatePlaywrightCode thinHost testCase []
     = (Ok (generatePlaywrightCodeForURL testCase td), []).
Proof.
  intros td testCase. split.
  - apply (url_bearing_case_bypasses_remote offlineHost testCase td
             "https://example.com/login" [] eq_refl eq_refl).
    discriminate.
  - apply (url_bearing_case_bypasses_remote thinHost testCase td
             "https://example.com/login" [] eq_refl eq_refl).
    discriminate.
Defined.

(** From the text to the code: every case synthesized in URL mode from a
    parsed text takes the bypass. *)
Corollary synthesized_cases_take_bypass (h : Host) (prd : string) (td : TestData)
          (testCase : ITestCase) (t : list Event) :
  parseTestDataFromPRD prd = Some td ->
  In testCase (generateLoginTestCasesForURL td) ->
  generateCypressCode h testCase t = (Ok (generateCypressCodeForURL testCase td), t)
  /\ generatePlaywrightCode h testCase t
     = (Ok (generatePlaywrightCodeForURL testCase td), t).
Proof.
  intros Hp Hin. apply generators_on_url_bearing.
  assert (Htruthy : Js.truthy (url td) = true).
  { unfold parseTestDataFromPRD in Hp.
    destruct (Js.truthy (url (fold_left parseLine (linesOf prd) emptyTestData))) eqn:E;
      [|discriminate].
    inversion Hp; subst td. exact E. }
  assert (Htd : testData testCase = Some td).
  { simpl in Hin. destruct Hin as [<- | [<- | [<- | [<- | []]]]]; reflexivity. }
  rewrite Htd. unfold urlBearing. rewrite Htruthy. reflexivity.
Qed.

(** The scenario of the specification: the code of login-001 holds the
    url and the credentials of the text as they are. *)
Example login_001_code_verbatim :
  match parseTestDataFromPRD quickTestText with
  | Some td =>
      let code := generateCypressCodeForURL
                    (hd generateGenericTestCase (generateLoginTestCasesForURL td)) td in
      Js.includes "cy.visit('https://example.com/login');" code
      && Js.includes ".type('u'," code && Js.includes ".type('p'," code
  | None => false
  end = true.
Proof. vm_compute. reflexivity. Qed.

(** ** RemoteAnalysisClient and its caller *)

(** What the remote path resolves to, read off its definition. *)
Lemma remoteAnalysis_outcome (h : Host) (prd : string) (t : list Event) :
  fst (remoteAnalysis h prd t)
  = if Js.truthy (openaiApiKey h) then
      match fetch h (fetchCount t) (analysisRequest h prd) with
      | FetchRejected reason => Throw (FetchFailed reason)
      | FetchResponse ok statusText body =>
          if ok then
            match decodedAnswer h body with
            | Throw e => Throw e
            | Ok (JObj fields) =>
                match lookup "testCases" fields with
                | Some (JArr elements) =>
                    Ok (RemoteAnalysis
                          (JObj (setField "testCases" (JArr (map stampPending elements))
                                   fields)))
                | _ => Throw TypeError
                end
            | Ok _ => Throw TypeError
            end
          else Throw (ApiError statusText
                        (match JSON_parse h body with Some j => j | None => JObj [] end))
      end
    else Throw ApiKeyNotConfigured.
Proof.
  unfold remoteAnalysis, callOpenAIWithModel, analysisRequest, decodedAnswer,
    bind, try_catch, doFetch, lift, throw, ret, emit, parseJson.
  destruct (Js.truthy (openaiApiKey h)); cbn [negb fst snd]; [|reflexivity].
  destruct (fetch h (fetchCount t) _) as [reason | ok statusText body];
    cbn [negb fst snd]; [reflexivity|].
  destruct ok; cbn [negb fst snd]; [|reflexivity].
  destruct (JSON_parse h body) as [data|]; cbn [fst snd]; [|reflexivity].
  destruct (contentOf data) as [content|e]; cbn [fst snd]; [|reflexivity].
  destruct (JSON_parse h (toStringValue content)) as [analysis|]; cbn [fst snd];
    [|reflexivity].
  destruct analysis as [ | b | r | s | l | fields ]; cbn [getField fst snd];
    try reflexivity.
  destruct (lookup "testCases" fields) as [[ | b | r | s | l | fs ]|]; reflexivity.
Qed.

Lemma analyzePRD_returns (h : Host) (prd : string) (t : list Event) :
  exists a, fst (analyzePRD h prd t) = Ok a.
Proof.
  unfold analyzePRD.
  destruct (urlBearing (parseTestDataFromPRD prd)) as [td|].
  - eexists. reflexivity.
  - unfold try_catch. destruct (remoteAnalysis h prd t) as [[a|e] t'].
    + exists a. reflexivity.
    + eexists. reflexivity.
Qed.

(** C2, as amended.  The remote path fails exactly when the credential is
    absent or empty, the transport rejects the request or reports a
    non-success status, the body is not JSON, the content of the first
    choice cannot be read or is not JSON, or the parsed value is not an
    object with an array [testCases]; the rest of the expected shape is not
    asked for.  The failure is thrown to the caller: [analyzePRD] always
    returns an analysis, and on a failure of the remote path it returns the
    one of the deterministic analyzer. *)
Theorem remote_failure_and_fallback (h : Host) (prd : string) (t : list Event) :
  ((exists e, fst (remoteAnalysis h prd t) = Throw e) <-> remoteFails h (fetchCount t) prd)
  /\ (exists a, fst (analyzePRD h prd t) = Ok a)
  /\ (parseTestDataFromPRD prd = None -> remoteFails h (fetchCount t) prd ->
      fst (analyzePRD h prd t) = Ok (Analysis (analyzePRDFallback prd))).
Proof.
  assert (Hiff : (exists e, fst (remoteAnalysis h prd t) = Throw e)
                 <-> remoteFails h (fetchCount t) prd).
  { rewrite remoteAnalysis_outcome. unfold remoteFails.
    destruct (Js.truthy (openaiApiKey h));
      [|split; [intros _; left; reflexivity | intros _; eexists; reflexivity]].
    destruct (fetch h (fetchCount t) (analysisRequest h prd)) as [reason|ok st body];
      [split; [intros _; right; exact I | intros _; eexists; reflexivity]|].
    destruct ok;
      [|split; [intros _; right; left; reflexivity | intros _; eexists; reflexivity]].
    destruct (decodedAnswer h body) as [[ | b | r | s | l | fields ]|e];
      try (split; [intros _; right; right; exact I | intros _; eexists; reflexivity]).
    destruct (lookup "testCases" fields) as [[ | b | r | s | l | fs ]|];
      try (split; [intros _; right; right; reflexivity | intros _; eexists; reflexivity]).
    split.
    - intros [e He]. discriminate He.
    - intros [H | [H | H]]; discriminate H. }
  split; [exact Hiff|]. split; [apply analyzePRD_returns|].
  intros Hnone Hfail. apply Hiff in Hfail. destruct Hfail as [e He].
  unfold analyzePRD. rewrite Hnone. cbn [urlBearing].
  unfold try_catch. destruct (remoteAnalysis h prd t) as [[a|e'] t'].
  - discriminate He.
  - reflexivity.
Qed.

Lemma remote_failure_and_fallback_witness :
  fst (analyzePRD offlineHost "Users should be able to search for products" [])
  = Ok (Analysis (analyzePRDFallback "Users should be able to search for products")).
Proof.
  apply (proj2 (proj2 (remote_failure_and_fallback offlineHost
                         "Users should be able to search for products" []))).
  - vm_compute. reflexivity.
  - left. reflexivity.
Defined.

(** C2, as stated, fails: the answer below is JSON that lacks three of the
    four arrays of the expected shape, and the remote path returns it. *)
Lemma remote_thin_answer_counterexample :
  fst (remoteAnalysis thinHost "The system exports a monthly report" [])
  = Ok (RemoteAnalysis (JObj [("testCases", JArr [])]))
  /\ fst (analyzePRD thinHost "The system exports a monthly report" [])
     = Ok (RemoteAnalysis (JObj [("testCases", JArr [])]))
  /\ ~ ((exists e, fst (remoteAnalysis thinHost "The system exports a monthly report" [])
                   = Throw e)
        <-> remoteFailsOfSpec thinHost 0 "The system exports a monthly report").
Proof.
  assert (Hok : fst (remoteAnalysis thinHost "The system exports a monthly report" [])
                = Ok (RemoteAnalysis (JObj [("testCases", JArr [])])))
    by (vm_compute; reflexivity).
  split; [exact Hok|]. split; [vm_compute; reflexivity|].
  intros [_ Hspec].
  assert (Hfail : remoteFailsOfSpec thinHost 0 "The system exports a monthly report")
    by (right; vm_compute; right; reflexivity).
  destruct (Hspec Hfail) as [e He]. rewrite Hok in He. discriminate He.
Qed.

(** ** Persistence of the generated files *)

Lemma written_app (t1 t2 : list Event) :
  written (t1 ++ t2)%list = (written t1 ++ written t2)%list.
Proof. unfold written. apply flat_map_app. Qed.

Lemma quiet_ret {A : Type} (a : A) : quiet (ret a).
Proof. intros t. reflexivity. Qed.

Lemma quiet_throw {A : Type} (e : Error) : quiet (@throw A e).
Proof. intros t. reflexivity. Qed.

Lemma quiet_lift {A : Type} (r : Result A) : quiet (lift r).
Proof. intros t. reflexivity. Qed.

Lemma quiet_console (level : ConsoleLevel) (text : string) :
  quiet (emit (EvConsole level text)).
Proof.
  intros t. unfold emit. cbn [snd]. rewrite written_app. simpl. apply app_nil_r.
Qed.

Lemma quiet_bind {A B : Type} (m : M A) (f : A -> M B) :
  quiet m -> (forall a, quiet (f a)) -> quiet (bind m f).
Proof.
  intros Hm Hf t. unfold bind. specialize (Hm t).
  destruct (m t) as [[a|e] t']; cbn [snd] in *.
  - rewrite (Hf a t'). exact Hm.
  - exact Hm.
Qed.

Lemma quiet_try_catch {A : Type} (m : M A) (handler : Error -> M A) :
  quiet m -> (forall e, quiet (handler e)) -> quiet (try_catch m handler).
Proof.
  intros Hm Hh t. unfold try_catch. specialize (Hm t).
  destruct (m t) as [[a|e] t']; cbn [snd] in *.
  - exact Hm.
  - rewrite (Hh e t'). exact Hm.
Qed.

Lemma quiet_doFetch (h : Host) (request : Request) : quiet (doFetch h request).
Proof.
  intros t. unfold doFetch.
  destruct (fetch h (fetchCount t) request); cbn [snd];
    rewrite written_app; simpl; apply app_nil_r.
Qed.

Create HintDb quiet.
#[local] Hint Resolve quiet_ret quiet_throw quiet_lift quiet_console quiet_doFetch : quiet.

Lemma quiet_callOpenAIWithModel (h : Host) (prompt systemPrompt model : string) :
  quiet (callOpenAIWithModel h prompt systemPrompt model).
Proof.
  unfold callOpenAIWithModel.
  destruct (negb (Js.truthy (openaiApiKey h))); [apply quiet_throw|].
  apply quiet_try_catch.
  - apply quiet_bind; [apply quiet_doFetch|].
    intros [[ok statusText] body].
    destruct (negb ok); [apply quiet_throw|].
    apply quiet_bind; auto with quiet.
  - intros e. apply quiet_bind; auto with quiet.
Qed.

Lemma returns_try_catch {A : Type} (m : M A) (handler : Error -> M A) :
  (forall e, returns (handler e)) -> returns (try_catch m handler).
Proof.
  intros Hh t. unfold try_catch. destruct (m t) as [[a|e] t'].
  - exists a. reflexivity.
  - apply Hh.
Qed.

Lemma returns_after_console {A : Type} (level : ConsoleLevel) (text : string) (a : A) :
  returns (bind (emit (EvConsole level text)) (fun _ => ret a)).
Proof. intros t. exists a. reflexivity. Qed.

(** The generators always return, and write nothing. *)
Lemma generateCypressCode_quiet (h : Host) (testCase : ITestCase) :
  quiet (generateCypressCode h testCase) /\ returns (generateCypressCode h testCase).
Proof.
  unfold generateCypressCode.
  destruct (urlBearing (testData testCase)) as [td|].
  - split; [apply quiet_ret | intros t; eexists; reflexivity].
  - split.
    + apply quiet_try_catch.
      * apply quiet_bind; [apply quiet_callOpenAIWithModel | auto with quiet].
      * intros e. apply quiet_bind; auto with quiet.
    + apply returns_try_catch. intros e. apply returns_after_console.
Qed.

Lemma generatePlaywrightCode_quiet (h : Host) (testCase : ITestCase) :
  quiet (generatePlaywrightCode h testCase) /\ returns (generatePlaywrightCode h testCase).
Proof.
  unfold generatePlaywrightCode.
  destruct (urlBearing (testData testCase)) as [td|].
  - split; [apply quiet_ret | intros t; eexists; reflexivity].
  - split.
    + apply quiet_try_catch.
      * apply quiet_bind; [apply quiet_callOpenAIWithModel | auto with quiet].
      * intros e. apply quiet_bind; auto with quiet.
    + apply returns_try_catch. intros e. apply returns_after_console.
Qed.

(** The code of a test case and the extension of its file. *)
Lemma codeAndExtension_result (h : Host) (framework : string) (testCase : ITestCase)
      (t : list Event) :
  exists code t',
    codeAndExtension h framework testCase t = (Ok (code, extensionOf framework), t')
    /\ written t' = written t.
Proof.
  assert (Hstep : forall (m : M string) (ext : string),
             quiet m /\ returns m ->
             exists code t',
               bind m (fun code => ret (code, ext)) t = (Ok (code, ext), t')
               /\ written t' = written t).
  { intros m ext [Hq Hr]. unfold bind, ret.
    specialize (Hq t). destruct (Hr t) as [code Hc].
    destruct (m t) as [[a|e] t']; cbn [fst snd] in *; [|discriminate].
    exists a, t'. auto. }
  assert (Hstored : forall v : string, quiet (ret v) /\ returns (ret v))
    by (intros v; split; [apply quiet_ret | intros t0; eexists; reflexivity]).
  unfold codeAndExtension, extensionOf.
  destruct (String.eqb framework "cypress");
    [|destruct (String.eqb framework "playwright")];
    apply Hstep;
    match goal with
    | |- context [if ?b then _ else _] => destruct b
    end;
    auto using generateCypressCode_quiet, generatePlaywrightCode_quiet.
Qed.

(** The loop writes one file per test case, in the order of the list. *)
Lemma saveLoop_result (h : Host) (root framework : string) (testCases : list ITestCase) :
  forall files t,
  exists codes t',
    saveLoop h (testDirOf root framework) framework testCases files t
    = (Ok (files ++ map (testFilePath root framework) testCases)%list, t')
    /\ length codes = length testCases
    /\ written t'
       = (written t ++ combine (map (testFilePath root framework) testCases) codes)%list.
Proof.
  induction testCases as [|testCase rest IH]; intros files t.
  - exists [], t. simpl. rewrite !app_nil_r. auto.
  - destruct (codeAndExtension_result h framework testCase t) as (code & t1 & Hc & Hw).
    destruct (IH (files ++ [testFilePath root framework testCase])%list
                 (t1 ++ [EvWriteFile (testFilePath root framework testCase) code])%list)
      as (codes & t' & Hl & Hlen & Hw').
    exists (code :: codes), t'.
    cbn [saveLoop]. unfold bind at 1. rewrite Hc. cbn [fst snd].
    unfold bind at 1, emit at 1. unfold fsPath.
    change (joinPath (testDirOf root framework) [id testCase ++ extensionOf framework])
      with (testFilePath root framework testCase).
    rewrite Hl. split; [|split].
    + rewrite <- app_assoc. reflexivity.
    + simpl. rewrite Hlen. reflexivity.
    + rewrite Hw', written_app, Hw. simpl. rewrite <- app_assoc. reflexivity.
Qed.

Lemma suiteContent_truthy (framework : string) (files : list string) :
  Js.truthy (Some (suiteContent framework files)) = hasSuite framework.
Proof.
  unfold suiteContent, hasSuite.
  destruct (String.eqb framework "cypress"); [reflexivity|].
  destruct (String.eqb framework "playwright"); reflexivity.
Qed.

Lemma includes_self (p b : string) : Js.includes p (p ++ b) = true.
Proof.
  destruct (p ++ b) as [|c r] eqn:E.
  - destruct p; [reflexivity | discriminate].
  - rewrite includes_cons, <- E, prefix_app. reflexivity.
Qed.

Lemma includes_app_r (p a b : string) :
  Js.includes p b = true -> Js.includes p (a ++ b) = true.
Proof.
  intros H. induction a as [|c a IH]; [exact H|].
  simpl append. rewrite includes_cons, IH. apply orb_true_r.
Qed.

Lemma includes_middle (p a b : string) : Js.includes p (a ++ p ++ b) = true.
Proof. apply includes_app_r, includes_self. Qed.

Lemma join_has_element (sep x : string) (l : list string) :
  In x l -> exists a b, Js.join sep l = a ++ x ++ b.
Proof.
  unfold Js.join. induction l as [|y l IH]; intros Hin; [destruct Hin|].
  destruct Hin as [-> | Hin].
  - destruct l as [|z l].
    + exists EmptyString, EmptyString. simpl. rewrite append_nil_r. reflexivity.
    + exists EmptyString, (sep ++ String.concat sep (z :: l)). reflexivity.
  - destruct (IH Hin) as (a & b & E). destruct l as [|z l]; [destruct Hin|].
    exists (y ++ sep ++ a), b.
    change (String.concat sep (y :: z :: l)) with (y ++ sep ++ String.concat sep (z :: l)).
    rewrite E, !append_assoc. reflexivity.
Qed.

(** The suite of a framework that has one names every file by its base
    name, as a relative path. *)
Lemma suite_references_files (framework : string) (files : list string) (file : string) :
  hasSuite framework = true -> In file files ->
  Js.includes ("'./" ++ baseName file ++ "'") (suiteContent framework files) = true.
Proof.
  unfold hasSuite, suiteContent. intros Hs Hin.
  destruct (String.eqb framework "cypress").
  - apply (in_map (fun f => "require('./" ++ baseName f ++ "');")) in Hin.
    destruct (join_has_element (Js.nl ++ Js.tab) _ _ Hin) as (a & b & E).
    cbn [Js.join String.concat] in *. rewrite E.
    do 4 apply includes_app_r. rewrite !append_assoc. do 2 apply includes_app_r.
    match goal with
    | |- Js.includes ?p (_ ++ _ ++ _ ++ ?r) = true =>
        assert (Hr : "require('./" ++ baseName file ++ "');" ++ r
                     = "require(" ++ p ++ ");" ++ r)
          by (simpl; rewrite append_assoc; reflexivity)
    end.
    rewrite Hr. apply includes_middle.
  - destruct (String.eqb framework "playwright"); [|discriminate].
    apply (in_map (fun f => "import './" ++ baseName f ++ "';")) in Hin.
    destruct (join_has_element Js.nl _ _ Hin) as (a & b & E).
    cbn [Js.join String.concat] in *. rewrite E.
    do 2 apply includes_app_r. rewrite !append_assoc. apply includes_app_r.
    match goal with
    | |- Js.includes ?p (_ ++ _ ++ _ ++ ?r) = true =>
        assert (Hr : "import './" ++ baseName file ++ "';" ++ r
                     = "import " ++ p ++ ";" ++ r)
          by (simpl; rewrite append_assoc; reflexivity)
    end.
    rewrite Hr. apply includes_middle.
Qed.



(** The files of a run for cypress: the two cases, then the suite. *)
Example cypress_run_files :
  map fst (written (snd (saveTestFiles offlineHost storedCases "cypress" [])))
  = [ "/ws/tests/cypress/generated/t1.cy.js";
      "/ws/tests/cypress/generated/t2.cy.js";
      "/ws/tests/cypress/generated/test-suite.cy.js" ]
  /\ suiteContent "cypress" (map (testFilePath "/ws" "cypress") storedCases)
     = "// Auto-generated test suite" ++ Js.nl
       ++ "describe('Automated Test Suite', () => {" ++ Js.nl
       ++ Js.tab ++ "require('./t1.cy.js');" ++ Js.nl
       ++ Js.tab ++ "require('./t2.cy.js');" ++ Js.nl
       ++ "});".
Proof. split; vm_compute; reflexivity. Qed.


(** ** The execution commands *)

(** X1.  Every command list starts with the dependency check of the
    framework; cypress gets one more command, playwright and puppeteer two
    more, and any other framework none: it gets no run command at all. *)
Theorem execution_commands_shape (framework : string) (testFiles : list string)
        (options : ExecutionOptions) :
  hd_error (getExecutionCommands framework testFiles options)
  = Some (dependencyCheck framework)
  /\ length (getExecutionCommands framework testFiles options)
     = if String.eqb framework "cypress" then 2
       else if String.eqb framework "playwright" then 3
       else if String.eqb framework "puppeteer" then 3
       else 1.
Proof.
  unfold getExecutionCommands.
  destruct (String.eqb framework "cypress");
    [destruct (headed options); split; reflexivity|].
  destruct (String.eqb framework "playwright");
    [destruct (headed options); split; reflexivity|].
  destruct (String.eqb framework "puppeteer"); split; reflexivity.
Qed.

(** X2.  The browser option reaches the commands of a headless playwright
    run only: for every other framework, and for a headed run, any two
    browsers give the same commands.  A headed cypress run ignores the test
    files as well, and in a headless playwright run an absent or empty
    browser is chromium. *)
Theorem execution_options_ignored (framework : string) (testFiles : list string)
        (isHeaded : bool) (browser1 browser2 : option string) :
  (String.eqb framework "playwright" && negb isHeaded = false ->
   getExecutionCommands framework testFiles (mkOptions isHeaded browser1)
   = getExecutionCommands framework testFiles (mkOptions isHeaded browser2))
  /\ (forall otherFiles,
        getExecutionCommands "cypress" testFiles (mkOptions true browser1)
        = getExecutionCommands "cypress" otherFiles (mkOptions true browser2))
  /\ (Js.truthy browser1 = false ->
      getExecutionCommands "playwright" testFiles (mkOptions false browser1)
      = getExecutionCommands "playwright" testFiles (mkOptions false (Some "chromium"))).
Proof.
  split; [|split].
  - unfold getExecutionCommands. cbn [headed browser].
    destruct (String.eqb framework "cypress"); [reflexivity|].
    destruct (String.eqb framework "playwright"); [|reflexivity].
    destruct isHeaded; [reflexivity | discriminate].
  - intros otherFiles. reflexivity.
  - intros Hb. unfold getExecutionCommands. cbn [headed browser String.eqb Ascii.eqb].
    rewrite Hb. reflexivity.
Qed.

Lemma execution_options_ignored_witness :
  getExecutionCommands "playwright" ["a.spec.js"] (mkOptions true (Some "firefox"))
  = getExecutionCommands "playwright" ["a.spec.js"] (mkOptions true None)
  /\ getExecutionCommands "playwright" ["a.spec.js"] (mkOptions false (Some ""))
     = getExecutionCommands "playwright" ["a.spec.js"] (mkOptions false (Some "chromium")).
Proof.
  split.
  - apply (proj1 (execution_options_ignored "playwright" ["a.spec.js"] true
                    (Some "firefox") None)).
    reflexivity.
  - apply (proj2 (proj2 (execution_options_ignored "playwright" ["a.spec.js"] false
                           (Some "") None))).
    reflexivity.
Defined.

(** X3.  A puppeteer run executes the first test file only: the commands
    do not depend on the other files nor on the options, the dependency
    check is sent twice, and with no file at all the run command is
    [node undefined]. *)
Theorem puppeteer_runs_first_file_only (file : string) (rest1 rest2 : list string)
        (options1 options2 : ExecutionOptions) :
  getExecutionCommands "puppeteer" (file :: rest1) options1
  = getExecutionCommands "puppeteer" (file :: rest2) options2
  /\ getExecutionCommands "puppeteer" (file :: rest1) options1
     = [dependencyCheck "puppeteer"; dependencyCheck "puppeteer"; "node " ++ file]
  /\ getExecutionCommands "puppeteer" [] options1
     = [dependencyCheck "puppeteer"; dependencyCheck "puppeteer"; "node undefined"].
Proof. repeat split. Qed.

(** ** The credential *)

Lemma call_without_key (h : Host) (prompt systemPrompt model : string) (t : list Event) :
  Js.truthy (openaiApiKey h) = false ->
  callOpenAIWithModel h prompt systemPrompt model t = (Throw ApiKeyNotConfigured, t).
Proof.
  intros Hk. unfold callOpenAIWithModel. rewrite Hk. reflexivity.
Qed.

(** A failed read of a property is a TypeError. *)
Lemma getField_throws (v : option Json) (key : string) (e : Error) :
  getField v key = Throw e -> e = TypeError.
Proof.
  destruct v as [[ | b | r | s | l | fs ]|]; simpl; intros H;
    inversion H; reflexivity.
Qed.

Lemma getFirst_throws (v : option Json) (e : Error) :
  getFirst v = Throw e -> e = TypeError.
Proof.
  destruct v as [[ | b | r | [|c s] | l | fs ]|]; simpl; intros H;
    inversion H; reflexivity.
Qed.

Lemma contentOf_throws (data : Json) (e : Error) :
  contentOf data = Throw e -> e = TypeError.
Proof.
  unfold contentOf.
  destruct (getField (Some data) "choices") as [choices|e1] eqn:E1;
    [|intros H; inversion H; subst; eapply getField_throws; eassumption].
  destruct (getFirst choices) as [first|e2] eqn:E2;
    [|intros H; inversion H; subst; eapply getFirst_throws; eassumption].
  destruct (getField first "message") as [message|e3] eqn:E3;
    [|intros H; inversion H; subst; eapply getField_throws; eassumption].
  apply getField_throws.
Qed.

(** What a remote call resolves to, and the events it adds: one request
    when there is a key, and one line on the console when the call fails
    after that. *)
Lemma call_outcome (h : Host) (prompt systemPrompt model : string) (t : list Event) :
  let request := mkRequest openaiEndpoint ("Bearer " ++ Js.show (openaiApiKey h))
                   model systemPrompt prompt in
  let outcome :=
    if Js.truthy (openaiApiKey h) then
      match fetch h (fetchCount t) request with
      | FetchRejected reason => Throw (FetchFailed reason)
      | FetchResponse ok statusText body =>
          if ok then
            match parseJson h body with
            | Throw e => Throw e
            | Ok data => contentOf data
            end
          else Throw (ApiError statusText
                        (match JSON_parse h body with Some j => j | None => JObj [] end))
      end
    else Throw ApiKeyNotConfigured in
  callOpenAIWithModel h prompt systemPrompt model t
  = (outcome,
     if Js.truthy (openaiApiKey h) then
       (t ++ EvFetch request
          :: match outcome with
             | Ok _ => []
             | Throw _ => [EvConsole ErrorLevel "OpenAI API call failed:"]
             end)%list
     else t).
Proof.
  cbv zeta. unfold callOpenAIWithModel.
  destruct (Js.truthy (openaiApiKey h)); cbn [negb]; [|reflexivity].
  unfold try_catch, bind, doFetch, throw, emit, lift.
  destruct (fetch h (fetchCount t) _) as [reason|ok st body]; cbn [fst snd].
  - rewrite <- app_assoc. reflexivity.
  - destruct ok; cbn [negb fst snd].
    + destruct (parseJson h body) as [data|e]; cbn [fst snd].
      * destruct (contentOf data) as [c|e]; cbn [fst snd];
          [|rewrite <- app_assoc]; reflexivity.
      * rewrite <- app_assoc. reflexivity.
    + rewrite <- app_assoc. reflexivity.
Qed.

(** X4.  A key set at run time wins over the setting: after [setApiKey]
    with a non-empty key, [getApiKey] returns this key whatever the setting
    holds, and the next call is not refused for want of a key. *)
Theorem runtime_key_takes_precedence (h : Host) (apiKey : string)
        (configured : option string) (prompt systemPrompt model : string)
        (t : list Event) :
  apiKey <> EmptyString ->
  getApiKey (setApiKey apiKey h) configured = Some apiKey
  /\ fst (callOpenAIWithModel (setApiKey apiKey h) prompt systemPrompt model t)
     <> Throw ApiKeyNotConfigured.
Proof.
  intros Hne.
  assert (Hk : Js.truthy (openaiApiKey (setApiKey apiKey h)) = true).
  { simpl. apply negb_true_iff, String.eqb_neq. exact Hne. }
  split.
  - unfold getApiKey. rewrite Hk. reflexivity.
  - pose proof (call_outcome (setApiKey apiKey h) prompt systemPrompt model t) as Ho.
    cbv zeta in Ho. rewrite Hk in Ho. rewrite Ho. cbn [fst].
    destruct (fetch (setApiKey apiKey h) (fetchCount t) _) as [reason|ok st body];
      [discriminate|].
    destruct ok; [|discriminate].
    unfold parseJson. destruct (JSON_parse (setApiKey apiKey h) body) as [data|];
      [|discriminate].
    destruct (contentOf data) as [c|e] eqn:Ec; [discriminate|].
    apply contentOf_throws in Ec. subst e. discriminate.
Qed.

Lemma runtime_key_takes_precedence_witness :
  getApiKey (setApiKey "sk-test" offlineHost) (Some "sk-setting") = Some "sk-test"
  /\ fst (callOpenAIWithModel (setApiKey "sk-test" offlineHost) "p" "s" "gpt-4" [])
     <> Throw ApiKeyNotConfigured.
Proof.
  apply (runtime_key_takes_precedence offlineHost "sk-test" (Some "sk-setting")
           "p" "s" "gpt-4" []).
  discriminate.
Defined.

(** X5.  The key shown and the key used can differ: the remote call tests
    the field alone.  When the field is empty, as after [setApiKey('')],
    and the setting holds a key, [getApiKey] returns the key of the setting,
    yet every remote call is refused as not configured, without a request. *)
Theorem shown_key_is_not_the_key_used (h : Host) (configured : option string)
        (prompt systemPrompt model : string) (t : list Event) :
  Js.truthy configured = true ->
  Js.truthy (getApiKey (setApiKey EmptyString h) configured) = true
  /\ callOpenAIWithModel (setApiKey EmptyString h) prompt systemPrompt model t
     = (Throw ApiKeyNotConfigured, t)
  /\ (Js.truthy (openaiApiKey h) = false ->
      Js.truthy (getApiKey h configured) = true
      /\ callOpenAIWithModel h prompt systemPrompt model t
         = (Throw ApiKeyNotConfigured, t)).
Proof.
  intros Hc. split; [exact Hc|]. split.
  - apply call_without_key. reflexivity.
  - intros Hk. split.
    + unfold getApiKey. rewrite Hk. exact Hc.
    + apply call_without_key. exact Hk.
Qed.

Lemma shown_key_is_not_the_key_used_witness :
  Js.truthy (getApiKey (setApiKey "" thinHost) (Some "sk-setting")) = true
  /\ callOpenAIWithModel (setApiKey "" thinHost) "p" "s" "gpt-4" []
     = (Throw ApiKeyNotConfigured, []).
Proof.
  destruct (shown_key_is_not_the_key_used thinHost (Some "sk-setting")
              "p" "s" "gpt-4" [] eq_refl) as (Hg & Hc & _).
  split; [exact Hg | exact Hc].
Defined.

(** ** Requests of the remote paths *)

Lemma fetchCount_app (t1 t2 : list Event) :
  fetchCount (t1 ++ t2)%list = fetchCount t1 + fetchCount t2.
Proof. unfold fetchCount. rewrite filter_app, length_app. reflexivity. Qed.

(** The events a remote call adds. *)
Lemma call_added (h : Host) (prompt systemPrompt model : string) (t : list Event) :
  exists added,
    snd (callOpenAIWithModel h prompt systemPrompt model t) = (t ++ added)%list
    /\ fetchCount added = (if Js.truthy (openaiApiKey h) then 1 else 0)
    /\ written added = []
    /\ (Js.truthy (openaiApiKey h) = false -> added = []).
Proof.
  pose proof (call_outcome h prompt systemPrompt model t) as Ho. cbv zeta in Ho.
  rewrite Ho. cbn [snd].
  destruct (Js.truthy (openaiApiKey h)).
  - eexists. split; [reflexivity|].
    match goal with
    | |- context [match ?o with Ok _ => _ | Throw _ => _ end] => destruct o
    end; repeat split; discriminate.
  - exists []. rewrite app_nil_r. repeat split.
Qed.

(** X6.  A remote call makes exactly one request when the key is set and
    none otherwise; it never tries again after a failure, and it writes no
    file. *)
Theorem remote_call_makes_one_request (h : Host) (prompt systemPrompt model : string)
        (t : list Event) :
  let t' := snd (callOpenAIWithModel h prompt systemPrompt model t) in
  fetchCount t' = fetchCount t + (if Js.truthy (openaiApiKey h) then 1 else 0)
  /\ written t' = written t
  /\ exists added, t' = (t ++ added)%list /\ length added <= 2.
Proof.
  cbv zeta.
  pose proof (call_outcome h prompt systemPrompt model t) as Ho. cbv zeta in Ho.
  rewrite Ho. cbn [snd].
  destruct (Js.truthy (openaiApiKey h)).
  - rewrite fetchCount_app, written_app.
    match goal with
    | |- context [match ?o with Ok _ => _ | Throw _ => _ end] => destruct o
    end; cbn [fetchCount filter length written flat_map app];
      rewrite app_nil_r; (split; [reflexivity|]); (split; [reflexivity|]);
      eexists; (split; [reflexivity|]); simpl; lia.
  - split; [lia|]. split; [reflexivity|]. exists []. rewrite app_nil_r. simpl.
    split; [reflexivity | lia].
Qed.

Lemma remoteAnalysis_trace (h : Host) (prd : string) (t : list Event) :
  snd (remoteAnalysis h prd t)
  = snd (callOpenAIWithModel h (analysisPrompt prd) analysisSystemPrompt
           (configuredModel h) t).
Proof.
  unfold remoteAnalysis, bind, lift, ret, throw.
  destruct (callOpenAIWithModel h _ _ _ t) as [[response|e] t']; cbn [snd]; [|reflexivity].
  destruct (parseJson h (toStringValue response)) as [analysis|e]; cbn [snd];
    [|reflexivity].
  destruct (getField (Some analysis) "testCases") as [[[ | b | r | s | l | fs ]|]|e];
    cbn [snd]; try reflexivity.
  destruct analysis; reflexivity.
Qed.

Lemma urlBearing_parse (prd : string) :
  urlBearing (parseTestDataFromPRD prd) = parseTestDataFromPRD prd.
Proof.
  unfold parseTestDataFromPRD.
  destruct (Js.truthy (url (fold_left parseLine (linesOf prd) emptyTestData))) eqn:E;
    [|reflexivity].
  unfold urlBearing. rewrite E. reflexivity.
Qed.

(** X7.  [analyzePRD] makes no request for a text with a URL line, and no
    request without a key; otherwise it makes exactly one, whether the
    remote analysis succeeds or the fallback is taken. *)
Theorem analyzePRD_request_count (h : Host) (prd : string) (t : list Event) :
  fetchCount (snd (analyzePRD h prd t))
  = fetchCount t
    + match parseTestDataFromPRD prd with
      | Some _ => 0
      | None => if Js.truthy (openaiApiKey h) then 1 else 0
      end.
Proof.
  unfold analyzePRD. rewrite urlBearing_parse.
  destruct (parseTestDataFromPRD prd) as [td|].
  - unfold bind, emit, ret. cbn [snd]. rewrite fetchCount_app. reflexivity.
  - unfold try_catch.
    pose proof (remoteAnalysis_trace h prd t) as Ht.
    destruct (call_added h (analysisPrompt prd) analysisSystemPrompt (configuredModel h) t)
      as (added & Ha & Hc & _).
    rewrite Ha in Ht.
    destruct (remoteAnalysis h prd t) as [[a|e] t']; cbn [snd] in *; subst t'.
    + rewrite fetchCount_app, Hc. reflexivity.
    + unfold bind, emit, ret. cbn [snd].
      rewrite !fetchCount_app, Hc.
      change (fetchCount [EvConsole WarnLevel "OpenAI analysis failed, using fallback:"])
        with 0.
      apply Nat.add_0_r.
Qed.

(** X8.  A quick test stays local: for a text with a URL line,
    [analyzePRD] returns the analysis of URL mode, which is also what
    [analyzePRDFallback] returns, and adds one line on the console and
    nothing else, whatever the host; the text and its credentials are not
    sent. *)
Theorem quick_test_analysis_is_local (h : Host) (prd : string) (td : TestData)
        (t : list Event) :
  parseTestDataFromPRD prd = Some td ->
  analyzePRD h prd t
  = (Ok (Analysis (urlModeAnalysis td)),
     (t ++ [EvConsole LogLevel "Detected URL-based test request:"])%list)
  /\ analyzePRDFallback prd = urlModeAnalysis td
  /\ map id (testCases (urlModeAnalysis td))
     = ["login-001"; "login-002"; "login-003"; "login-004"].
Proof.
  intros Hp. unfold analyzePRD, analyzePRDFallback.
  rewrite urlBearing_parse, Hp. repeat split.
Qed.

Lemma quick_test_analysis_is_local_witness :
  let td := mkTestData (Some "https://example.com/login") (Some "u") (Some "p") in
  analyzePRD thinHost quickTestText []
  = (Ok (Analysis (urlModeAnalysis td)),
     [EvConsole LogLevel "Detected URL-based test request:"]).
Proof.
  intros td.
  apply (proj1 (quick_test_analysis_is_local thinHost quickTestText td []
                  ltac:(vm_compute; reflexivity))).
Defined.

(** ** The answer of the remote analysis *)

Lemma lookup_setField_same (key : string) (v : Json) (fields : list (string * Json)) :
  lookup key (setField key v fields) = Some v.
Proof.
  unfold lookup. induction fields as [|[k x] rest IH]; simpl.
  - rewrite String.eqb_refl. reflexivity.
  - destruct (String.eqb k key) eqn:E; simpl; rewrite E; [reflexivity | exact IH].
Qed.

Lemma lookup_setField_other (key other : string) (v : Json)
      (fields : list (string * Json)) :
  other <> key -> lookup other (setField key v fields) = lookup other fields.
Proof.
  intros Hne. unfold lookup. induction fields as [|[k x] rest IH]; simpl.
  - rewrite String.eqb_sym. apply String.eqb_neq in Hne. rewrite Hne. reflexivity.
  - destruct (String.eqb k key) eqn:E; simpl.
    + apply String.eqb_eq in E. subst k.
      rewrite String.eqb_sym. apply String.eqb_neq in Hne. rewrite Hne. reflexivity.
    + destruct (String.eqb k other); [reflexivity | exact IH].
Qed.



(** The answer of the host above: one test case, sent with the status
    passed, comes back with the status pending and its id. *)
Example remote_status_is_overwritten :
  fst (remoteAnalysis reportHost "The system exports a monthly report" [])
  = Ok (RemoteAnalysis
          (JObj [("features", JArr [JStr "Export"]);
                 ("testCases", JArr [JObj [("id", JStr "r1");
                                           ("status", JStr "pending")]])])).
Proof. vm_compute. reflexivity. Qed.

(** ** The generators *)

(** The generators on a test case that has the shape of [ITestCase], its
    array of steps included. *)
Lemma generator_outcome_typed (h : Host) (testCase : ITestCase) (t : list Event) :
  fst (generateCypressCode h testCase t)
  = Ok (match urlBearing (testData testCase) with
        | Some td => generateCypressCodeForURL testCase td
        | None =>
            match fst (callOpenAIWithModel h (cypressPrompt testCase)
                         cypressSystemPrompt (configuredModel h) t) with
            | Ok (Some (JStr answer)) => cleanGeneratedCode answer
            | _ => generateCypressCodeFallback testCase
            end
        end)
  /\ fst (generatePlaywrightCode h testCase t)
     = Ok (match urlBearing (testData testCase) with
           | Some td => generatePlaywrightCodeForURL testCase td
           | None =>
               match fst (callOpenAIWithModel h (playwrightPrompt testCase)
                            playwrightSystemPrompt (configuredModel h) t) with
               | Ok (Some (JStr answer)) => cleanGeneratedCode answer
               | _ => generatePlaywrightCodeFallback testCase
               end
           end)
  /\ fetchCount (snd (generateCypressCode h testCase t)) <= fetchCount t + 1
  /\ fetchCount (snd (generatePlaywrightCode h testCase t)) <= fetchCount t + 1.
Proof.
  assert (Hgen : forall (prompt systemPrompt : string) (fallback : string),
             let m := try_catch
                        (bind (callOpenAIWithModel h prompt systemPrompt (configuredModel h))
                           (fun code => lift (cleanAnswer code)))
                        (fun _ =>
                           bind (emit (EvConsole WarnLevel
                                         "OpenAI code generation failed, using fallback:"))
                             (fun _ => ret fallback)) in
             fst (m t)
             = Ok (match fst (callOpenAIWithModel h prompt systemPrompt
                                (configuredModel h) t) with
                   | Ok (Some (JStr answer)) => cleanGeneratedCode answer
                   | _ => fallback
                   end)
             /\ fetchCount (snd (m t)) <= fetchCount t + 1).
  { intros prompt systemPrompt fallback. cbv zeta.
    destruct (call_added h prompt systemPrompt (configuredModel h) t)
      as (added & Ha & Hc & _).
    unfold try_catch, bind, lift, emit, ret, cleanAnswer.
    destruct (callOpenAIWithModel h prompt systemPrompt (configuredModel h) t)
      as [[[[ | b | r | s | l | fs ]|]|e] t']; cbn [fst snd] in *; subst t';
      (split; [reflexivity|]); rewrite ?fetchCount_app, Hc;
      change (fetchCount [EvConsole WarnLevel
                            "OpenAI code generation failed, using fallback:"]) with 0;
      destruct (Js.truthy (openaiApiKey h)); lia. }
  unfold generateCypressCode, generatePlaywrightCode.
  destruct (urlBearing (testData testCase)) as [td|].
  - cbn [ret fst snd]. repeat split; lia.
  - destruct (Hgen (cypressPrompt testCase) cypressSystemPrompt
                (generateCypressCodeFallback testCase)) as [Hc1 Hc2].
    destruct (Hgen (playwrightPrompt testCase) playwrightSystemPrompt
                (generatePlaywrightCodeFallback testCase)) as [Hp1 Hp2].
    repeat split; assumption.
Qed.

Lemma fallback_cases_canned (prd : string) (tc : ITestCase) :
  In tc (generateTestCasesFallback prd) -> In tc cannedCases.
Proof.
  unfold generateTestCasesFallback, cannedCases. cbv zeta.
  destruct (Js.includes "login" (Js.toLowerCase prd));
    destruct (Js.includes "cart" (Js.toLowerCase prd) || Js.includes "shopping" (Js.toLowerCase prd));
    destruct (Js.includes "search" (Js.toLowerCase prd));
    cbn; intuition.
Qed.

Lemma canned_cases_without_data :
  Forall (fun tc => testData tc = None) cannedCases.
Proof. repeat constructor. Qed.

(** A test case of the local analysis of a text carries the test data of
    the text, and none when the text has no URL line. *)
Lemma synthesized_test_data (prd : string) (testCase : ITestCase) :
  In testCase (testCases (analyzePRDFallback prd)) ->
  urlBearing (testData testCase) = parseTestDataFromPRD prd.
Proof.
  unfold analyzePRDFallback. rewrite urlBearing_parse.
  destruct (parseTestDataFromPRD prd) as [td|] eqn:Ep; cbn [testCases urlModeAnalysis].
  - intros Hin.
    assert (Htd : testData testCase = Some td).
    { simpl in Hin. destruct Hin as [<- | [<- | [<- | [<- | []]]]]; reflexivity. }
    rewrite Htd, <- Ep. apply urlBearing_parse.
  - intros Hin. apply fallback_cases_canned in Hin.
    pose proof canned_cases_without_data as HF.
    rewrite Forall_forall in HF. rewrite (HF _ Hin). reflexivity.
Qed.

(** X10.  On a test case the service made itself, by the local analysis
    of a text, a generator does not throw.  Its code is the URL template
    when the text has a URL line; else the cleaned answer when the remote
    call resolves to a string; else, on any failure and on an answer that
    is not a string, the deterministic translation.  It makes at most one
    request.  The test cases of a remote answer are outside this
    statement: they are not validated, and one without steps makes the
    generator fail where it builds its prompt, ahead of the protected
    call. *)
Theorem generator_outcome (h : Host) (prd : string) (testCase : ITestCase)
        (t : list Event) :
  In testCase (testCases (analyzePRDFallback prd)) ->
  fst (generateCypressCode h testCase t)
  = Ok (match parseTestDataFromPRD prd with
        | Some td => generateCypressCodeForURL testCase td
        | None =>
            match fst (callOpenAIWithModel h (cypressPrompt testCase)
                         cypressSystemPrompt (configuredModel h) t) with
            | Ok (Some (JStr answer)) => cleanGeneratedCode answer
            | _ => generateCypressCodeFallback testCase
            end
        end)
  /\ fst (generatePlaywrightCode h testCase t)
     = Ok (match parseTestDataFromPRD prd with
           | Some td => generatePlaywrightCodeForURL testCase td
           | None =>
               match fst (callOpenAIWithModel h (playwrightPrompt testCase)
                            playwrightSystemPrompt (configuredModel h) t) with
               | Ok (Some (JStr answer)) => cleanGeneratedCode answer
               | _ => generatePlaywrightCodeFallback testCase
               end
           end)
  /\ fetchCount (snd (generateCypressCode h testCase t)) <= fetchCount t + 1
  /\ fetchCount (snd (generatePlaywrightCode h testCase t)) <= fetchCount t + 1.
Proof.
  intros Hin. rewrite <- (synthesized_test_data prd testCase Hin).
  apply generator_outcome_typed.
Qed.

Lemma generator_outcome_witness :
  fst (generateCypressCode offlineHost generateGenericTestCase [])
  = Ok (generateCypressCodeFallback generateGenericTestCase)
  /\ fst (generatePlaywrightCode offlineHost generateGenericTestCase [])
     = Ok (generatePlaywrightCodeFallback generateGenericTestCase).
Proof.
  destruct (generator_outcome offlineHost "The system exports a monthly report"
              generateGenericTestCase []) as (Hc & Hp & _).
  - left. reflexivity.
  - split; [exact Hc | exact Hp].
Defined.



(** ** More on the markdown fences *)

Lemma trimStart_trim (s : string) : Js.trimStart (Js.trim s) = Js.trim s.
Proof. apply trimStart_fixed. Qed.

(** X12.  Cleaned code holds no run of three backticks and has no white
    space at its start or at its end. *)
Theorem cleaned_code_is_bare (s : string) :
  Js.includes fence_chars (cleanGeneratedCode s) = false
  /\ Js.trimStart (cleanGeneratedCode s) = cleanGeneratedCode s
  /\ Js.trimEnd (cleanGeneratedCode s) = cleanGeneratedCode s.
Proof.
  pose proof (removeAll_fenceWithLanguage_no_fence s) as H1.
  assert (Hs : cleanGeneratedCode s = Js.trim (removeAll false fenceWithLanguage s)).
  { unfold cleanGeneratedCode. rewrite (proj2 (removeAll_identity _ H1)). reflexivity. }
  rewrite Hs. split; [|split].
  - unfold Js.trim. apply includes_trimEnd, includes_trimStart, H1.
  - apply trimStart_trim.
  - unfold Js.trim. apply trimEnd_idempotent.
Qed.

(** X13.  The second replacement of [cleanGeneratedCode] never removes
    anything: the first one leaves no fence behind.  So cleaning is the
    first replacement followed by [trim], and on a text without a fence it
    is [trim] alone. *)
Theorem plain_fence_pass_removes_nothing (s : string) :
  removeAll false fencePlain (removeAll false fenceWithLanguage s)
  = removeAll false fenceWithLanguage s
  /\ cleanGeneratedCode s = Js.trim (removeAll false fenceWithLanguage s)
  /\ (Js.includes fence_chars s = false -> cleanGeneratedCode s = Js.trim s).
Proof.
  pose proof (removeAll_fenceWithLanguage_no_fence s) as H1.
  pose proof (proj2 (removeAll_identity _ H1)) as H2.
  split; [exact H2|]. split.
  - unfold cleanGeneratedCode. rewrite H2. reflexivity.
  - intros Hs. unfold cleanGeneratedCode.
    destruct (removeAll_identity s Hs) as (-> & ->). reflexivity.
Qed.

Lemma plain_fence_pass_removes_nothing_witness :
  cleanGeneratedCode "  cy.visit('/');  " = Js.trim "  cy.visit('/');  ".
Proof.
  apply (proj2 (proj2 (plain_fence_pass_removes_nothing "  cy.visit('/');  "))).
  vm_compute. reflexivity.
Defined.

Lemma leading_app (a b : string) :
  leadingBackticks b = 0 -> leadingBackticks (a ++ b) = leadingBackticks a.
Proof.
  intros Hb. induction a as [|c a IH]; [exact Hb|].
  simpl. destruct (Ascii.eqb c "`"); [rewrite IH|]; reflexivity.
Qed.

(** The removal copies a stretch without a fence that is followed by
    something other than a backtick. *)
Lemma remove_app_clean (tail : regex) (a b : string) :
  (forall s c k, (forall s' c', k s' c' <> None) -> rmatch false tail s c k <> None) ->
  Js.includes fence_chars a = false ->
  leadingBackticks b = 0 ->
  remove_from false (fenceOf tail) 0 (a ++ b)
  = a ++ remove_from false (fenceOf tail) 0 b.
Proof.
  intros Ht Ha Hb. induction a as [|c a IH]; [reflexivity|].
  rewrite includes_cons in Ha. apply orb_false_iff in Ha. destruct Ha as [Hp Hi].
  rewrite prefix_fence_leading in Hp. apply Nat.leb_gt in Hp.
  change (String c a ++ b) with (String c (a ++ b)).
  cbn [remove_from].
  rewrite (fence_no_match tail Ht (String c (a ++ b))).
  - rewrite IH by assumption. reflexivity.
  - change (String c (a ++ b)) with (String c a ++ b).
    rewrite leading_app by assumption. exact Hp.
Qed.

Lemma remove_skip (icase : bool) (r : regex) (w rest : string) :
  remove_from icase r (String.length w) (w ++ rest) = remove_from icase r 0 rest.
Proof.
  induction w as [|c w IH]; [destruct rest; reflexivity|].
  simpl. exact IH.
Qed.

(** A match at the head of the text is dropped whole. *)
Lemma remove_match (icase : bool) (r : regex) (c : ascii) (w rest : string) caps :
  match_here icase r (String c (w ++ rest)) = Some (rest, caps) ->
  remove_from icase r 0 (String c (w ++ rest)) = remove_from icase r 0 rest.
Proof.
  intros H. cbn [remove_from]. rewrite H.
  replace (String.length (String c (w ++ rest)) - String.length rest)
    with (S (String.length w))
    by (cbn [String.length]; rewrite length_append; lia).
  apply remove_skip.
Qed.

(** White space after a text, taken off with the white space the text
    ends with. *)
Lemma white_app_false (a r : string) :
  starts_clean r ->
  forall skip, skip <= String.length a ->
    Js.white_from skip a = false -> Js.white_from skip (a ++ r) = false.
Proof.
  intros Hr. induction a as [|c a IH]; intros skip L H; [discriminate|].
  cbn [append Js.white_from] in *. destruct skip as [|n].
  - destruct (Js.space_len (String c a)) as [|n] eqn:E.
    + change (String c (a ++ r)) with (String c a ++ r).
      rewrite (space_len_app_zero _ r E) by (discriminate || exact Hr). reflexivity.
    + change (String c (a ++ r)) with (String c a ++ r).
      rewrite (space_len_app _ r n E).
      pose proof (space_len_le (String c a)) as Hn. rewrite E in Hn.
      cbn [String.length] in Hn. apply IH; [lia | exact H].
  - apply IH; [cbn [String.length] in L; lia | exact H].
Qed.

Lemma trimEnd_app_space (a r : string) :
  Js.white r = true -> starts_clean r -> Js.trimEnd (a ++ r) = Js.trimEnd a.
Proof.
  intros Hw Hr. induction a as [|c a IH]; [apply trimEnd_white, Hw|].
  change (String c a ++ r) with (String c (a ++ r)). cbn [Js.trimEnd]. rewrite IH.
  change (String c (a ++ r)) with (String c a ++ r).
  destruct (Js.white (String c a)) eqn:E.
  - unfold Js.white in *. rewrite (white_app _ r 0 (le_0_n _) E Hw). reflexivity.
  - unfold Js.white in *. rewrite (white_app_false _ r Hr 0 (le_0_n _) E). reflexivity.
Qed.

Lemma trim_fixed_parts (s : string) :
  Js.trim s = s -> Js.trimStart s = s /\ Js.trimEnd s = s.
Proof.
  intros H. split.
  - rewrite <- H at 1. rewrite trimStart_trim. exact H.
  - rewrite <- H at 1. unfold Js.trim. rewrite trimEnd_idempotent. exact H.
Qed.

Lemma trim_app_newline (s : string) : Js.trim s = s -> Js.trim (s ++ Js.nl) = s.
Proof.
  intros H. destruct (trim_fixed_parts s H) as [Hs He].
  destruct s as [|c s]; [reflexivity|].
  unfold Js.trim. rewrite trimStart_no_space.
  - rewrite trimEnd_app_space by reflexivity. exact He.
  - apply space_len_app_zero; [apply trimStart_fixed_head, Hs | discriminate | reflexivity].
Qed.

Lemma clean_is_first_pass (s : string) :
  cleanGeneratedCode s = Js.trim (removeAll false fenceWithLanguage s).
Proof.
  unfold cleanGeneratedCode.
  rewrite (proj2 (removeAll_identity _ (removeAll_fenceWithLanguage_no_fence s))).
  reflexivity.
Qed.

Lemma opening_fence_match (lang rest : string) :
  In lang [""; "javascript"; "typescript"; "js"; "ts"] ->
  match_here false fenceWithLanguage
    (String "`" (("``" ++ lang ++ Js.nl) ++ rest)) = Some (rest, []).
Proof.
  intros H. simpl in H.
  destruct H as [<-|[<-|[<-|[<-|[<-|[]]]]]]; reflexivity.
Qed.

(** X14.  An answer wrapped in a markdown fence, with or without one of
    the language tags of the pattern, is unwrapped: code that holds no
    fence and has no white space around it comes back as it was. *)
Theorem fenced_answer_is_unwrapped (lang code : string) :
  In lang [""; "javascript"; "typescript"; "js"; "ts"] ->
  Js.includes fence_chars code = false ->
  Js.trim code = code ->
  cleanGeneratedCode (fence_chars ++ lang ++ Js.nl ++ code ++ Js.nl ++ fence_chars) = code.
Proof.
  intros Hl Hc Ht. rewrite clean_is_first_pass. unfold removeAll.
  replace (fence_chars ++ lang ++ Js.nl ++ code ++ Js.nl ++ fence_chars)
    with (String "`" (("``" ++ lang ++ Js.nl) ++ code ++ Js.nl ++ fence_chars)).
  2:{ unfold fence_chars. simpl. rewrite !append_assoc. reflexivity. }
  rewrite (remove_match _ _ _ _ _ _ (opening_fence_match lang _ Hl)).
  unfold fenceWithLanguage at 1.
  rewrite remove_app_clean;
    [| exact fenceWithLanguage_tail_total | exact Hc | reflexivity].
  change (remove_from false (fenceOf _) 0 (Js.nl ++ fence_chars)) with Js.nl.
  apply trim_app_newline, Ht.
Qed.

Lemma fenced_answer_is_unwrapped_witness :
  cleanGeneratedCode
    (fence_chars ++ "javascript" ++ Js.nl ++ "cy.visit(`/cart`);" ++ Js.nl ++ fence_chars)
  = "cy.visit(`/cart`);".
Proof.
  apply (fenced_answer_is_unwrapped "javascript" "cy.visit(`/cart`);").
  - simpl. auto.
  - vm_compute. reflexivity.
  - vm_compute. reflexivity.
Defined.

(** ** More on the translators *)

(** X15.  A translated step is a comment exactly when the step holds none
    of the keywords of its translator. *)
Theorem step_is_comment_iff_unrecognised (step : string) :
  String.prefix "//" (stepToCypressCommand step) = negb (step_keyword step)
  /\ String.prefix "//" (stepToPlaywrightCommand step) = negb (playwright_keyword step).
Proof.
  unfold stepToCypressCommand, stepToPlaywrightCommand, step_keyword,
    playwright_keyword. cbv zeta.
  destruct (Js.includes "navigate" (Js.toLowerCase step));
    destruct (Js.includes "go to" (Js.toLowerCase step));
    destruct (Js.includes "click" (Js.toLowerCase step));
    destruct (Js.includes "enter" (Js.toLowerCase step));
    destruct (Js.includes "type" (Js.toLowerCase step));
    destruct (Js.includes "select" (Js.toLowerCase step));
    destruct (Js.includes "verify" (Js.toLowerCase step));
    destruct (Js.includes "check" (Js.toLowerCase step));
    split; reflexivity.
Qed.

(** A step whose keyword is written with U+212A KELVIN SIGN: its lower
    case is [k], and the step is recognised. *)
Example kelvin_sign_step :
  stepToCypressCommand ("CLIC" ++ Js.kelvin_sign ++ " the button")
  = "cy.get('[data-test=" ++ Js.dq ++ "button" ++ Js.dq ++ "]').click();"
  /\ step_keyword ("CLIC" ++ Js.kelvin_sign ++ " the button") = true.
Proof. vm_compute. split; reflexivity. Qed.

(** X16.  The translators read a step through its lower case only: two
    steps that differ in letter case alone get the same command, as long
    as the translator recognises them. *)
Theorem translation_ignores_letter_case (s1 s2 : string) :
  Js.toLowerCase s1 = Js.toLowerCase s2 ->
  (step_keyword s1 = true -> stepToCypressCommand s1 = stepToCypressCommand s2)
  /\ (playwright_keyword s1 = true ->
      stepToPlaywrightCommand s1 = stepToPlaywrightCommand s2).
Proof.
  intros E.
  unfold stepToCypressCommand, stepToPlaywrightCommand, step_keyword,
    playwright_keyword, extractElement. cbv zeta. rewrite <- E.
  destruct (Js.includes "navigate" (Js.toLowerCase s1));
    destruct (Js.includes "go to" (Js.toLowerCase s1));
    destruct (Js.includes "click" (Js.toLowerCase s1));
    destruct (Js.includes "enter" (Js.toLowerCase s1));
    destruct (Js.includes "type" (Js.toLowerCase s1));
    destruct (Js.includes "select" (Js.toLowerCase s1));
    destruct (Js.includes "verify" (Js.toLowerCase s1));
    destruct (Js.includes "check" (Js.toLowerCase s1));
    split; intros H; try reflexivity; discriminate H.
Qed.

Lemma translation_ignores_letter_case_witness :
  stepToCypressCommand "CLICK the Login BUTTON"
  = stepToCypressCommand "click the login button"
  /\ stepToPlaywrightCommand "CLICK the Login BUTTON"
     = stepToPlaywrightCommand "click the login button".
Proof.
  destruct (translation_ignores_letter_case
              "CLICK the Login BUTTON" "click the login button") as [Hc Hp].
  - vm_compute. reflexivity.
  - split; [apply Hc | apply Hp]; vm_compute; reflexivity.
Defined.

(** ** More on the synthesized cases *)

Lemma fallback_analysis_cases (prd : string) (tc : ITestCase) :
  In tc (testCases (analyzePRDFallback prd)) ->
  In tc cannedCases \/ exists td, In tc (generateLoginTestCasesForURL td).
Proof.
  unfold analyzePRDFallback.
  destruct (urlBearing (parseTestDataFromPRD prd)) as [td|]; cbn [testCases].
  - intros H. right. exists td. exact H.
  - intros H. left. apply (fallback_cases_canned prd), H.
Qed.

(** X17.  The error assertion is never used for a case the service
    synthesizes: for every text, each case of the deterministic analysis
    gets the redirect, the visibility or the success assertion, in both
    frameworks, also the cases whose expected result is an error message. *)
Theorem synthesized_cases_never_assert_the_error (prd : string) (tc : ITestCase) :
  In tc (testCases (analyzePRDFallback prd)) ->
  In (expectedResultToAssertion (expectedResult tc))
     [ "cy.url().should('include', '/dashboard');";
       "cy.get('[data-test=" ++ Js.dq ++ "result" ++ Js.dq ++ "]').should('be.visible');";
       "cy.get('[data-test=" ++ Js.dq ++ "success" ++ Js.dq ++ "]').should('exist');" ]
  /\ In (expectedResultToPlaywrightAssertion (expectedResult tc))
     [ "await expect(page).toHaveURL(/.*dashboard/);";
       "await expect(page.locator('[data-test=" ++ Js.dq ++ "result" ++ Js.dq
         ++ "]')).toBeVisible();";
       "await expect(page.locator('[data-test=" ++ Js.dq ++ "success" ++ Js.dq
         ++ "]')).toBeVisible();" ].
Proof.
  intros H. apply fallback_analysis_cases in H.
  destruct H as [H | (td & H)].
  - unfold cannedCases in H. cbn in H.
    repeat (destruct H as [<- | H]; [split; vm_compute; tauto|]).
    destruct H.
  - unfold generateLoginTestCasesForURL in H. cbn [In] in H.
    repeat (destruct H as [<- | H]; [cbn [expectedResult]; split; vm_compute; tauto|]).
    destruct H.
Qed.

Lemma synthesized_cases_never_assert_the_error_witness :
  In (expectedResultToAssertion "Error message is displayed")
     [ "cy.url().should('include', '/dashboard');";
       "cy.get('[data-test=" ++ Js.dq ++ "result" ++ Js.dq ++ "]').should('be.visible');";
       "cy.get('[data-test=" ++ Js.dq ++ "success" ++ Js.dq ++ "]').should('exist');" ]
  /\ In (expectedResultToPlaywrightAssertion "Error message is displayed")
     [ "await expect(page).toHaveURL(/.*dashboard/);";
       "await expect(page.locator('[data-test=" ++ Js.dq ++ "result" ++ Js.dq
         ++ "]')).toBeVisible();";
       "await expect(page.locator('[data-test=" ++ Js.dq ++ "success" ++ Js.dq
         ++ "]')).toBeVisible();" ].
Proof.
  apply (synthesized_cases_never_assert_the_error "Users login with a password"
           (mkTestCase "login-002" "Invalid Credentials"
              "System shows error for invalid login"
              [ "Navigate to login page";
                "Enter invalid email or password";
                "Click login button" ]
              "Error message is displayed"
              None None (Some pending) None)).
  vm_compute. tauto.
Defined.

Ltac distinct_ids :=
  repeat constructor; cbn [In]; intuition discriminate.

Lemma userStories_nonempty (prd : string) : extractUserStories prd <> [].
Proof.
  unfold extractUserStories. cbv zeta.
  destruct (map fst (matchAll true storyPattern prd)); discriminate.
Qed.

(** X18.  Whatever the text, the deterministic analysis gives between one
    and five test cases, with pairwise distinct ids, each pending and
    without code, and at least one user story. *)
Theorem fallback_analysis_is_well_formed (prd : string) :
  let a := analyzePRDFallback prd in
  1 <= length (testCases a) <= 5
  /\ NoDup (map id (testCases a))
  /\ Forall (fun tc => status tc = Some pending
                       /\ cypressCode tc = None /\ playwrightCode tc = None)
            (testCases a)
  /\ userStories a <> [].
Proof.
  cbv zeta. unfold analyzePRDFallback.
  destruct (urlBearing (parseTestDataFromPRD prd)) as [td|].
  - cbn [testCases userStories urlModeAnalysis generateLoginTestCasesForURL
           map id length].
    split; [lia|]. split; [distinct_ids|]. split; [|discriminate].
    repeat constructor.
  - cbn [testCases userStories]. split; [|split; [|split]].
    4: apply userStories_nonempty.
    all: unfold generateTestCasesFallback; cbv zeta;
      destruct (Js.includes "login" (Js.toLowerCase prd));
      destruct (Js.includes "cart" (Js.toLowerCase prd)
                || Js.includes "shopping" (Js.toLowerCase prd));
      destruct (Js.includes "search" (Js.toLowerCase prd));
      cbn.
    all: try lia.
    all: try (repeat constructor; fail).
    all: distinct_ids.
Qed.

Lemma includes_join (p sep x : string) (l : list string) :
  In x l -> Js.includes p x = true -> Js.includes p (Js.join sep l) = true.
Proof.
  intros Hin Hp. destruct (join_has_element sep x l Hin) as (a & b & ->).
  apply includes_app_r, includes_app_l, Hp.
Qed.

Ltac in_list := repeat first [left; reflexivity | right].

(** X19.  The name test of the Playwright template for a URL holds for
    each of the four cases synthesized for a URL, the three negative ones
    too ([invalid] and [validation] contain [valid]).  So the code of every
    such case types the parsed username and expects the page that follows
    a successful login, as the Cypress template does for any case. *)
Theorem url_mode_cases_all_run_the_login_flow (td : TestData) (tc : ITestCase) :
  In tc (generateLoginTestCasesForURL td) ->
  Js.includes "successful" (Js.toLowerCase (name tc))
  || Js.includes "valid" (Js.toLowerCase (name tc)) = true
  /\ Js.includes ("for (const char of '" ++ Js.show (username td) ++ "') {")
       (generatePlaywrightCodeForURL tc td) = true
  /\ Js.includes "await expect(page).toHaveURL(/.*secure/);"
       (generatePlaywrightCodeForURL tc td) = true
  /\ Js.includes "cy.url().should('include', '/secure');"
       (generateCypressCodeForURL tc td) = true.
Proof.
  intros H.
  assert (Hn : Js.includes "successful" (Js.toLowerCase (name tc))
               || Js.includes "valid" (Js.toLowerCase (name tc)) = true).
  { unfold generateLoginTestCasesForURL in H. cbn [In] in H.
    repeat (destruct H as [<- | H]; [vm_compute; reflexivity|]). destruct H. }
  split; [exact Hn|].
  unfold generatePlaywrightCodeForURL, generateCypressCodeForURL. cbv zeta.
  rewrite Hn. split; [|split].
  - apply includes_app_l, includes_app_r.
    eapply includes_join with
      (x := Js.tabs 1 ++ "  for (const char of '" ++ Js.show (username td) ++ "') {");
      [in_list|].
    apply includes_app_r.
    change ("  for (const char of '" ++ Js.show (username td) ++ "') {")
      with ("  " ++ ("for (const char of '" ++ Js.show (username td) ++ "') {")).
    apply includes_app_r.
    rewrite <- (append_nil_r ("for (const char of '" ++ Js.show (username td) ++ "') {")) at 2.
    apply includes_self.
  - apply includes_app_l, includes_app_r.
    eapply includes_join with
      (x := Js.tabs 1 ++ "  await expect(page).toHaveURL(/.*secure/);");
      [in_list | vm_compute; reflexivity].
  - eapply includes_join with
      (x := Js.tabs 2 ++ "cy.url().should('include', '/secure');");
      [in_list | vm_compute; reflexivity].
Qed.

Lemma url_mode_cases_all_run_the_login_flow_witness :
  Js.includes "await expect(page).toHaveURL(/.*secure/);"
    (generatePlaywrightCodeForURL
       (nth 1 (generateLoginTestCasesForURL quickTestData) generateGenericTestCase)
       quickTestData) = true.
Proof.
  refine (proj1 (proj2 (proj2 (url_mode_cases_all_run_the_login_flow quickTestData
            (nth 1 (generateLoginTestCasesForURL quickTestData) generateGenericTestCase)
            _)))).
  right; left; reflexivity.
Defined.

(** ** Saving and running *)

(** A generator returns, and only adds events. *)
Lemma generator_extends (h : Host) (testCase : ITestCase) (t : list Event) :
  (exists code added, generateCypressCode h testCase t = (Ok code, (t ++ added)%list))
  /\ (exists code added, generatePlaywrightCode h testCase t = (Ok code, (t ++ added)%list)).
Proof.
  assert (Hgen : forall (prompt systemPrompt : string) (fallback : string),
             exists code added,
               try_catch
                 (bind (callOpenAIWithModel h prompt systemPrompt (configuredModel h))
                    (fun code => lift (cleanAnswer code)))
                 (fun _ =>
                    bind (emit (EvConsole WarnLevel
                                  "OpenAI code generation failed, using fallback:"))
                      (fun _ => ret fallback)) t
               = (Ok code, (t ++ added)%list)).
  { intros prompt systemPrompt fallback.
    destruct (call_added h prompt systemPrompt (configuredModel h) t)
      as (added & Ha & _).
    unfold try_catch, bind, lift, emit, ret, cleanAnswer.
    destruct (callOpenAIWithModel h prompt systemPrompt (configuredModel h) t)
      as [[[[ | b | r | s | l | fs ]|]|e] t']; cbn [fst snd] in *; subst t';
      eexists; eexists; rewrite <- ?app_assoc; reflexivity. }
  unfold generateCypressCode, generatePlaywrightCode.
  destruct (urlBearing (testData testCase)) as [td|].
  - split; eexists; exists []; rewrite app_nil_r; reflexivity.
  - split; apply Hgen.
Qed.

Lemma codeAndExtension_extends (h : Host) (framework : string) (testCase : ITestCase)
      (t : list Event) :
  exists code added,
    codeAndExtension h framework testCase t
    = (Ok (code, extensionOf framework), (t ++ added)%list)
    /\ (Js.truthy (storedCode framework testCase) = true ->
        code = Js.show (storedCode framework testCase) /\ added = []).
Proof.
  destruct (generator_extends h testCase t) as [(cc & ca & Hc) (pc & pa & Hp)].
  unfold codeAndExtension, extensionOf, storedCode.
  destruct (String.eqb_spec framework "cypress") as [->|Hn]; cbn [String.eqb Ascii.eqb Bool.eqb].
  - destruct (Js.truthy (cypressCode testCase)).
    + eexists; exists []. unfold bind, ret. rewrite app_nil_r. auto.
    + exists cc, ca. unfold bind, ret. rewrite Hc. split; [reflexivity | discriminate].
  - destruct (String.eqb framework "playwright").
    + destruct (Js.truthy (playwrightCode testCase)).
      * eexists; exists []. unfold bind, ret. rewrite app_nil_r. auto.
      * exists pc, pa. unfold bind, ret. rewrite Hp. split; [reflexivity | discriminate].
    + destruct (Js.truthy (cypressCode testCase)).
      * eexists; exists []. unfold bind, ret. rewrite app_nil_r. auto.
      * exists cc, ca. unfold bind, ret. rewrite Hc. split; [reflexivity | discriminate].
Qed.

Lemma saveLoop_extends (h : Host) (root framework : string) (testCases : list ITestCase) :
  forall files t,
  exists added,
    saveLoop h (testDirOf root framework) framework testCases files t
    = (Ok (files ++ map (testFilePath root framework) testCases)%list, (t ++ added)%list)
    /\ (Forall (fun tc => Js.truthy (storedCode framework tc) = true) testCases ->
        added = map (fun tc => EvWriteFile (testFilePath root framework tc)
                                 (Js.show (storedCode framework tc))) testCases).
Proof.
  induction testCases as [|testCase rest IH]; intros files t.
  - exists []. simpl. rewrite !app_nil_r. auto.
  - destruct (codeAndExtension_extends h framework testCase t) as (code & a1 & Hc & Hs).
    destruct (IH (files ++ [testFilePath root framework testCase])%list
                 ((t ++ a1) ++ [EvWriteFile (testFilePath root framework testCase) code])%list)
      as (a2 & Hl & Hall).
    exists (a1 ++ EvWriteFile (testFilePath root framework testCase) code :: a2)%list.
    cbn [saveLoop]. unfold bind at 1. rewrite Hc. cbn [fst snd].
    unfold bind at 1, emit at 1. unfold fsPath.
    change (joinPath (testDirOf root framework) [id testCase ++ extensionOf framework])
      with (testFilePath root framework testCase).
    rewrite Hl. split.
    + f_equal; [rewrite <- app_assoc; reflexivity|].
      rewrite <- !app_assoc. reflexivity.
    + intros HF. inversion HF as [|? ? H1 H2]; subst.
      destruct (Hs H1) as (-> & ->). rewrite (Hall H2). reflexivity.
Qed.

(** What a save does with a workspace folder: the folder, the events of
    the loop, the suite file when the framework has one. *)
Lemma saveTestFiles_trace (h : Host) (root framework : string)
      (testCases : list ITestCase) (t : list Event) :
  workspaceFolder h = Some root ->
  let paths := map (testFilePath root framework) testCases in
  exists added,
    saveTestFiles h testCases framework t
    = (Ok paths,
       (t ++ EvCreateFolder (testDirOf root framework)
          :: added
          ++ (if hasSuite framework
              then [EvWriteFile (suitePath (testDirOf root framework) framework)
                      (suiteContent framework paths)]
              else []))%list)
    /\ (Forall (fun tc => Js.truthy (storedCode framework tc) = true) testCases ->
        added = map (fun tc => EvWriteFile (testFilePath root framework tc)
                                 (Js.show (storedCode framework tc))) testCases).
Proof.
  intros Hw. cbv zeta.
  destruct (saveLoop_extends h root framework testCases []
              (t ++ [EvCreateFolder (testDirOf root framework)])%list) as (added & Hl & Hall).
  exists added. split; [|exact Hall].
  unfold saveTestFiles. rewrite Hw.
  change (joinPath root ["tests"; framework; "generated"]) with (testDirOf root framework).
  unfold bind at 1, emit at 1. unfold bind at 1. rewrite Hl. cbn [app].
  unfold bind, createTestSuiteFile, ret. rewrite suiteContent_truthy.
  destruct (hasSuite framework); unfold emit, ret;
    rewrite <- !app_assoc; cbn [app]; rewrite ?app_nil_r; reflexivity.
Qed.

(** X20.  With a workspace folder and code stored in every test case (the
    Playwright code for playwright, the Cypress code otherwise), a save
    only touches the file system: it creates the folder, writes the stored
    code of each case unchanged, in order, and then the suite file if the
    framework has one.  No request is made and nothing is logged, with or
    without a key. *)
Theorem stored_code_is_written_verbatim (h : Host) (root framework : string)
        (testCases : list ITestCase) (t : list Event) :
  workspaceFolder h = Some root ->
  Forall (fun tc => Js.truthy (storedCode framework tc) = true) testCases ->
  let paths := map (testFilePath root framework) testCases in
  saveTestFiles h testCases framework t
  = (Ok paths,
     (t ++ EvCreateFolder (testDirOf root framework)
        :: map (fun tc => EvWriteFile (testFilePath root framework tc)
                            (Js.show (storedCode framework tc))) testCases
        ++ (if hasSuite framework
            then [EvWriteFile (suitePath (testDirOf root framework) framework)
                    (suiteContent framework paths)]
            else []))%list).
Proof.
  intros Hw Hs. cbv zeta.
  destruct (saveTestFiles_trace h root framework testCases t Hw) as (added & E & Ha).
  rewrite E, (Ha Hs). reflexivity.
Qed.

Lemma stored_code_is_written_verbatim_witness :
  saveTestFiles offlineHost storedCases "puppeteer" []
  = (Ok ["/ws/tests/puppeteer/generated/t1.js"; "/ws/tests/puppeteer/generated/t2.js"],
     [ EvCreateFolder "/ws/tests/puppeteer/generated";
       EvWriteFile "/ws/tests/puppeteer/generated/t1.js" "cy.visit('/a');";
       EvWriteFile "/ws/tests/puppeteer/generated/t2.js" "cy.visit('/b');" ]).
Proof.
  apply (stored_code_is_written_verbatim offlineHost "/ws" "puppeteer" storedCases []).
  - reflexivity.
  - repeat constructor.
Defined.

Lemma service_extends {A : Type} (m : M A) (t : list ExecEvent) (r : Result A)
      (added : list Event) :
  m (serviceEvents t) = (r, (serviceEvents t ++ added)%list) ->
  service m t = (r, (t ++ map EvService added)%list).
Proof.
  intros H. unfold service. cbv zeta. rewrite H.
  rewrite skipn_app, skipn_all, Nat.sub_diag. reflexivity.
Qed.

Lemma sendCommands_trace (commands : list string) :
  forall t, sendCommands commands t = (Ok tt, (t ++ sendEvents commands)%list).
Proof.
  induction commands as [|c rest IH]; intros t.
  - simpl. unfold retX. rewrite app_nil_r. reflexivity.
  - cbn [sendCommands]. unfold bindX at 1, emitX at 1. unfold bindX at 1, emitX at 1.
    rewrite IH. unfold sendEvents. cbn [flat_map app].
    rewrite <- !app_assoc. reflexivity.
Qed.

Lemma serviceEvents_app (t1 t2 : list ExecEvent) :
  serviceEvents (t1 ++ t2) = (serviceEvents t1 ++ serviceEvents t2)%list.
Proof. apply flat_map_app. Qed.

Lemma sent_app (t1 t2 : list ExecEvent) : sent (t1 ++ t2) = (sent t1 ++ sent t2)%list.
Proof. apply flat_map_app. Qed.

Lemma sent_service (l : list Event) : sent (map EvService l) = [].
Proof. induction l as [|e l IH]; [reflexivity | exact IH]. Qed.

Lemma sent_sendEvents (commands : list string) : sent (sendEvents commands) = commands.
Proof.
  induction commands as [|c rest IH]; [reflexivity|].
  unfold sendEvents in *. cbn [flat_map app]. unfold sent in *. cbn [flat_map app].
  rewrite IH. reflexivity.
Qed.

(** The events of a run with a workspace folder. *)
Lemma executeTests_events (h : Host) (fileExists : string -> bool) (root : string)
      (testCases : list ITestCase) (framework : string) (options : ExecutionOptions)
      (t : list ExecEvent) :
  workspaceFolder h = Some root ->
  let paths := map (testFilePath root framework) testCases in
  let configPath := configPathOf root in
  exists saved,
    saveTestFiles h testCases framework (serviceEvents t)
    = (Ok paths, (serviceEvents t ++ saved)%list)
    /\ executeTests h fileExists testCases framework options t
       = (Ok tt,
          (t ++ map EvService saved
             ++ [EvCreateTerminal root; EvProcessReady]
             ++ sendEvents (getExecutionCommands framework paths options)
             ++ [EvFocus]
             ++ (if String.eqb framework "cypress" && headed options
                 then EvExists configPath
                        :: (if fileExists configPath then []
                            else [EvService (EvWriteFile configPath defaultConfig)])
                 else []))%list).
Proof.
  intros Hw. cbv zeta.
  destruct (saveTestFiles_trace h root framework testCases (serviceEvents t) Hw)
    as (added & E & _).
  eexists. split; [exact E|].
  unfold executeTests. unfold bindX at 1. rewrite (service_extends _ _ _ _ E), Hw.
  unfold bindX at 1, emitX at 1. unfold bindX at 1, emitX at 1.
  unfold bindX at 1. rewrite sendCommands_trace.
  unfold bindX at 1, emitX at 1.
  destruct (String.eqb framework "cypress" && headed options).
  - unfold openCypressTestRunner. rewrite Hw. cbv zeta.
    unfold bindX, emitX, retX.
    destruct (fileExists (configPathOf root)); cbn [negb];
      rewrite <- !app_assoc; reflexivity.
  - unfold retX. rewrite <- !app_assoc, app_nil_r. reflexivity.
Qed.



(** X22.  Without a workspace folder nothing happens: a save and a run
    fail with the missing-folder error before any event, so no folder is
    created, no code is generated or requested, and no terminal is
    opened. *)
Theorem no_workspace_no_effect (h : Host) (fileExists : string -> bool)
        (testCases : list ITestCase) (framework : string) (options : ExecutionOptions)
        (t : list Event) (tx : list ExecEvent) :
  workspaceFolder h = None ->
  saveTestFiles h testCases framework t = (Throw NoWorkspaceFolder, t)
  /\ executeTests h fileExists testCases framework options tx
     = (Throw NoWorkspaceFolder, tx).
Proof.
  intros Hw. split.
  - unfold saveTestFiles. rewrite Hw. reflexivity.
  - unfold executeTests, bindX, service, saveTestFiles. rewrite Hw. cbv zeta.
    unfold throw. rewrite skipn_all. cbn [map]. rewrite app_nil_r. reflexivity.
Qed.

Lemma no_workspace_no_effect_witness :
  saveTestFiles noWorkspaceHost storedCases "cypress" [] = (Throw NoWorkspaceFolder, [])
  /\ executeTests noWorkspaceHost (fun _ => false) storedCases "cypress"
       (mkOptions true None) []
     = (Throw NoWorkspaceFolder, []).
Proof.
  apply (no_workspace_no_effect noWorkspaceHost (fun _ => false) storedCases "cypress"
           (mkOptions true None) [] []).
  reflexivity.
Defined.

(** ** The panel *)

Lemma filter_none {A : Type} (f : A -> bool) (l : list A) :
  Forall (fun x => f x = false) l -> filter f l = [].
Proof.
  induction 1 as [|x l Hx _ IH]; [reflexivity|]. simpl. rewrite Hx. exact IH.
Qed.

Lemma filter_some {A : Type} (f : A -> bool) (l : list A) :
  Exists (fun x => f x = true) l -> (length (filter f l) =? 0) = false.
Proof.
  induction 1 as [x l Hx | x l _ IH]; simpl.
  - rewrite Hx. reflexivity.
  - destruct (f x); [reflexivity | exact IH].
Qed.

(** X23.  When [runTests] does not run: with no analysis or an analysis
    without test cases it says there are no tests; when no case has
    Cypress code it asks for code first, whatever the framework, so also
    for playwright cases that have Playwright code; and with code but no
    workspace folder it reports the failure.  In each case nothing is
    saved, requested or sent. *)
Theorem runTests_refusals (h : Host) (fileExists : string -> bool)
        (analysis : IPRDAnalysis) (framework : string) (t : list ExecEvent) :
  runTests h fileExists None framework t = (Ok NoTestsToRun, t)
  /\ (testCases analysis = [] ->
      runTests h fileExists (Some analysis) framework t = (Ok NoTestsToRun, t))
  /\ (testCases analysis <> [] ->
      Forall (fun tc => Js.truthy (cypressCode tc) = false) (testCases analysis) ->
      runTests h fileExists (Some analysis) framework t = (Ok GenerateCodeFirst, t))
  /\ (Exists (fun tc => Js.truthy (cypressCode tc) = true) (testCases analysis) ->
      workspaceFolder h = None ->
      runTests h fileExists (Some analysis) framework t
      = (Ok (RunFailed NoWorkspaceFolder), t)).
Proof.
  split; [reflexivity|]. split; [|split].
  - intros E. unfold runTests. rewrite E. reflexivity.
  - intros Hn Hf. unfold runTests. cbv zeta.
    destruct (testCases analysis) as [|tc l] eqn:E; [congruence|].
    cbn [length Nat.eqb]. rewrite (filter_none _ _ Hf). reflexivity.
  - intros He Hw. unfold runTests. cbv zeta.
    rewrite (filter_some _ _ He).
    destruct (testCases analysis) as [|tc l] eqn:E; [inversion He|].
    cbn [length Nat.eqb].
    unfold executeTests, bindX, service, saveTestFiles. rewrite Hw. cbv zeta.
    unfold throw. rewrite skipn_all. cbn [map]. rewrite app_nil_r. reflexivity.
Qed.

Lemma runTests_refusals_witness :
  runTests offlineHost (fun _ => false)
    (Some (mkAnalysis [] [] []
             [mkTestCase "p1" "Only Playwright" "has Playwright code" [] "ok"
                None (Some "await page.goto('/');") (Some generated) None]))
    "playwright" []
  = (Ok GenerateCodeFirst, []).
Proof.
  apply (proj1 (proj2 (proj2 (runTests_refusals offlineHost (fun _ => false)
           (mkAnalysis [] [] []
              [mkTestCase "p1" "Only Playwright" "has Playwright code" [] "ok"
                 None (Some "await page.goto('/');") (Some generated) None])
           "playwright" [])))).
  - discriminate.
  - repeat constructor.
Defined.



Lemma written_nil_app (a b : list Event) :
  written a = [] -> written b = [] -> written (a ++ b) = [].
Proof. intros Ha Hb. rewrite written_app, Ha, Hb. reflexivity. Qed.

(** What the Cypress generator adds: at most one request, no file; for
    test data with a url nothing at all. *)
Lemma generateCypressCode_added (h : Host) (testCase : ITestCase) (t : list Event) :
  exists code added,
    generateCypressCode h testCase t = (Ok code, (t ++ added)%list)
    /\ written added = []
    /\ fetchCount added <= 1
    /\ (forall td, urlBearing (testData testCase) = Some td ->
                   code = generateCypressCodeForURL testCase td /\ added = []).
Proof.
  unfold generateCypressCode.
  destruct (urlBearing (testData testCase)) as [td|].
  - eexists; exists []. rewrite app_nil_r. unfold ret.
    repeat split; try apply le_0_n; inversion H; reflexivity.
  - destruct (call_added h (cypressPrompt testCase) cypressSystemPrompt
                (configuredModel h) t) as (added & Ha & Hc & Hw & _).
    assert (Hf : fetchCount added <= 1) by (destruct (Js.truthy (openaiApiKey h)); lia).
    unfold try_catch, bind, lift, emit, ret, cleanAnswer.
    destruct (callOpenAIWithModel h (cypressPrompt testCase) cypressSystemPrompt
                (configuredModel h) t)
      as [[[[ | b | r | s | l | fs ]|]|e] t']; cbn [fst snd] in *; subst t';
      eexists; eexists; rewrite <- ?app_assoc;
      (split; [reflexivity|]);
      (split; [first [exact Hw | apply written_nil_app; [exact Hw | reflexivity]]|]);
      (split; [|discriminate]);
      rewrite ?fetchCount_app;
      try change (fetchCount [EvConsole WarnLevel
                                "OpenAI code generation failed, using fallback:"]) with 0;
      lia.
Qed.

(** The loop on test cases that have the shape of [ITestCase]. *)
Lemma generateAll_typed (h : Host) (testCases : list ITestCase) (t : list Event) :
  exists testCases' added,
    generateAll h testCases t = (Ok testCases', (t ++ added)%list)
    /\ Forall2 (fun tc tc' =>
                  if Js.truthy (cypressCode tc) then tc' = tc
                  else exists code, tc' = withGeneratedCode code tc)
               testCases testCases'
    /\ map id testCases' = map id testCases
    /\ written added = []
    /\ fetchCount added
       <= length (filter (fun tc => negb (Js.truthy (cypressCode tc))) testCases).
Proof.
  revert t. induction testCases as [|tc rest IH]; intros t.
  - exists [], []. rewrite app_nil_r. repeat split; constructor.
  - cbn [generateAll filter].
    destruct (Js.truthy (cypressCode tc)) eqn:Ec; cbn [negb].
    + destruct (IH t) as (rest' & added & Hg & HF & Hid & Hw & Hc).
      exists (tc :: rest'), added.
      unfold bind at 1, ret at 1. unfold bind at 1. rewrite Hg. unfold ret.
      split; [reflexivity|]. split; [|split; [|split]]; try assumption.
      * constructor; [rewrite Ec; reflexivity | exact HF].
      * cbn [map]. rewrite Hid. reflexivity.
    + destruct (generateCypressCode_added h tc t) as (code & a1 & Hgen & Hw1 & Hc1 & _).
      destruct (IH (t ++ a1)%list) as (rest' & a2 & Hg & HF & Hid & Hw & Hc).
      exists (withGeneratedCode code tc :: rest'), (a1 ++ a2)%list.
      unfold bind at 1. unfold bind at 1. rewrite Hgen. unfold ret at 1.
      unfold bind at 1. rewrite Hg. unfold ret.
      split; [rewrite app_assoc; reflexivity|]. split; [|split; [|split]].
      * constructor; [rewrite Ec; exists code; reflexivity | exact HF].
      * cbn [map withGeneratedCode id]. rewrite Hid. reflexivity.
      * apply written_nil_app; assumption.
      * rewrite fetchCount_app. cbn [length]. lia.
Qed.

Lemma withGeneratedCode_again (code code0 : string) (testCase : ITestCase) :
  withGeneratedCode code (withGeneratedCode code0 testCase)
  = withGeneratedCode code testCase.
Proof. reflexivity. Qed.

Lemma fromService_coded (code : string) (testCase : ITestCase) :
  fromService testCase -> fromService (withGeneratedCode code testCase).
Proof.
  intros [H | (code0 & tc0 & H & ->)]; right.
  - exists code, testCase. auto.
  - exists code, tc0. rewrite withGeneratedCode_again. auto.
Qed.

(** X25.  On the test cases the service made itself, as the local
    analysis gave them or with the code a generator gave them, Generate
    All does not fail and writes no file.  It keeps the number, the order
    and the ids of the test cases; a case that has Cypress code is left as
    it is, and every other case gets code and the status generated, its
    other fields unchanged; the result is again a list of such test cases.
    It makes at most one request per case without code.  The test cases of
    a remote answer are outside this statement: they are not validated,
    and one without steps ends the loop with the failure of the
    generator. *)
Theorem generateAll_result (h : Host) (testCases : list ITestCase) (t : list Event) :
  Forall fromService testCases ->
  exists testCases' added,
    generateAll h testCases t = (Ok testCases', (t ++ added)%list)
    /\ Forall2 (fun tc tc' =>
                  if Js.truthy (cypressCode tc) then tc' = tc
                  else exists code, tc' = withGeneratedCode code tc)
               testCases testCases'
    /\ Forall fromService testCases'
    /\ map id testCases' = map id testCases
    /\ written added = []
    /\ fetchCount added
       <= length (filter (fun tc => negb (Js.truthy (cypressCode tc))) testCases).
Proof.
  intros Hs.
  destruct (generateAll_typed h testCases t) as (testCases' & added & Hg & HF & Hid & Hw & Hc).
  exists testCases', added.
  split; [exact Hg|]. split; [exact HF|]. split; [|auto].
  clear Hg Hid Hc. induction HF as [|tc tc' l l' Htc HF IH]; [constructor|].
  inversion Hs as [|? ? Hs1 Hs2]; subst. constructor; [|apply IH, Hs2].
  destruct (Js.truthy (cypressCode tc)); [subst tc'; exact Hs1|].
  destruct Htc as (code & ->). apply fromService_coded, Hs1.
Qed.

Lemma generateAll_result_witness :
  exists testCases' added,
    generateAll offlineHost
      (testCases (analyzePRDFallback "Users should be able to search for products")) []
    = (Ok testCases', added)
    /\ map id testCases' = ["search-001"]
    /\ Forall fromService testCases'.
Proof.
  destruct (generateAll_result offlineHost
              (testCases (analyzePRDFallback "Users should be able to search for products"))
              [])
    as (testCases' & added & Hg & _ & Hs & Hid & _).
  - apply Forall_forall. intros tc Hin. left.
    exists "Users should be able to search for products". exact Hin.
  - exists testCases', added. split; [exact Hg|]. split; [exact Hid | exact Hs].
Defined.

Lemma cypress_url_code_truthy (testCase : ITestCase) (td : TestData) :
  Js.truthy (Some (generateCypressCodeForURL testCase td)) = true.
Proof.
  unfold generateCypressCodeForURL, Js.join.
  match goal with
  | |- Js.truthy (Some (String.concat ?sep (("describe('" ++ ?x) :: ?y :: ?l))) = true =>
      change (String.concat sep (("describe('" ++ x) :: y :: l))
        with (String "d" (("escribe('" ++ x) ++ sep ++ String.concat sep (y :: l)))
  end.
  reflexivity.
Qed.

Lemma filter_all {A : Type} (f : A -> bool) (l : list A) :
  Forall (fun x => f x = true) l -> filter f l = l.
Proof.
  induction 1 as [|x l Hx _ IH]; [reflexivity|]. simpl. rewrite Hx, IH. reflexivity.
Qed.

(** The save, once the loop is known. *)
Lemma saveTestFiles_of_loop (h : Host) (root framework : string)
      (testCases : list ITestCase) (t : list Event) (added : list Event) :
  workspaceFolder h = Some root ->
  let paths := map (testFilePath root framework) testCases in
  saveLoop h (testDirOf root framework) framework testCases []
    (t ++ [EvCreateFolder (testDirOf root framework)])%list
  = (Ok paths, ((t ++ [EvCreateFolder (testDirOf root framework)]) ++ added)%list) ->
  saveTestFiles h testCases framework t
  = (Ok paths,
     (t ++ EvCreateFolder (testDirOf root framework)
        :: added
        ++ (if hasSuite framework
            then [EvWriteFile (suitePath (testDirOf root framework) framework)
                    (suiteContent framework paths)]
            else []))%list).
Proof.
  intros Hw paths Hl. subst paths.
  unfold saveTestFiles. rewrite Hw.
  change (joinPath root ["tests"; framework; "generated"]) with (testDirOf root framework).
  unfold bind at 1, emit at 1. unfold bind at 1. rewrite Hl.
  unfold bind, createTestSuiteFile, ret. rewrite suiteContent_truthy.
  destruct (hasSuite framework); unfold emit, ret;
    rewrite <- !app_assoc; cbn [app]; rewrite ?app_nil_r; reflexivity.
Qed.

(** The loop of the save on cases with a url that went through Generate
    All: the URL template of the framework is written, and nothing else
    happens. *)
Lemma saveLoop_url_cases (h : Host) (root framework : string) (td : TestData)
      (cases : list ITestCase) :
  Js.truthy (url td) = true ->
  Forall (fun tc => testData tc = Some td /\ playwrightCode tc = None) cases ->
  forall files t,
    saveLoop h (testDirOf root framework) framework
      (map (fun tc => withGeneratedCode (generateCypressCodeForURL tc td) tc) cases)
      files t
    = (Ok (files ++ map (testFilePath root framework) cases)%list,
       (t ++ map (fun tc => EvWriteFile (testFilePath root framework tc)
                              (urlCode framework tc td)) cases)%list).
Proof.
  intros Hu HF. induction HF as [|tc rest [Htd Hpw] _ IH]; intros files t.
  - simpl. unfold ret. rewrite !app_nil_r. reflexivity.
  - cbn [map saveLoop].
    assert (Hc : codeAndExtension h framework
                   (withGeneratedCode (generateCypressCodeForURL tc td) tc) t
                 = (Ok (urlCode framework tc td, extensionOf framework), t)).
    { unfold codeAndExtension, urlCode, extensionOf.
      cbn [cypressCode playwrightCode withGeneratedCode]. rewrite Hpw.
      rewrite cypress_url_code_truthy. cbn [Js.truthy].
      unfold generatePlaywrightCode. cbn [testData withGeneratedCode].
      rewrite Htd. unfold urlBearing. rewrite Hu.
      destruct (String.eqb_spec framework "cypress") as [->|Hn]; [reflexivity|].
      destruct (String.eqb framework "playwright"); reflexivity. }
    unfold bind at 1. rewrite Hc. cbn [fst snd].
    unfold bind at 1, emit at 1. unfold fsPath.
    change (joinPath (testDirOf root framework)
              [id (withGeneratedCode (generateCypressCodeForURL tc td) tc)
               ++ extensionOf framework])
      with (testFilePath root framework tc).
    rewrite IH. rewrite <- !app_assoc. reflexivity.
Qed.

Lemma generateAll_url_cases (h : Host) (td : TestData) (cases : list ITestCase) :
  Js.truthy (url td) = true ->
  Forall (fun tc => testData tc = Some td /\ cypressCode tc = None) cases ->
  forall t,
    generateAll h cases t
    = (Ok (map (fun tc => withGeneratedCode (generateCypressCodeForURL tc td) tc) cases), t).
Proof.
  intros Hu HF. induction HF as [|tc rest [Htd Hcy] _ IH]; intros t; [reflexivity|].
  cbn [generateAll map]. rewrite Hcy. cbn [Js.truthy negb].
  unfold generateCypressCode. rewrite Htd. unfold urlBearing. rewrite Hu.
  unfold bind, ret. rewrite IH. reflexivity.
Qed.

Lemma url_cases_fields (td : TestData) :
  Forall (fun tc => testData tc = Some td
                    /\ cypressCode tc = None /\ playwrightCode tc = None)
         (generateLoginTestCasesForURL td).
Proof. repeat constructor. Qed.

(** X26.  From a URL to a run without the remote capability: for test
    data with a url, Generate All gives each of the four synthesized cases
    its Cypress URL template and adds no event; a run of the result then
    saves, for each case and in order, the URL template of the chosen
    framework, and sends the commands.  No request is made at any point,
    with or without a key. *)
Theorem url_cases_run_without_requests (h : Host) (fileExists : string -> bool)
        (root : string) (td : TestData) (fs us acs : list string) (framework : string)
        (t : list Event) (tx : list ExecEvent) :
  Js.truthy (url td) = true ->
  workspaceFolder h = Some root ->
  let cases := generateLoginTestCasesForURL td in
  let coded := map (fun tc => withGeneratedCode (generateCypressCodeForURL tc td) tc)
                 cases in
  let paths := map (testFilePath root framework) cases in
  generateAll h cases t = (Ok coded, t)
  /\ runTests h fileExists (Some (mkAnalysis fs us acs coded)) framework tx
     = (Ok TestsStarted,
        (tx ++ map EvService
                 (EvCreateFolder (testDirOf root framework)
                    :: map (fun tc => EvWriteFile (testFilePath root framework tc)
                                        (urlCode framework tc td)) cases
                    ++ (if hasSuite framework
                        then [EvWriteFile (suitePath (testDirOf root framework) framework)
                                (suiteContent framework paths)]
                        else []))
            ++ [EvCreateTerminal root; EvProcessReady]
            ++ sendEvents (getExecutionCommands framework paths (mkOptions false None))
            ++ [EvFocus])%list).
Proof.
  intros Hu Hw. cbv zeta.
  pose proof (url_cases_fields td) as HF.
  split.
  - apply generateAll_url_cases; [exact Hu|].
    eapply Forall_impl; [|exact HF]. cbv beta. intros tc (H1 & H2 & _). auto.
  - set (cases := generateLoginTestCasesForURL td) in *.
    set (coded := map (fun tc => withGeneratedCode (generateCypressCodeForURL tc td) tc)
                    cases).
    assert (Hpaths : map (testFilePath root framework) coded
                     = map (testFilePath root framework) cases).
    { unfold coded. rewrite map_map. reflexivity. }
    assert (Hfilter : filter (fun tc => Js.truthy (cypressCode tc)) coded = coded).
    { apply filter_all. unfold coded. apply Forall_map, Forall_forall. intros tc _.
      apply cypress_url_code_truthy. }
    assert (Hsave : saveTestFiles h coded framework (serviceEvents tx)
                    = (Ok (map (testFilePath root framework) coded),
                       (serviceEvents tx
                          ++ EvCreateFolder (testDirOf root framework)
                          :: map (fun tc => EvWriteFile (testFilePath root framework tc)
                                              (urlCode framework tc td)) cases
                          ++ (if hasSuite framework
                              then [EvWriteFile
                                      (suitePath (testDirOf root framework) framework)
                                      (suiteContent framework
                                         (map (testFilePath root framework) coded))]
                              else []))%list)).
    { apply saveTestFiles_of_loop; [exact Hw|]. cbv zeta. rewrite Hpaths.
      apply (saveLoop_url_cases h root framework td cases Hu).
      eapply Forall_impl; [|exact HF]. cbv beta. intros tc (H1 & _ & H3). auto. }
    destruct (executeTests_events h fileExists root coded framework
                (mkOptions false None) tx Hw) as (saved & Hs & Hx).
    cbv zeta in Hs, Hx. cbn [headed] in Hx. rewrite andb_false_r, app_nil_r in Hx.
    rewrite Hsave in Hs. injection Hs as Hs. apply app_inv_head in Hs. subst saved.
    unfold runTests. cbv zeta. cbn [testCases]. rewrite Hfilter.
    assert (Hlen : (length coded =? 0) = false) by reflexivity.
    rewrite Hlen, Hx, Hpaths. reflexivity.
Qed.

Lemma url_cases_run_without_requests_witness :
  fst (runTests offlineHost (fun _ => false)
         (Some (mkAnalysis [] [] []
                  (map (fun tc => withGeneratedCode
                                    (generateCypressCodeForURL tc quickTestData) tc)
                     (generateLoginTestCasesForURL quickTestData))))
         "playwright" [])
  = Ok TestsStarted.
Proof.
  rewrite (proj2 (url_cases_run_without_requests offlineHost (fun _ => false) "/ws"
                    quickTestData [] [] [] "playwright" [] [] eq_refl eq_refl)).
  reflexivity.
Defined.

(** ** File names *)

Lemma append_inv_head (a b c : string) : a ++ b = a ++ c -> b = c.
Proof.
  induction a as [|x a IH]; simpl; intros H; [exact H|].
  inversion H. auto.
Qed.

Lemma append_inv_tail (a b e : string) : a ++ e = b ++ e -> a = b.
Proof.
  revert b. induction a as [|x a IH]; intros [|y b] H.
  - reflexivity.
  - exfalso. apply (f_equal String.length) in H.
    simpl in H. rewrite length_append in H. lia.
  - exfalso. apply (f_equal String.length) in H.
    simpl in H. rewrite length_append in H. lia.
  - simpl in H. inversion H; subst. f_equal. apply IH. assumption.
Qed.

Lemma testFilePath_name (root framework : string) (testCase : ITestCase) :
  testFilePath root framework testCase
  = joinPath (testDirOf root framework) [fileNameOf framework testCase].
Proof. reflexivity. Qed.

Lemma suitePath_name (testDir framework : string) :
  suitePath testDir framework = joinPath testDir [suiteFileName framework].
Proof. reflexivity. Qed.

(** X27.  The file of a test case is named by its id alone.  The name
    handed to [URI.joinPath] is the id followed by the extension of the
    framework, so two cases get the same name exactly when they share an
    id, and then they share a path: the later one overwrites the earlier.
    For a framework with a suite, the suite file has the name of the file
    of a case exactly when the id of the case is [test-suite], and then it
    has its path.  Whether two different names are joined to one path is
    left to [URI.joinPath] and is not stated. *)
Theorem files_are_named_by_id (framework : string) (tc1 tc2 : ITestCase) :
  (fileNameOf framework tc1 = fileNameOf framework tc2 <-> id tc1 = id tc2)
  /\ (forall root, id tc1 = id tc2 ->
                   testFilePath root framework tc1 = testFilePath root framework tc2)
  /\ (hasSuite framework = true ->
      (suiteFileName framework = fileNameOf framework tc1 <-> id tc1 = "test-suite")
      /\ (forall root, id tc1 = "test-suite" ->
                       suitePath (testDirOf root framework) framework
                       = testFilePath root framework tc1)).
Proof.
  assert (Hsuite : hasSuite framework = true ->
                   suiteFileName framework = "test-suite" ++ extensionOf framework).
  { unfold hasSuite, suiteFileName, extensionOf.
    destruct (String.eqb framework "cypress"); [reflexivity|].
    destruct (String.eqb framework "playwright"); [reflexivity | discriminate]. }
  split; [|split].
  - unfold fileNameOf. split.
    + apply append_inv_tail.
    + intros ->. reflexivity.
  - intros root E. rewrite !testFilePath_name. unfold fileNameOf. rewrite E. reflexivity.
  - intros Hs. rewrite (Hsuite Hs). unfold fileNameOf. split.
    + split.
      * intros H. apply append_inv_tail in H. auto.
      * intros ->. reflexivity.
    + intros root E. rewrite testFilePath_name, suitePath_name, (Hsuite Hs).
      unfold fileNameOf. rewrite E. reflexivity.
Qed.

Lemma files_are_named_by_id_witness :
  suiteFileName "cypress"
  = fileNameOf "cypress"
      (mkTestCase "test-suite" "Suite" "a case named as the suite" [] "ok"
         None None None None)
  /\ suitePath (testDirOf "/ws" "cypress") "cypress"
     = testFilePath "/ws" "cypress"
         (mkTestCase "test-suite" "Suite" "a case named as the suite" [] "ok"
            None None None None).
Proof.
  destruct (proj2 (proj2 (files_are_named_by_id "cypress"
                            (mkTestCase "test-suite" "Suite" "a case named as the suite"
                               [] "ok" None None None None)
                            generateGenericTestCase)) eq_refl) as [Hn Hp].
  split; [apply Hn; reflexivity | apply Hp; reflexivity].
Defined.

(** ** Missing credentials *)

(** X28.  A text with a URL line and no username line: the parsed
    username is undefined and the templates print it as the text
    [undefined]; so the first synthesized case asks to enter the username
    [undefined], and the Cypress code for the URL, of any case, types
    [undefined] into the username field. *)
Theorem missing_username_is_typed_as_undefined (prd : string) (td : TestData)
        (tc : ITestCase) :
  parseTestDataFromPRD prd = Some td ->
  (forall l, In l (linesOf prd) -> match1 usernamePattern l = None) ->
  username td = None
  /\ In "Enter username: undefined"
        (steps (hd generateGenericTestCase (generateLoginTestCasesForURL td)))
  /\ Js.includes "cy.get('#username').clear().type('undefined', { delay: 100 });"
       (generateCypressCodeForURL tc td) = true.
Proof.
  intros Hp Hn.
  pose proof (proj1 (absent_fields_stay_undefined prd td Hp) Hn) as Hu.
  split; [exact Hu|]. split.
  - cbn [generateLoginTestCasesForURL hd steps]. rewrite Hu. cbn [Js.show In]. auto.
  - unfold generateCypressCodeForURL. rewrite Hu. cbn [Js.show].
    eapply includes_join with
      (x := Js.tabs 2 ++ "cy.get('#username').clear().type('" ++ "undefined"
            ++ "', { delay: 100 });");
      [in_list | vm_compute; reflexivity].
Qed.

Lemma missing_username_is_typed_as_undefined_witness :
  In "Enter username: undefined"
     (steps (hd generateGenericTestCase
               (generateLoginTestCasesForURL
                  (mkTestData (Some "https://example.com/login") None None)))).
Proof.
  refine (proj1 (proj2 (missing_username_is_typed_as_undefined
           "URL: https://example.com/login"
           (mkTestData (Some "https://example.com/login") None None)
           (hd generateGenericTestCase
              (generateLoginTestCasesForURL
                 (mkTestData (Some "https://example.com/login") None None)))
           _ _))).
  - vm_compute. reflexivity.
  - intros l [<- | []]. vm_compute. reflexivity.
Defined.

(** ** The parsed values are tokens of the text *)

Lemma FirstAt_token (label line u : string) :
  FirstAt (TokenAt label) line u ->
  u <> EmptyString /\ no_space u = true /\ exists a b, line = a ++ u ++ b.
Proof.
  intros (a & s & rest & -> & (l & ws & -> & _ & _ & Ht & _) & _).
  destruct (token_inv u Ht) as [Hne Hns].
  split; [exact Hne|]. split; [exact Hns|].
  exists (a ++ l ++ ws), rest. rewrite !append_assoc. reflexivity.
Qed.

Lemma match1_token (pattern : regex) (line u : string) :
  pattern = urlPattern \/ pattern = usernamePattern \/ pattern = passwordPattern ->
  match1 pattern line = Some u ->
  u <> EmptyString /\ no_space u = true /\ exists a b, line = a ++ u ++ b.
Proof.
  intros [-> | [-> | ->]] H.
  - apply url_match in H.
    destruct H as (a & s & rest & -> & ((l & ws & -> & _ & _ & Ht & _) & _) & _).
    destruct (token_inv u Ht) as [Hne Hns].
    split; [exact Hne|]. split; [exact Hns|].
    exists (a ++ l ++ ws), rest. rewrite !append_assoc. reflexivity.
  - apply username_match in H. apply (FirstAt_token "Username:"), H.
  - apply password_match in H. apply (FirstAt_token "Password:"), H.
Qed.

Lemma split_head (sep : ascii) (s : string) :
  exists p ps b, Js.split_char sep s = p :: ps /\ s = p ++ b.
Proof.
  induction s as [|c s (p & ps & b & E & Hs)].
  - exists EmptyString, [], EmptyString. auto.
  - simpl. destruct (Ascii.eqb c sep).
    + exists EmptyString, (Js.split_char sep s), (String c s). auto.
    + rewrite E. exists (String c p), ps, b. simpl. rewrite <- Hs. auto.
Qed.

(** A piece of a split text occurs in the text. *)
Lemma split_piece (sep : ascii) (s line : string) :
  In line (Js.split_char sep s) -> exists a b, s = a ++ line ++ b.
Proof.
  induction s as [|c s IH]; simpl.
  - intros [<- | []]. exists EmptyString, EmptyString. reflexivity.
  - destruct (Ascii.eqb c sep).
    + intros [<- | Hin].
      * exists EmptyString, (String c s). reflexivity.
      * destruct (IH Hin) as (a & b & ->). exists (String c a), b. reflexivity.
    + destruct (split_head sep s) as (p & ps & b & E & Hs). rewrite E in *.
      intros [<- | Hin].
      * exists EmptyString, b. simpl. rewrite <- Hs. reflexivity.
      * destruct (IH (or_intror Hin)) as (a & b' & ->).
        exists (String c a), b'. reflexivity.
Qed.

Lemma field_from_line (field : TestData -> option string) (pattern : regex)
      (lines : list string) (u : string) :
  (forall td line,
      field (parseLine td line)
      = match match1 pattern line with Some v => Some v | None => field td end) ->
  field emptyTestData = None ->
  field (fold_left parseLine lines emptyTestData) = Some u ->
  exists line, In line lines /\ match1 pattern line = Some u.
Proof.
  intros Hf H0 Hu.
  destruct (last_matching_line pattern lines) as [Hn | (l1 & line & l2 & v & -> & Hm & Hn)].
  - rewrite (loop_no_match field pattern Hf lines emptyTestData Hn), H0 in Hu. discriminate.
  - rewrite (loop_last_match field pattern Hf l1 l2 line v emptyTestData Hm Hn) in Hu.
    inversion Hu; subst. exists line. split; [|exact Hm].
    apply in_or_app. right. left. reflexivity.
Qed.

(** X29.  Each value the parser returns, the url, the username and the
    password, is a token of the text: it is not empty, it holds no white
    space, and it occurs in the text as it is. *)
Theorem parsed_values_are_tokens (prd : string) (td : TestData) (u : string) :
  parseTestDataFromPRD prd = Some td ->
  In (Some u) [url td; username td; password td] ->
  u <> EmptyString /\ no_space u = true /\ Js.includes u prd = true.
Proof.
  unfold parseTestDataFromPRD. intros Hp Hin.
  destruct (Js.truthy _); [|discriminate].
  inversion Hp; subst td; clear Hp.
  assert (H : exists pattern line,
             (pattern = urlPattern \/ pattern = usernamePattern
              \/ pattern = passwordPattern)
             /\ In line (linesOf prd) /\ match1 pattern line = Some u).
  { destruct Hin as [Hu | [Hu | [Hu | []]]].
    - destruct (field_from_line url urlPattern _ u parseLine_url eq_refl Hu)
        as (line & Hl & Hm). exists urlPattern, line. auto.
    - destruct (field_from_line username usernamePattern _ u parseLine_username
                  eq_refl Hu) as (line & Hl & Hm).
      exists usernamePattern, line. auto.
    - destruct (field_from_line password passwordPattern _ u parseLine_password
                  eq_refl Hu) as (line & Hl & Hm).
      exists passwordPattern, line. auto. }
  destruct H as (pattern & line & Hpat & Hl & Hm).
  destruct (match1_token pattern line u Hpat Hm) as (Hne & Hns & a & b & ->).
  split; [exact Hne|]. split; [exact Hns|].
  apply split_piece in Hl. destruct Hl as (a' & b' & ->).
  apply includes_app_r. rewrite !append_assoc. apply includes_middle.
Qed.

Lemma parsed_values_are_tokens_witness :
  no_space "https://example.com/login" = true
  /\ Js.includes "https://example.com/login" quickTestText = true.
Proof.
  apply (parsed_values_are_tokens quickTestText quickTestData "https://example.com/login").
  - vm_compute. reflexivity.
  - left. reflexivity.
Defined.

(** ** The deterministic translation of a case *)

Lemma includes_refl (p : string) : Js.includes p p = true.
Proof. rewrite <- (append_nil_r p) at 2. apply includes_self. Qed.

(** X30.  The deterministic code of a test case without a url leaves
    nothing out: the command of every step of the case and the assertion
    of its expected result occur in the code, for both frameworks. *)
Theorem fallback_code_covers_the_case (testCase : ITestCase) (step : string) :
  urlBearing (testData testCase) = None ->
  In step (steps testCase) ->
  Js.includes (stepToCypressCommand step) (generateCypressCodeFallback testCase) = true
  /\ Js.includes (expectedResultToAssertion (expectedResult testCase))
       (generateCypressCodeFallback testCase) = true
  /\ Js.includes (stepToPlaywrightCommand step)
       (generatePlaywrightCodeFallback testCase) = true
  /\ Js.includes (expectedResultToPlaywrightAssertion (expectedResult testCase))
       (generatePlaywrightCodeFallback testCase) = true.
Proof.
  intros Hu Hin.
  unfold generateCypressCodeFallback, generatePlaywrightCodeFallback.
  rewrite Hu. cbv zeta.
  split; [|split; [|split]].
  - eapply includes_join; [do 6 right; left; reflexivity|].
    apply includes_app_r.
    eapply includes_join; [apply in_map, Hin | apply includes_refl].
  - eapply includes_join; [do 9 right; left; reflexivity|].
    apply includes_app_r, includes_refl.
  - eapply includes_join; [do 5 right; left; reflexivity|].
    apply includes_app_r.
    eapply includes_join; [apply in_map, Hin | apply includes_refl].
  - eapply includes_join; [do 8 right; left; reflexivity|].
    apply includes_app_r, includes_refl.
Qed.

Lemma fallback_code_covers_the_case_witness :
  Js.includes "cy.visit('/');" (generateCypressCodeFallback generateGenericTestCase) = true.
Proof.
  apply (proj1 (fallback_code_covers_the_case generateGenericTestCase
                  "Navigate to application" eq_refl (or_introl eq_refl))).
Defined.
